(** * ShopBot: the agent orchestration core

    A shallow embedding of the TypeScript sources under [src/infra]:

    - [utils/retry.ts]         [retryWithBackoff]
    - [tools/item-lookup.ts]   [createItemLookupTool]
    - [agent.ts]               [shouldContinue], [callModel], [callAgent],
                               and its older inline [itemLookupTool]
    - [seed-database.ts]       [createItemSummary], [generateData],
                               [createVectorSearchIndex], [seedDatabase]
    - the server ([index.ts])  the two chat endpoints
    - [scripts/start-all.js]   [runSync], [startProcess], [main]

    JavaScript numbers that the code uses as counts ([attempt], [n],
    [totalCount], delays in milliseconds) are integers in [Z];
    [maxRetries], which the loop of [retryWithBackoff] only compares
    with, is any finite number or [NaN].  Asynchronous functions are
    state-passing functions over a world: [await] is sequencing, a
    rejected promise is [Throw].  The effects of a call on the world
    persist when the call throws, as they do in JavaScript.
    [console.log] and [console.error] are not modelled. *)

From Stdlib Require Import ZArith QArith Qround String List Bool Lia Sorted
  DecimalString.
Import ListNotations.

Set Warnings "-register-all".

Local Open Scope string_scope.
Local Open Scope list_scope.
Local Open Scope Z_scope.

(** ** Thrown values and outcomes *)

Module Js.

(** An instance of [Error]; [status] is the optional field of
    [RetryableError] and [AgentError]. *)
Record Error := mkError {
  name : string;
  message : string;
  status : option Z
}.

(** [new Error(msg)] *)
Definition new_Error (msg : string) : Error := mkError "Error" msg None.

(** The two values that have no properties. *)
Inductive Nullish := null | undefined.

(** [String(null)] and [String(undefined)] *)
Definition nullish_string (v : Nullish) : string :=
  match v with
  | null => "null"
  | undefined => "undefined"
  end.

(** The values thrown in this development: an [Error] instance; a
    string, number or boolean, kept as its [String(value)] rendering,
    on which [.status] and [.message] are [undefined]; or [null] or
    [undefined], as a promise rejected without a reason gives.  An
    object that is not an [Error] is not represented. *)
Inductive Thrown :=
| ThrownError (e : Error)
| ThrownValue (rendering : string)
| ThrownNullish (v : Nullish).

(** The [TypeError] of reading [property] of [null] or [undefined],
    with the message Node gives it. *)
Definition cannot_read (v : Nullish) (property : string) : Thrown :=
  ThrownError
    (mkError "TypeError"
       ("Cannot read properties of " ++ nullish_string v
        ++ " (reading '" ++ property ++ "')")
       None).

(** Reading [error.property] on a caught value throws on [null] and
    [undefined], and only there: [Some] is what it throws. *)
Definition reading (error : Thrown) (property : string) : option Thrown :=
  match error with
  | ThrownNullish v => Some (cannot_read v property)
  | _ => None
  end.

(** [error.status], where it can be read. *)
Definition thrown_status (t : Thrown) : option Z :=
  match t with
  | ThrownError e => status e
  | ThrownValue _ => None
  | ThrownNullish _ => None
  end.

(** [error.status === code] *)
Definition status_is (t : Thrown) (code : Z) : bool :=
  match thrown_status t with
  | Some s => s =? code
  | None => false
  end.

(** [error instanceof Error ? error.message : String(error)] *)
Definition message_or_string (t : Thrown) : string :=
  match t with
  | ThrownError e => message e
  | ThrownValue s => s
  | ThrownNullish v => nullish_string v
  end.

(** A JavaScript number as [maxRetries] can be given: a finite number,
    whole or not, or [NaN].  [Infinity], with which the loop of
    [retryWithBackoff] has no bound, is not represented. *)
Inductive number :=
| Finite (q : Q)
| NaN.

(** A whole number, as in [maxRetries = 3]. *)
Definition integer (z : Z) : number := Finite (inject_Z z).

(** [attempt <= maxRetries] and [attempt < maxRetries] for an integer
    [attempt]; every comparison with [NaN] is false. *)
Definition number_leb (attempt : Z) (m : number) : bool :=
  match m with
  | Finite q => Qle_bool (inject_Z attempt) q
  | NaN => false
  end.

Definition number_ltb (attempt : Z) (m : number) : bool :=
  match m with
  | Finite q => negb (Qle_bool q (inject_Z attempt))
  | NaN => false
  end.

(** [Math.floor(m)], and 0 for [NaN]: from 1 on, the attempt numbers
    [<= m] are those up to it. *)
Definition last_attempt (m : number) : Z :=
  match m with
  | Finite q => Qfloor q
  | NaN => 0
  end.

(** [Number.isInteger(m)] *)
Definition is_whole (m : number) : bool :=
  match m with
  | Finite q => Qeq_bool q (inject_Z (Qfloor q))
  | NaN => false
  end.

Inductive Outcome (A : Type) :=
| Return (a : A)
| Throw (t : Thrown).
Arguments Return {A} a.
Arguments Throw {A} t.

End Js.
Import Js.

Coercion integer : Z >-> number.

Arguments integer : simpl never.
Arguments number_leb : simpl never.
Arguments number_ltb : simpl never.
Arguments last_attempt : simpl never.

(** ** Observable events

    Every call that leaves the embedded code is recorded, in order, in
    a trace: this is the call-count instrumentation the properties are
    stated with. *)

(** The filter documents handed to [collection.find]. *)
Inductive Filter :=
| FAll                                                  (* {} *)
| FRegex (field : string) (pattern options : string)    (* {field: {$regex, $options}} *)
| FOr (alternatives : list Filter).                     (* {$or: [...]} *)

Inductive Event :=
| EvInvoke                                    (* retryWithBackoff: fn() *)
| EvSleep (ms : Z)                            (* setTimeout(resolve, ms), awaited *)
| EvCountDocuments                            (* collection.countDocuments() *)
| EvSimilaritySearch (query : string) (k : Z) (* vectorStore.similaritySearchWithScore(query, k) *)
| EvFind (filter : Filter) (limit : Z)        (* collection.find(filter).limit(limit).toArray() *)
| EvAgent                                     (* the graph enters node "agent" *)
| EvTools.                                    (* the graph enters node "tools" *)

(** The events of the retrier. *)
Definition retry_event (e : Event) : Prop :=
  e = EvInvoke \/ exists ms, e = EvSleep ms.

Definition is_invoke (e : Event) : bool :=
  match e with EvInvoke => true | _ => false end.

Definition is_find (e : Event) : bool :=
  match e with EvFind _ _ => true | _ => false end.

Definition is_search (e : Event) : bool :=
  match e with EvSimilaritySearch _ _ | EvFind _ _ => true | _ => false end.

Definition is_agent (e : Event) : bool :=
  match e with EvAgent => true | _ => false end.

Definition count_events (p : Event -> bool) (tr : list Event) : nat :=
  length (filter p tr).

(** The delays slept, in order. *)
Fixpoint sleeps (tr : list Event) : list Z :=
  match tr with
  | [] => []
  | EvSleep ms :: tr' => ms :: sleeps tr'
  | _ :: tr' => sleeps tr'
  end.

(** ** Asynchronous computations *)

Section Async.

(** The state of the collaborators (language model, database). *)
Context {W : Type}.

Record St := mkSt { world : W; trace : list Event }.

(** An external operation: it may change the world and may throw. *)
Definition Op (A : Type) : Type := W -> Outcome A * W.

(** An embedded [async] function.  [None] is the model running out of
    fuel in a loop; the totality lemmas show it does not happen. *)
Definition Async (A : Type) : Type := St -> option (Outcome A * St).

Definition ret {A} (a : A) : Async A := fun s => Some (Return a, s).

Definition throw {A} (t : Thrown) : Async A := fun s => Some (Throw t, s).

Definition bind {A B} (c : Async A) (k : A -> Async B) : Async B :=
  fun s =>
    match c s with
    | Some (Return a, s1) => k a s1
    | Some (Throw t, s1) => Some (Throw t, s1)
    | None => None
    end.

(** [try { c } catch (error) { handler }] *)
Definition try_catch {A} (c : Async A) (handler : Thrown -> Async A) : Async A :=
  fun s =>
    match c s with
    | Some (Return a, s1) => Some (Return a, s1)
    | Some (Throw t, s1) => handler t s1
    | None => None
    end.

Definition log (e : Event) (s : St) : St :=
  mkSt (world s) (trace s ++ [e]).

(** [await op(...)], recorded as event [e]. *)
Definition call {A} (e : Event) (op : Op A) : Async A :=
  fun s =>
    let (r, w1) := op (world s) in
    Some (r, mkSt w1 (trace s ++ [e])).

End Async.

Arguments St W : clear implicits.
Arguments Op W A : clear implicits.
Arguments Async W A : clear implicits.

Declare Scope async_scope.
Delimit Scope async_scope with async.
Notation "x <- c ;; k" := (bind c (fun x => k))
  (at level 100, c at next level, right associativity) : async_scope.

(** ** utils/retry.ts *)

Section Retry.

Context {W T : Type}.

(** [Math.min(1000 * Math.pow(2, attempt), 30000)] *)
Definition backoff_delay (attempt : Z) : Z :=
  Z.min (1000 * 2 ^ attempt) 30000.

(** The ways out of [retryWithBackoff]: [return await fn()],
    [throw error] in the [catch] clause, the [throw] after the loop,
    and the [TypeError] of the [catch] clause itself when it reads
    [.status] of a caught [null] or [undefined]. *)
Inductive RetryExit :=
| Returned (v : T)
| Rethrown (error : Thrown)
| LoopExit
| CatchFailed (typeError : Thrown).

Definition max_retries_exceeded : Thrown :=
  ThrownError (new_Error "Max retries exceeded").

Definition exit_outcome (x : RetryExit) : Outcome T :=
  match x with
  | Returned v => Return v
  | Rethrown error => Throw error
  | LoopExit => Throw max_retries_exceeded
  | CatchFailed typeError => Throw typeError
  end.

(** The exit taken at an attempt that ends the run, from the outcome
    of [fn()]. *)
Definition attempt_exit (o : Outcome T) : RetryExit :=
  match o with
  | Return v => Returned v
  | Throw error =>
      match reading error "status" with
      | Some typeError => CatchFailed typeError
      | None => Rethrown error
      end
  end.

Variable fn : Op W T.
Variable maxRetries : number.

(** The [for] loop, from the test [attempt <= maxRetries] on. *)
Fixpoint retry_from (fuel : nat) (attempt : Z) (s : St W)
  : option (RetryExit * St W) :=
  match fuel with
  | O => None
  | S fuel' =>
      if number_leb attempt maxRetries then
        match fn (world s) with
        | (Return v, w1) => Some (Returned v, mkSt w1 (trace s ++ [EvInvoke]))
        | (Throw error, w1) =>
            let s1 := mkSt w1 (trace s ++ [EvInvoke]) in
            match reading error "status" with
            | Some typeError => Some (CatchFailed typeError, s1)
            | None =>
                if status_is error 429 && number_ltb attempt maxRetries then
                  let delay := backoff_delay attempt in
                  retry_from fuel' (attempt + 1) (log (EvSleep delay) s1)
                else Some (Rethrown error, s1)
            end
        end
      else Some (LoopExit, s)
  end.

(** The loop from [attempt = 1]; it goes round at most
    [Math.floor(maxRetries)] times. *)
Definition retry_exit (s : St W) : option (RetryExit * St W) :=
  retry_from (S (Z.to_nat (last_attempt maxRetries))) 1 s.

Definition retryWithBackoff : Async W T :=
  fun s =>
    match retry_exit s with
    | Some (x, s1) => Some (exit_outcome x, s1)
    | None => None
    end.

(** The world after [i] invocations of [fn], and the outcome of
    invocation number [i] (counted from 0). *)
Fixpoint world_after (i : nat) (w : W) : W :=
  match i with
  | O => w
  | S i' => world_after i' (snd (fn w))
  end.

Definition nth_outcome (i : nat) (w : W) : Outcome T :=
  fst (fn (world_after i w)).

(** What [k] failed attempts starting at [attempt] leave in the trace. *)
Fixpoint backoff_rounds (k : nat) (attempt : Z) : list Event :=
  match k with
  | O => []
  | S k' => EvInvoke :: EvSleep (backoff_delay attempt)
              :: backoff_rounds k' (attempt + 1)
  end.

End Retry.

Arguments RetryExit T : clear implicits.

(** ** types.ts *)

(** [searchType: "vector" | "text"].  The specification calls the two
    tags semantic and keyword. *)
Inductive SearchType := vector | text.

Definition searchType_string (t : SearchType) : string :=
  match t with
  | vector => "vector"
  | text => "text"
  end.

(** [interface ItemLookupParams { query: string; n?: number }] *)
Record ItemLookupParams := mkParams {
  query : string;
  n : option Z
}.

Section Envelopes.

(** [Hit] is a [[Document, score]] pair of the vector store, [Doc] a
    document of the collection. *)
Context {Hit Doc : Type}.

Inductive Entry :=
| VectorHit (h : Hit)
| StoredDoc (d : Doc).

(** [interface SearchResult] *)
Record SearchResult := mkSearchResult {
  results : list Entry;
  searchType : SearchType;
  result_query : string;     (* query *)
  count : Z
}.

(** [interface SearchError { error; details?; query? }] *)
Record SearchError := mkSearchError {
  error : string;
  details : option string;
  error_query : option string  (* query *)
}.

(** The object literals the tool passes to [JSON.stringify]. *)
Inductive ToolOutput :=
| EmptyInventory (error message : string) (count : Z)
| Found (r : SearchResult)
| Failed (e : SearchError).

(** Reading a field of the envelope. *)
Definition output_error (o : ToolOutput) : option string :=
  match o with
  | EmptyInventory e _ _ => Some e
  | Found _ => None
  | Failed e => Some (error e)
  end.

Definition output_count (o : ToolOutput) : option Z :=
  match o with
  | EmptyInventory _ _ c => Some c
  | Found r => Some (count r)
  | Failed _ => None
  end.

Definition output_searchType (o : ToolOutput) : option string :=
  match o with
  | Found r => Some (searchType_string (searchType r))
  | _ => None
  end.

End Envelopes.

Arguments Entry Hit Doc : clear implicits.
Arguments SearchResult Hit Doc : clear implicits.
Arguments ToolOutput Hit Doc : clear implicits.

(** ** tools/item-lookup.ts *)

Section ItemLookup.

Context {W Hit Doc : Type}.

(** The part of the MongoDB [Collection] the tool uses.
    [find filter limit] is [collection.find(filter).limit(limit).toArray()]. *)
Record Collection := mkCollection {
  countDocuments : Op W Z;
  find : Filter -> Z -> Op W (list Doc)
}.

(** [MongoDBAtlasVectorSearch] over the collection, with the Gemini
    embeddings: the embedding backend is reached only through
    [similaritySearchWithScore], which embeds the query first. *)
Record VectorStore := mkVectorStore {
  similaritySearchWithScore : string -> Z -> Op W (list Hit)
}.

Variable collection : Collection.
Variable vectorStore : VectorStore.

(** The [$or] filter of the text search. *)
Definition keyword_filter (query : string) : Filter :=
  FOr [ FRegex "item_name" query "i";
        FRegex "item_description" query "i";
        FRegex "categories" query "i";
        FRegex "embedding_text" query "i" ].

(** [n = 10] in the parameter list, [.optional().default(10)] in the
    schema; [z.number()] accepts every number. *)
Definition limit_of (params : ItemLookupParams) : Z :=
  match n params with
  | Some k => k
  | None => 10
  end.

Definition empty_inventory : ToolOutput Hit Doc :=
  EmptyInventory "No items found in inventory"
                 "The inventory database appears to be empty" 0.

(** A collection whose cursor keeps to a positive [limit]. *)
Definition honours_limit : Prop :=
  forall f k w docs w',
    0 < k -> find collection f k w = (Return docs, w') ->
    Z.of_nat (length docs) <= k.

(** All the events a run of the tool can add to the trace. *)
Definition lookup_events (query : string) (n : Z) : list Event :=
  [EvCountDocuments; EvFind FAll 3; EvSimilaritySearch query n;
   EvFind (keyword_filter query) n].

(** The object built in the [catch] clause. *)
Definition failure (details : option string) (query : string) : ToolOutput Hit Doc :=
  Failed (mkSearchError "Failed to search inventory" details (Some query)).

(** The function wrapped by [createItemLookupTool(collection)]. *)
Definition createItemLookupTool (params : ItemLookupParams)
  : Async W (ToolOutput Hit Doc) :=
  let query := query params in
  let n := limit_of params in
  try_catch
    (totalCount <- call EvCountDocuments (countDocuments collection) ;;
     if totalCount =? 0 then ret empty_inventory
     else
       result <- call (EvSimilaritySearch query n)
                      (similaritySearchWithScore vectorStore query n) ;;
       if Z.of_nat (length result) =? 0 then
         textResults <- call (EvFind (keyword_filter query) n)
                             (find collection (keyword_filter query) n) ;;
         ret (Found (mkSearchResult (map StoredDoc textResults) text query
                                    (Z.of_nat (length textResults))))
       else
         ret (Found (mkSearchResult (map VectorHit result) vector query
                                    (Z.of_nat (length result)))))%async
    (fun error => ret (failure (Some (message_or_string error)) query)).

(** [error.message] of [catch (error: any)], where it can be read:
    [undefined] on a string or a number, and then left out by
    [JSON.stringify]. *)
Definition any_message (t : Thrown) : option string :=
  match t with
  | ThrownError e => Some (message e)
  | ThrownValue _ => None
  | ThrownNullish _ => None
  end.

(** The [catch] clause of the inline copy: it reads [error.message]
    (first for the log, then for [details]) without the [instanceof]
    test, so that a caught [null] or [undefined] makes the clause
    itself throw. *)
Definition inline_catch (query : string) (error : Thrown)
  : Async W (ToolOutput Hit Doc) :=
  match reading error "message" with
  | Some typeError => throw typeError
  | None => ret (failure (any_message error) query)
  end.

(** The older inline copy in agent.ts, [itemLookupTool]: it also
    fetches three sample documents for logging. *)
Definition itemLookupTool (params : ItemLookupParams)
  : Async W (ToolOutput Hit Doc) :=
  let query := query params in
  let n := limit_of params in
  try_catch
    (totalCount <- call EvCountDocuments (countDocuments collection) ;;
     if totalCount =? 0 then ret empty_inventory
     else
       sampleDocs <- call (EvFind FAll 3) (find collection FAll 3) ;;
       result <- call (EvSimilaritySearch query n)
                      (similaritySearchWithScore vectorStore query n) ;;
       if Z.of_nat (length result) =? 0 then
         textResults <- call (EvFind (keyword_filter query) n)
                             (find collection (keyword_filter query) n) ;;
         ret (Found (mkSearchResult (map StoredDoc textResults) text query
                                    (Z.of_nat (length textResults))))
       else
         ret (Found (mkSearchResult (map VectorHit result) vector query
                                    (Z.of_nat (length result)))))%async
    (inline_catch query).

(** A call made by a run of the tool from the world [w] throws [t]:
    the count, the similarity search, or the keyword find after an
    empty similarity search. *)
Definition call_throws (params : ItemLookupParams) (w : W) (t : Thrown) : Prop :=
  (exists w1, countDocuments collection w = (Throw t, w1))
  \/ (exists total w1 w2,
        countDocuments collection w = (Return total, w1)
        /\ total <> 0
        /\ similaritySearchWithScore vectorStore (query params) (limit_of params) w1
           = (Throw t, w2))
  \/ (exists total w1 w2 w3,
        countDocuments collection w = (Return total, w1)
        /\ total <> 0
        /\ similaritySearchWithScore vectorStore (query params) (limit_of params) w1
           = (Return [], w2)
        /\ find collection (keyword_filter (query params)) (limit_of params) w2
           = (Throw t, w3)).

End ItemLookup.

Arguments failure {Hit Doc} details query.
Arguments honours_limit {W Doc} collection.
Arguments Collection W Doc : clear implicits.
Arguments VectorStore W Hit : clear implicits.

(** ** agent.ts *)

(** [HumanMessage], [AIMessage], [ToolMessage] and the system message
    of the prompt template. *)
Inductive MessageType := system | human | ai | tool.

(** An entry of [AIMessage.tool_calls]. *)
Record ToolCall := mkToolCall {
  tool_name : string;
  tool_args : ItemLookupParams;
  call_id : string
}.

(** The node names of the workflow. *)
Inductive Node := __start__ | agent | tools | __end__.

Section Agent.

Context {W Hit Doc : Type}.

(** Message content: text, or a tool's [JSON.stringify]ed envelope. *)
Inductive Content :=
| TextContent (s : string)
| JsonContent (o : ToolOutput Hit Doc).

Record BaseMessage := mkMessage {
  message_type : MessageType;
  content : Content;
  tool_calls : option (list ToolCall);   (* tool_calls?: ... *)
  tool_call_id : option string
}.

Definition HumanMessage (query : string) : BaseMessage :=
  mkMessage human (TextContent query) None None.

Definition SystemMessage (s : string) : BaseMessage :=
  mkMessage system (TextContent s) None None.

Definition ToolMessage (o : ToolOutput Hit Doc) (id : string) : BaseMessage :=
  mkMessage tool (JsonContent o) None (Some id).

(** [GraphState]: [messages] with the reducer [(x, y) => x.concat(y)]. *)
Record GraphState := mkGraphState { messages : list BaseMessage }.

Definition reducer (x y : list BaseMessage) : list BaseMessage := x ++ y.

Definition update (state : GraphState) (y : list BaseMessage) : GraphState :=
  mkGraphState (reducer (messages state) y).

(** [messages[messages.length - 1]] *)
Definition lastMessage (state : GraphState) : option BaseMessage :=
  nth_error (messages state) (length (messages state) - 1).

(** [lastMessage.tool_calls || []] *)
Definition toolCalls (m : BaseMessage) : list ToolCall :=
  match tool_calls m with
  | Some l => l
  | None => []
  end.

Definition undefined_tool_calls : Thrown :=
  ThrownError (mkError "TypeError"
    "Cannot read properties of undefined (reading 'tool_calls')" None).

(** [shouldContinue]: reading [tool_calls] of a missing last message
    is a [TypeError]. *)
Definition shouldContinue (state : GraphState) : Outcome Node :=
  match lastMessage state with
  | None => Throw undefined_tool_calls
  | Some m =>
      Return (if 0 <? Z.of_nat (length (toolCalls m)) then tools else __end__)
  end.

(** The language model with the tools bound, and the clock read by
    [new Date().toISOString()]. *)
Variable model_invoke : list BaseMessage -> Op W BaseMessage.
Variable now : W -> string.

Variable collection : Collection W Doc.
Variable vectorStore : VectorStore W Hit.

(** A model that requests the lookup tool on every generation. *)
Definition always_requests_tool : Prop :=
  forall msgs w,
    exists m w',
      model_invoke msgs w = (Return m, w')
      /\ toolCalls m <> []
      /\ Forall (fun tc => tool_name tc = "item_lookup") (toolCalls m).

(** config/model.ts, [createPromptTemplate]: the system text up to the
    [{time}] placeholder, which ends it. *)
Definition system_template : string :=
  "You are a helpful E-commerce Chatbot Agent for a furniture store. 

IMPORTANT: You have access to an item_lookup tool that searches the furniture inventory database. ALWAYS use this tool when customers ask about furniture items, even if the tool returns errors or empty results.

When using the item_lookup tool:
- If it returns results, provide helpful details about the furniture items
- If it returns an error or no results, acknowledge this and offer to help in other ways
- If the database appears to be empty, let the customer know that inventory might be being updated

Current time: ".

(** [prompt.formatMessages({time, messages})] *)
Definition formatMessages (time : string) (msgs : list BaseMessage)
  : list BaseMessage :=
  SystemMessage (system_template ++ time) :: msgs.

(** The closure handed to [retryWithBackoff] by [callModel]. *)
Definition generate (state : GraphState) : Op W (list BaseMessage) :=
  fun w =>
    let formattedPrompt := formatMessages (now w) (messages state) in
    match model_invoke formattedPrompt w with
    | (Return result, w1) => (Return [result], w1)
    | (Throw t, w1) => (Throw t, w1)
    end.

(** [callModel]; [maxRetries] takes its default, 3. *)
Definition callModel (state : GraphState) : Async W (list BaseMessage) :=
  retryWithBackoff (generate state) 3.

(** The prebuilt tool-execution node and the graph runtime come from
    the orchestration library, which is not among the sources; what
    follows of them is taken from the specification. *)

(** Modelled from the spec: the failure of an unknown tool name
    (section 9), in place of the library's own error. *)
Definition UnknownTool (name : string) : Thrown :=
  ThrownError (mkError "UnknownTool" name None).

(** Modelled from the spec: the dispatch of one invocation through the
    registry of tools, here [tools = [itemLookupTool]], in place of the
    library's [ToolNode]; the tool-result carries the call id it
    answers (section 3). *)
Definition run_tool_call (tc : ToolCall) : Async W BaseMessage :=
  if String.eqb (tool_name tc) "item_lookup" then
    (o <- createItemLookupTool collection vectorStore (tool_args tc) ;;
     ret (ToolMessage o (call_id tc)))%async
  else throw (UnknownTool (tool_name tc)).

(** Modelled from the spec: one tool-result per invocation, in the
    order of the invocations (section 4.4), in place of [ToolNode]. *)
Fixpoint run_tool_calls (tcs : list ToolCall) : Async W (list BaseMessage) :=
  match tcs with
  | [] => ret []
  | tc :: rest =>
      (m <- run_tool_call tc ;;
       ms <- run_tool_calls rest ;;
       ret (m :: ms))%async
  end.

(** Modelled from the spec: the tool-execution node executes all
    pending invocations of the latest assistant message (section 4.4),
    in place of [new ToolNode(tools)]. *)
Definition toolNode (state : GraphState) : Async W (list BaseMessage) :=
  match lastMessage state with
  | Some m => run_tool_calls (toolCalls m)
  | None => ret []
  end.

(** Modelled from the spec: the states of the workflow (section 4.4),
    in place of the runtime behind [StateGraph.compile]. *)
Inductive WorkflowState :=
| AWAITING_GENERATION
| AWAITING_TOOL_EXECUTION
| DONE.

(** Modelled from the spec: a state of the run, with the global step
    counter of section 4.4; [steps] counts the entries into
    [AWAITING_GENERATION] so far. *)
Record Config := mkConfig {
  wstate : WorkflowState;
  steps : Z;
  gstate : GraphState
}.

(** Modelled from the spec: the error of a run that exceeds the
    ceiling (sections 4.4 and 7), in place of the library's own. *)
Definition RecursionLimitExceeded : Thrown :=
  ThrownError (mkError "RecursionLimitExceeded" "Recursion limit reached" None).

(** The conditional edge [addConditionalEdges("agent", shouldContinue)]
    and the names given to [addNode]. *)
Definition successor (route : Node) : WorkflowState :=
  match route with
  | tools => AWAITING_TOOL_EXECUTION
  | agent | __start__ => AWAITING_GENERATION
  | __end__ => DONE
  end.

Variable recursionLimit : Z.

(** Modelled from the spec: the transition function of section 4.4,
    in place of the library's scheduler.  Generation runs [callModel]
    and follows [shouldContinue]; an entry into generation that would
    exceed [recursionLimit] fails the run; tool execution returns to
    generation. *)
Definition step (c : Config) : Async W Config :=
  match wstate c with
  | AWAITING_GENERATION =>
      if recursionLimit <=? steps c then throw RecursionLimitExceeded
      else
        (_ <- (fun s => Some (Return tt, log EvAgent s)) ;;
         y <- callModel (gstate c) ;;
         let state' := update (gstate c) y in
         match shouldContinue state' with
         | Return route => ret (mkConfig (successor route) (steps c + 1) state')
         | Throw t => throw t
         end)%async
  | AWAITING_TOOL_EXECUTION =>
      (_ <- (fun s => Some (Return tt, log EvTools s)) ;;
       y <- toolNode (gstate c) ;;
       ret (mkConfig AWAITING_GENERATION (steps c) (update (gstate c) y)))%async
  | DONE => ret c
  end.

(** Modelled from the spec: the interpreter loop of section 9 over
    [step], until [DONE]. *)
Fixpoint run (fuel : nat) (c : Config) : Async W GraphState :=
  match fuel with
  | O => fun _ => None
  | S fuel' =>
      match wstate c with
      | DONE => ret (gstate c)
      | _ => (c' <- step c ;; run fuel' c')%async
      end
  end.

(** The iterations of [run] that a configuration can still need. *)
Definition run_budget (c : Config) : nat :=
  match wstate c with
  | DONE => 1
  | AWAITING_GENERATION => 2 * Z.to_nat (recursionLimit - steps c) + 2
  | AWAITING_TOOL_EXECUTION => 2 * Z.to_nat (recursionLimit - steps c) + 3
  end.

(** Modelled from the spec: [app.invoke(input, {recursionLimit,
    configurable: {thread_id}})] runs the workflow from its initial
    state; [saved] is the checkpoint of the thread, merged with the
    input by the reducer (section 4.5). *)
Definition invoke (saved input : list BaseMessage) : Async W GraphState :=
  run (2 * Z.to_nat recursionLimit + 2)
      (mkConfig AWAITING_GENERATION 0 (mkGraphState (reducer saved input))).

End Agent.

Arguments Content Hit Doc : clear implicits.
Arguments BaseMessage Hit Doc : clear implicits.
Arguments GraphState Hit Doc : clear implicits.
Arguments Config Hit Doc : clear implicits.

Section CallAgent.

Context {W Hit Doc : Type}.
Variable model_invoke : list (BaseMessage Hit Doc) -> Op W (BaseMessage Hit Doc).
Variable now : W -> string.
Variable collection : Collection W Doc.
Variable vectorStore : VectorStore W Hit.

(** [recursionLimit: 15] in [callAgent]. *)
Definition configured_recursionLimit : Z := 15.

Definition undefined_content : Thrown :=
  ThrownError (mkError "TypeError"
    "Cannot read properties of undefined (reading 'content')" None).

(** [callAgent]: the content of the last message of the final state,
    and the three messages its [catch] clause rethrows.  Saving the
    checkpoint is not modelled. *)
Definition callAgent (saved : list (BaseMessage Hit Doc)) (query : string)
  : Async W (Content Hit Doc) :=
  try_catch
    (finalState <- invoke model_invoke now collection vectorStore
                          configured_recursionLimit saved [HumanMessage query] ;;
     match lastMessage finalState with
     | Some m => ret (content m)
     | None => throw undefined_content
     end)%async
    (fun error =>
       match error with
       | ThrownError e =>
           if status_is error 429 then
             throw (ThrownError (new_Error
               "Service temporarily unavailable due to rate limits. Please try again in a minute."))
           else if status_is error 401 then
             throw (ThrownError (new_Error
               "Authentication failed. Please check your API configuration."))
           else
             throw (ThrownError (new_Error ("Agent failed: " ++ message e)))
       | ThrownValue _ | ThrownNullish _ =>
           throw (ThrownError (new_Error
             ("Agent failed: " ++ message_or_string error)))
       end).

End CallAgent.

(** ** An in-memory store and scripted collaborators

    Concrete collaborators on which the embedded code runs: a catalog
    held in a list, a vector index that is either missing or complete,
    and language models that follow a script. *)

Module Memory.

(** The fields of an item that the tool searches. *)
Record Item := mkItem {
  item_name : string;
  item_description : string;
  categories : list string;
  embedding_text : string
}.

Record World := mkWorld {
  catalog : list Item;
  calls : nat          (* invocations of the language model so far *)
}.

Definition lower_ascii (c : Ascii.ascii) : Ascii.ascii :=
  let k := Ascii.nat_of_ascii c in
  if ((65 <=? k) && (k <=? 90))%nat then Ascii.ascii_of_nat (k + 32) else c.

Fixpoint lower (s : string) : string :=
  match s with
  | EmptyString => EmptyString
  | String c s' => String (lower_ascii c) (lower s')
  end.

(** A pattern without metacharacters matches where it occurs. *)
Definition regex_i (pattern subject : string) : bool :=
  match String.index 0 (lower pattern) (lower subject) with
  | Some _ => true
  | None => false
  end.

Definition field_values (field : string) (d : Item) : list string :=
  if String.eqb field "item_name" then [item_name d]
  else if String.eqb field "item_description" then [item_description d]
  else if String.eqb field "categories" then categories d
  else if String.eqb field "embedding_text" then [embedding_text d]
  else [].

Fixpoint matches (f : Filter) (d : Item) : bool :=
  match f with
  | FAll => true
  | FRegex field pattern _ => existsb (regex_i pattern) (field_values field d)
  | FOr alternatives => existsb (fun g => matches g d) alternatives
  end.

(** [cursor.limit(k)]: the first [k] documents for a positive [k], and
    none in this store for any other [k]. *)
Definition collection : Collection World Item :=
  mkCollection
    (fun w => (Return (Z.of_nat (length (catalog w))), w))
    (fun f k w => (Return (firstn (Z.to_nat k) (filter (matches f) (catalog w))), w)).

(** No vector index: every similarity search comes back empty. *)
Definition no_index : VectorStore World (Item * Z) :=
  mkVectorStore (fun _ _ w => (Return [], w)).

(** A complete index: the [k] nearest items, here the first [k]. *)
Definition full_index : VectorStore World (Item * Z) :=
  mkVectorStore
    (fun _ k w => (Return (map (fun d => (d, 1)) (firstn (Z.to_nat k) (catalog w))), w)).

Definition quota_exceeded : Thrown :=
  ThrownError (mkError "Error" "429 Too Many Requests" (Some 429)).

Definition network_down : Thrown :=
  ThrownError (mkError "MongoNetworkError" "connection closed" None).

(** An index whose embedding backend is out of quota. *)
Definition failing_index : VectorStore World (Item * Z) :=
  mkVectorStore (fun _ _ w => (Throw quota_exceeded, w)).

(** An index whose search is rejected without a reason:
    [Promise.reject()]. *)
Definition rejecting_index : VectorStore World (Item * Z) :=
  mkVectorStore (fun _ _ w => (Throw (ThrownNullish undefined), w)).

(** A collection that can be counted but whose cursors fail. *)
Definition unreachable : Collection World Item :=
  mkCollection
    (fun w => (Return (Z.of_nat (length (catalog w))), w))
    (fun _ _ w => (Throw network_down, w)).

Definition oak_table : Item :=
  mkItem "Oak Table" "A solid oak dining table" ["tables"; "dining"]
         "Oak Table. A solid oak dining table".

Definition sofa : Item :=
  mkItem "Linen Sofa" "Three-seat sofa" ["sofas"; "living room"]
         "Linen Sofa. Three-seat sofa".

Definition shop : World := mkWorld [oak_table; sofa] 0.
Definition empty_shop : World := mkWorld [] 0.

(** An operation that is rate-limited on its first [k] calls and then
    returns 42; the world is its call counter. *)
Definition flaky (k : nat) : Op nat Z :=
  fun c => if (c <? k)%nat then (Throw quota_exceeded, S c) else (Return 42, S c).

(** An operation that is rate-limited on every call. *)
Definition always_429 : Op nat Z :=
  fun c => (Throw quota_exceeded, S c).

Definition Msg : Type := BaseMessage (Item * Z) Item.

Definition lookup_call (q : string) : ToolCall :=
  mkToolCall "item_lookup" (mkParams q None) "call_1".

(** A language model that requests the lookup tool on every call. *)
Definition always_tool : list Msg -> Op World Msg :=
  fun _ w =>
    (Return (mkMessage ai (TextContent "") (Some [lookup_call "oak table"]) None),
     mkWorld (catalog w) (S (calls w))).

(** A language model that answers at once. *)
Definition answers : list Msg -> Op World Msg :=
  fun _ w =>
    (Return (mkMessage ai (TextContent "We have an Oak Table.") None None),
     mkWorld (catalog w) (S (calls w))).

(** A language model that requests the lookup tool once, and answers
    on its second call. *)
Definition asks_once : list Msg -> Op World Msg :=
  fun msgs w =>
    match calls w with
    | O => always_tool msgs w
    | S _ => answers msgs w
    end.

Definition clock : World -> string := fun _ => "2025-01-01T00:00:00.000Z".

End Memory.

(** ** Total time slept *)

Definition total_sleep (tr : list Event) : Z :=
  fold_right Z.add 0 (sleeps tr).

(** ** Scripts

    Straight-line asynchronous code whose loops run over a list: a
    state-passing function on the world and a trace of its own events,
    with no fuel. *)

Section Script.

Context {E W : Type}.

Definition Script (A : Type) : Type :=
  W * list E -> Outcome A * (W * list E).

Definition sret {A} (a : A) : Script A := fun st => (Return a, st).

Definition sthrow {A} (t : Thrown) : Script A := fun st => (Throw t, st).

Definition sbind {A B} (c : Script A) (k : A -> Script B) : Script B :=
  fun st =>
    match c st with
    | (Return a, st1) => k a st1
    | (Throw t, st1) => (Throw t, st1)
    end.

(** [try { c } catch (error) { handler }] *)
Definition scatch {A} (c : Script A) (handler : Thrown -> Script A) : Script A :=
  fun st =>
    match c st with
    | (Return a, st1) => (Return a, st1)
    | (Throw t, st1) => handler t st1
    end.

(** [try { c } finally { f }]: [f] runs in every case, and its own
    exception replaces the outcome of [c]. *)
Definition sfinally {A} (c : Script A) (f : Script unit) : Script A :=
  fun st =>
    match c st with
    | (r, st1) =>
        match f st1 with
        | (Return _, st2) => (r, st2)
        | (Throw t, st2) => (Throw t, st2)
        end
    end.

(** [await op(...)], recorded as event [e]. *)
Definition scall {A} (e : E) (op : Op W A) : Script A :=
  fun st =>
    let (r, w1) := op (fst st) in
    (r, (w1, snd st ++ [e])).

(** A synchronous computation that may throw. *)
Definition slift {A} (r : Outcome A) : Script A := fun st => (r, st).

End Script.

Arguments Script E W A : clear implicits.

Declare Scope script_scope.
Delimit Scope script_scope with script.
Notation "x <- c ;; k" := (sbind c (fun x => k))
  (at level 100, c at next level, right associativity) : script_scope.
Notation "c ;;; k" := (sbind c (fun _ => k))
  (at level 100, right associativity) : script_scope.

(** [array.join(separator)] on strings. *)
Fixpoint join (separator : string) (l : list string) : string :=
  match l with
  | [] => ""
  | [x] => x
  | x :: rest => (x ++ separator ++ join separator rest)%string
  end.

(** [s] occurs in [t]. *)
Definition occurs (s t : string) : Prop :=
  exists before after, t = (before ++ s ++ after)%string.

(** ** seed-database.ts *)

Module Seed.

Section Items.

(** The numbers of an item (prices, ratings), with their rendering in
    a template literal. *)
Context {number : Type}.
Variable number_toString : number -> string.

(** [itemSchema] *)
Record Address := mkAddress {
  street : string;
  city : string;
  state : string;
  postal_code : string;
  country : string
}.

Record Prices := mkPrices {
  full_price : number;
  sale_price : number
}.

Record Review := mkReview {
  review_date : string;
  rating : number;
  comment : string
}.

Record Item := mkItem {
  item_id : string;
  item_name : string;
  item_description : string;
  brand : string;
  manufacturer_address : Address;
  prices : Prices;
  categories : list string;
  user_reviews : list Review;
  notes : string
}.

(** The text of one review in the summary. *)
Definition review_text (review : Review) : string :=
  ("Rated " ++ number_toString (rating review) ++ " on " ++ review_date review
   ++ ": " ++ comment review)%string.

(** [createItemSummary]; its promise always resolves. *)
Definition createItemSummary (item : Item) : string :=
  let manufacturerDetails :=
    ("Made in " ++ country (manufacturer_address item))%string in
  let categories := join ", " (categories item) in
  let userReviews := join " " (map review_text (user_reviews item)) in
  let basicInfo :=
    (item_name item ++ " " ++ item_description item
     ++ " from the brand " ++ brand item)%string in
  let price :=
    ("At full price it costs: " ++ number_toString (full_price (prices item))
     ++ " USD, On sale it costs: " ++ number_toString (sale_price (prices item))
     ++ " USD")%string in
  let notes := notes item in
  (basicInfo ++ ". Manufacturer: " ++ manufacturerDetails
   ++ ". Categories: " ++ categories
   ++ ". Reviews: " ++ userReviews
   ++ ". Price: " ++ price
   ++ ". Notes: " ++ notes)%string.

(** [{ pageContent, metadata: { ...item } }] *)
Record Document := mkDocument {
  pageContent : string;
  metadata : Item
}.

Definition to_document (item : Item) : Document :=
  mkDocument (createItemSummary item) item.

Inductive SeedEvent :=
| EvConnect                       (* client.connect() *)
| EvPing                          (* client.db("admin").command({ ping: 1 }) *)
| EvListCollections               (* db.listCollections({ name: "items" }).toArray() *)
| EvCreateCollection              (* db.createCollection("items") *)
| EvDropIndexes                   (* collection.dropIndexes() *)
| EvCreateSearchIndex             (* collection.createSearchIndex(vectorSearchIdx) *)
| EvDeleteMany                    (* collection.deleteMany({}) *)
| EvLlmInvoke (prompt : string)   (* llm.invoke(prompt) *)
| EvStore (record : Document)     (* MongoDBAtlasVectorSearch.fromDocuments([record], ...) *)
| EvClose.                        (* client.close() *)

Definition is_store (e : SeedEvent) : bool :=
  match e with EvStore _ => true | _ => false end.

Definition is_close (e : SeedEvent) : bool :=
  match e with EvClose => true | _ => false end.

(** The records handed to [fromDocuments], in order, whether the call
    succeeded or not. *)
Fixpoint store_calls (tr : list SeedEvent) : list Document :=
  match tr with
  | [] => []
  | EvStore record :: tr' => record :: store_calls tr'
  | _ :: tr' => store_calls tr'
  end.

Context {D : Type}.

(** The MongoDB client, the language model and its output parser.
    [parse] is [parser.parse], which rejects a text that does not fit
    the schema. *)
Record Backend := mkBackend {
  connect : Op D unit;
  ping : Op D unit;
  listCollections : Op D (list string);
  createCollection : Op D unit;
  dropIndexes : Op D unit;
  createSearchIndex : Op D unit;
  deleteMany : Op D unit;
  llm_invoke : string -> Op D string;
  getFormatInstructions : string;
  parse : string -> Outcome (list Item);
  fromDocuments : Document -> Op D unit;
  close : Op D unit
}.

Variable backend : Backend.

(** [setupDatabaseAndCollection] *)
Definition setupDatabaseAndCollection : Script SeedEvent D unit :=
  (collections <- scall EvListCollections (listCollections backend) ;;
   if Z.of_nat (length collections) =? 0
   then scall EvCreateCollection (createCollection backend)
   else sret tt)%script.

(** [createVectorSearchIndex]: its [catch] clause only logs. *)
Definition createVectorSearchIndex : Script SeedEvent D unit :=
  scatch
    (scall EvDropIndexes (dropIndexes backend) ;;;
     scall EvCreateSearchIndex (createSearchIndex backend))%script
    (fun _ => sret tt).

Definition generation_prompt : string :=
  ("You are a helpful assistant that generates furniture store item data. Generate 10 furniture store items. Each record should include the following fields: item_id, item_name, item_description, brand, manufacturer_address, prices, categories, user_reviews, notes. Ensure variety in the data and realistic values.
  " ++ getFormatInstructions backend)%string.

(** [generateData] *)
Definition generateData : Script SeedEvent D (list Item) :=
  (response <- scall (EvLlmInvoke generation_prompt)
                     (llm_invoke backend generation_prompt) ;;
   slift (parse backend response))%script.

(** [for (const record of recordsWithSummaries) { await fromDocuments([record], ...) }] *)
Fixpoint store_all (records : list Document) : Script SeedEvent D unit :=
  match records with
  | [] => sret tt
  | record :: rest =>
      (scall (EvStore record) (fromDocuments backend record) ;;;
       store_all rest)%script
  end.

(** The [try] block of [seedDatabase]. *)
Definition seed_steps : Script SeedEvent D unit :=
  (scall EvConnect (connect backend) ;;;
   scall EvPing (ping backend) ;;;
   setupDatabaseAndCollection ;;;
   createVectorSearchIndex ;;;
   scall EvDeleteMany (deleteMany backend) ;;;
   items <- generateData ;;
   let recordsWithSummaries := map to_document items in
   store_all recordsWithSummaries)%script.

(** [seedDatabase]: the [catch] clause logs and returns, the [finally]
    clause closes the client. *)
Definition seedDatabase : Script SeedEvent D unit :=
  sfinally
    (scatch seed_steps (fun _ => sret tt))
    (scall EvClose (close backend)).

Definition not_close (e : SeedEvent) : Prop := is_close e = false.

(** The database after [fromDocuments] has been called for [records],
    one after the other, from the database [d] on. *)
Fixpoint store_after (records : list Document) (d : D) : D :=
  match records with
  | [] => d
  | record :: rest => store_after rest (snd (fromDocuments backend record d))
  end.

(** A script that does not call [fromDocuments] and does not close the
    client. *)
Definition quiet {A} (c : Script SeedEvent D A) : Prop :=
  forall st,
    exists r d1 ev,
      c st = (r, (d1, snd st ++ ev))
      /\ store_calls ev = []
      /\ Forall not_close ev.

(** A script that calls [fromDocuments], if at all, for the first [k]
    documents of the generated items, right after it has cleared the
    collection and asked the model, from the database [d0] on.  The
    first [j] calls succeeded; either they are all the calls, made for
    all the items (or none was made), or the call after them failed
    and was the last. *)
Definition clears_then_stores {A} (c : Script SeedEvent D A) : Prop :=
  forall st,
    exists r d0 pre items k j,
      c st = (r, (store_after (firstn k (map to_document items)) d0,
                  snd st ++ pre
                    ++ map EvStore (firstn k (map to_document items))))
      /\ store_calls pre = []
      /\ Forall not_close pre
      /\ (k <= length items)%nat
      /\ (1 <= k ->
          exists pre' response,
            pre = pre' ++ [EvDeleteMany; EvLlmInvoke generation_prompt]
            /\ parse backend response = Return items)%nat
      /\ (forall i record,
            (i < j)%nat ->
            nth_error (map to_document items) i = Some record ->
            fst (fromDocuments backend record
                   (store_after (firstn i (map to_document items)) d0))
            = Return tt)
      /\ ((k = j /\ (k = 0%nat \/ k = length items))
          \/ (k = S j
              /\ exists t record,
                   r = Throw t
                   /\ nth_error (map to_document items) j = Some record
                   /\ fst (fromDocuments backend record
                             (store_after (firstn j (map to_document items)) d0))
                      = Throw t)).

End Items.

End Seed.

(** ** The HTTP endpoints (index.ts) *)

(** [number.toString()] of an integer. *)
Definition Number_toString (z : Z) : string :=
  NilZero.string_of_int (Z.to_int z).

Section Server.

Context {W Hit Doc : Type}.

(** [callAgent(client, message, threadId)], as imported by the server,
    and the clock read by [Date.now()]. *)
Variable agent : string -> string -> Async W (Content Hit Doc).
Variable date_now : W -> Z.

(** The objects given to [res.json]. *)
Inductive Body :=
| ChatStarted (threadId : string) (response : Content Hit Doc)  (* {threadId, response} *)
| ChatContinued (response : Content Hit Doc)                     (* {response} *)
| ErrorBody (error : string).                                    (* {error} *)

Record HttpResponse := mkHttpResponse {
  http_status : Z;
  body : Body
}.

Definition internal_server_error : HttpResponse :=
  mkHttpResponse 500 (ErrorBody "Internal Server Error").

(** [app.post("/chat", ...)] *)
Definition post_chat (message : string) : Async W HttpResponse :=
  fun s =>
    let threadId := Number_toString (date_now (world s)) in
    try_catch
      (response <- agent message threadId ;;
       ret (mkHttpResponse 200 (ChatStarted threadId response)))%async
      (fun _ => ret internal_server_error) s.

(** [app.post("/chat/:threadId", ...)] *)
Definition post_chat_thread (threadId message : string) : Async W HttpResponse :=
  try_catch
    (response <- agent message threadId ;;
     ret (mkHttpResponse 200 (ChatContinued response)))%async
    (fun _ => ret internal_server_error).

End Server.

Arguments Body Hit Doc : clear implicits.
Arguments HttpResponse Hit Doc : clear implicits.

(** ** scripts/start-all.js *)

Module StartAll.

Record Command := mkCommand {
  cmd : string;
  args : list string;
  cwd : string
}.

(** The fields of the result of [spawnSync] that [runSync] reads;
    [status] is [null] for a child that did not exit by itself. *)
Record SpawnSyncResult := mkResult {
  error : option Thrown;
  status : option Z
}.

Inductive ProcEvent :=
| EvRunSync (c : Command)                   (* spawnSync(cmd, args, {cwd, ...}) *)
| EvSpawn (prefix : string) (c : Command).  (* spawn(cmd, args, {cwd, ...}) *)

Definition is_spawn (e : ProcEvent) : bool :=
  match e with EvSpawn _ _ => true | _ => false end.

(** How a piece of the script ends: it goes on, it throws, or it
    leaves through [process.exit(code)]. *)
Inductive Step (A : Type) :=
| Continue (a : A)
| Raise (t : Thrown)
| Exit (code : Z).
Arguments Continue {A} a.
Arguments Raise {A} t.
Arguments Exit {A} code.

Section Launcher.

Context {P : Type}.

Variable spawnSync : Command -> Op P SpawnSyncResult.
Variable spawn : Command -> Op P unit.

(** [process.execPath] and the directories [abs()] and [abs('infra')]. *)
Variable execPath ROOT BACKEND : string.

Definition Proc (A : Type) : Type :=
  P * list ProcEvent -> Step A * (P * list ProcEvent).

Definition pbind {A B} (c : Proc A) (k : A -> Proc B) : Proc B :=
  fun st =>
    match c st with
    | (Continue a, st1) => k a st1
    | (Raise t, st1) => (Raise t, st1)
    | (Exit code, st1) => (Exit code, st1)
    end.

(** [try { c } catch (_) { handler }]: [process.exit] is not caught. *)
Definition ptry {A} (c : Proc A) (handler : Proc A) : Proc A :=
  fun st =>
    match c st with
    | (Raise _, st1) => handler st1
    | other => other
    end.

Definition pexit {A} (code : Z) : Proc A := fun st => (Exit code, st).

Definition pcontinue : Proc unit := fun st => (Continue tt, st).

(** [res.status || 1] *)
Definition status_or_1 (res : SpawnSyncResult) : Z :=
  match status res with
  | Some code => if code =? 0 then 1 else code
  | None => 1
  end.

(** [res.status !== 0] *)
Definition status_not_0 (res : SpawnSyncResult) : bool :=
  match status res with
  | Some code => negb (code =? 0)
  | None => true
  end.

(** [runSync] *)
Definition runSync (c : Command) : Proc unit :=
  fun st =>
    match spawnSync c (fst st) with
    | (Throw t, p1) => (Raise t, (p1, snd st ++ [EvRunSync c]))
    | (Return res, p1) =>
        let st1 := (p1, snd st ++ [EvRunSync c]) in
        match error res with
        | Some _ => (Exit (status_or_1 res), st1)
        | None =>
            if status_not_0 res then (Exit (status_or_1 res), st1)
            else (Continue tt, st1)
        end
    end.

(** [startProcess]; the child handle it returns is used by the signal
    handlers only. *)
Definition startProcess (prefix : string) (c : Command) : Proc unit :=
  fun st =>
    match spawn c (fst st) with
    | (Throw t, p1) => (Raise t, (p1, snd st ++ [EvSpawn prefix c]))
    | (Return _, p1) => (Continue tt, (p1, snd st ++ [EvSpawn prefix c]))
    end.

Definition node_version : Command := mkCommand execPath ["--version"] ROOT.
Definition npm_version : Command := mkCommand "npm" ["--version"] ROOT.
Definition install_frontend : Command := mkCommand "npm" ["install"] ROOT.
Definition install_backend : Command := mkCommand "npm" ["install"] BACKEND.
Definition run_seed : Command := mkCommand "npm" ["run"; "seed"] BACKEND.
Definition dev_backend : Command := mkCommand "npm" ["run"; "dev"] BACKEND.
Definition dev_frontend : Command := mkCommand "npm" ["run"; "dev"] ROOT.

(** The body of [main], up to the registration of the signal handlers. *)
Definition main : Proc unit :=
  ptry
    (pbind (ptry (runSync node_version) pcontinue) (fun _ =>
     pbind (ptry (runSync npm_version) (pexit 1)) (fun _ =>
     pbind (runSync install_frontend) (fun _ =>
     pbind (runSync install_backend) (fun _ =>
     pbind (runSync run_seed) (fun _ =>
     pbind (startProcess "backend" dev_backend) (fun _ =>
     startProcess "frontend" dev_frontend)))))))
    (pexit 1).

(** Everything a complete run does, in order. *)
Definition full_run : list ProcEvent :=
  [EvRunSync node_version; EvRunSync npm_version;
   EvRunSync install_frontend; EvRunSync install_backend; EvRunSync run_seed;
   EvSpawn "backend" dev_backend; EvSpawn "frontend" dev_frontend].

(** A piece of the script that does an initial part of [l], all of it
    when it goes on, and that leaves only with a code other than 0. *)
Definition runs_initial_part (c : Proc unit) (l : list ProcEvent) : Prop :=
  forall st,
    exists r p1 k,
      c st = (r, (p1, snd st ++ firstn k l))
      /\ (k <= length l)%nat
      /\ (l <> [] -> 1 <= k)%nat
      /\ (r = Continue tt -> k = length l)
      /\ (forall code, r = Exit code -> code <> 0).

End Launcher.

End StartAll.

(** ** Scripted collaborators for the seeding script and the launcher *)

Module Doubles.

Definition SeedItem : Type := @Seed.Item Z.
Definition SeedDocument : Type := @Seed.Document Z.

Definition oak_table : SeedItem :=
  Seed.mkItem "T-1" "Oak Table" "A solid oak dining table" "Nordwood"
    (Seed.mkAddress "1 Mill Road" "Portland" "OR" "97201" "USA")
    (Seed.mkPrices 500 399)
    ["tables"; "dining"]
    [Seed.mkReview "2024-05-01" 5 "Sturdy and beautiful"]
    "Ships flat".

Definition stool : SeedItem :=
  Seed.mkItem "S-2" "Bar Stool" "A tall stool" "Nordwood"
    (Seed.mkAddress "1 Mill Road" "Portland" "OR" "97201" "USA")
    (Seed.mkPrices 80 80) [] [] "".

(** A database that is the list of its stored documents; every
    operation succeeds, except storing the document of [reject]. *)
Definition seed_backend (answer : Outcome (list SeedItem)) (reject : string)
  : @Seed.Backend Z (list SeedDocument) :=
  Seed.mkBackend
    (fun d => (Return tt, d))
    (fun d => (Return tt, d))
    (fun d => (Return ["items"], d))
    (fun d => (Return tt, d))
    (fun d => (Return tt, d))
    (fun d => (Return tt, d))
    (fun _ => (Return tt, []))
    (fun _ d => (Return "[...]", d))
    "Return a JSON array."
    (fun _ => answer)
    (fun doc d =>
       if String.eqb (Seed.item_id (Seed.metadata doc)) reject
       then (Throw (ThrownError (new_Error "embedding failed")), d)
       else (Return tt, d ++ [doc]))
    (fun d => (Return tt, d)).

(** A machine on which the [n]-th synchronous command, counted from 0,
    exits with status [code], and every other command with status 0. *)
Definition fails_at (n : nat) (code : Z)
  : StartAll.Command -> Op nat StartAll.SpawnSyncResult :=
  fun _ k =>
    (Return (StartAll.mkResult None (Some (if (k =? n)%nat then code else 0))), S k).

Definition spawns : StartAll.Command -> Op nat unit :=
  fun _ k => (Return tt, k).

End Doubles.

(** * Properties *)

(** ** Traces *)

Lemma count_events_app (p : Event -> bool) (a b : list Event) :
  count_events p (a ++ b) = (count_events p a + count_events p b)%nat.
Proof.
  unfold count_events. now rewrite filter_app, length_app.
Qed.

Lemma sleeps_app (a b : list Event) : sleeps (a ++ b) = sleeps a ++ sleeps b.
Proof.
  induction a as [|e a IH]; simpl; [reflexivity|].
  destruct e; simpl; now rewrite IH.
Qed.

(** ** Numbers *)

Lemma number_leb_integer (a m : Z) : number_leb a (integer m) = (a <=? m).
Proof.
  unfold number_leb, integer, Qle_bool, inject_Z. cbn [Qnum Qden].
  now rewrite !Z.mul_1_r.
Qed.

Lemma number_ltb_integer (a m : Z) : number_ltb a (integer m) = (a <? m).
Proof.
  unfold number_ltb, integer, Qle_bool, inject_Z. cbn [Qnum Qden].
  now rewrite !Z.mul_1_r, Z.leb_antisym, negb_involutive.
Qed.

Lemma last_attempt_integer (m : Z) : last_attempt (integer m) = m.
Proof. unfold last_attempt, integer. apply Qfloor_Z. Qed.

Lemma is_whole_integer (m : Z) : is_whole (integer m) = true.
Proof.
  unfold is_whole, integer. rewrite Qfloor_Z. apply Qeq_bool_iff. reflexivity.
Qed.

Lemma inject_Z_le_floor (a : Z) (q : Q) :
  Qle (inject_Z a) q <-> a <= Qfloor q.
Proof.
  split; intros H.
  - apply Qfloor_resp_le in H. now rewrite Qfloor_Z in H.
  - apply Qle_trans with (inject_Z (Qfloor q)); [|apply Qfloor_le].
    now rewrite <- Zle_Qle.
Qed.

(** From 1 on, the attempt numbers [<= m] are those up to
    [Math.floor(m)]. *)
Lemma number_leb_floor (a : Z) (m : number) :
  1 <= a -> number_leb a m = (a <=? last_attempt m).
Proof.
  intros Ha. destruct m as [q|]; unfold number_leb, last_attempt.
  - apply eq_iff_eq_true. now rewrite Qle_bool_iff, Z.leb_le, inject_Z_le_floor.
  - symmetry. apply Z.leb_gt. lia.
Qed.

(** From 1 on, the attempt numbers [< m] are those below
    [Math.floor(m)], and [Math.floor(m)] itself when [m] is not whole. *)
Lemma number_ltb_floor (a : Z) (m : number) :
  1 <= a ->
  number_ltb a m
  = (a <? last_attempt m) || ((a =? last_attempt m) && negb (is_whole m)).
Proof.
  intros Ha. destruct m as [q|]; unfold number_ltb, last_attempt, is_whole.
  2:{ symmetry. apply orb_false_iff. split; [apply Z.ltb_ge; lia|].
      apply andb_false_iff. left. apply Z.eqb_neq. lia. }
  destruct (Z.lt_trichotomy a (Qfloor q)) as [Hlt|[Heq|Hgt]].
  - destruct (Z.ltb_spec a (Qfloor q)); [|lia]. cbn [orb].
    destruct (Qle_bool q (inject_Z a)) eqn:Hle; [|reflexivity].
    apply Qle_bool_iff, Qfloor_resp_le in Hle. rewrite Qfloor_Z in Hle. lia.
  - subst a. rewrite Z.ltb_irrefl, Z.eqb_refl. cbn [orb andb]. f_equal.
    apply eq_iff_eq_true. rewrite Qle_bool_iff, Qeq_bool_iff. split.
    + intros Hle. apply Qle_antisym; [exact Hle|apply Qfloor_le].
    + intros Heq. rewrite <- Heq. apply Qle_refl.
  - destruct (Z.ltb_spec a (Qfloor q)); [lia|].
    destruct (Z.eqb_spec a (Qfloor q)); [lia|]. cbn [orb andb].
    apply negb_false_iff, Qle_bool_iff.
    apply Qle_trans with (inject_Z (Qfloor q + 1)).
    + apply Qlt_le_weak, Qlt_floor.
    + rewrite <- Zle_Qle. lia.
Qed.

Lemma number_ltb_leb (a : Z) (m : number) :
  number_ltb a m = true -> number_leb a m = true.
Proof.
  destruct m as [q|]; unfold number_ltb, number_leb; [|discriminate].
  intros H. apply negb_true_iff in H. apply Qle_bool_iff.
  destruct (Qlt_le_dec (inject_Z a) q) as [Hlt|Hle].
  - now apply Qlt_le_weak.
  - apply Qle_bool_iff in Hle. congruence.
Qed.

(** A value that has a status can be read. *)
Lemma status_is_reading (e : Thrown) (code : Z) (property : string) :
  status_is e code = true -> reading e property = None.
Proof. destruct e; [reflexivity|reflexivity|discriminate]. Qed.

(** ** retryWithBackoff *)

Section RetryLoop.

Context {W T : Type}.
Variable fn : Op W T.
Variable maxRetries : number.

Lemma retry_from_step (fuel : nat) (attempt : Z) (s : St W) :
  retry_from fn maxRetries (S fuel) attempt s
  = if number_leb attempt maxRetries then
      match fn (world s) with
      | (Return v, w1) => Some (Returned v, mkSt w1 (trace s ++ [EvInvoke]))
      | (Throw error, w1) =>
          match reading error "status" with
          | Some typeError =>
              Some (CatchFailed typeError, mkSt w1 (trace s ++ [EvInvoke]))
          | None =>
              if status_is error 429 && number_ltb attempt maxRetries then
                retry_from fn maxRetries fuel (attempt + 1)
                  (log (EvSleep (backoff_delay attempt))
                       (mkSt w1 (trace s ++ [EvInvoke])))
              else Some (Rethrown error, mkSt w1 (trace s ++ [EvInvoke]))
          end
      end
    else Some (LoopExit, s).
Proof. reflexivity. Qed.

Lemma world_after_succ (i : nat) (w : W) :
  world_after fn (S i) w = snd (fn (world_after fn i w)).
Proof.
  revert w. induction i as [|i IH]; intros w; [reflexivity|].
  change (world_after fn (S (S i)) w) with (world_after fn (S i) (snd (fn w))).
  now rewrite IH.
Qed.

Lemma nth_outcome_shift (i : nat) (w : W) :
  nth_outcome fn (S i) w = nth_outcome fn i (snd (fn w)).
Proof. reflexivity. Qed.

(** A rate-limited attempt with attempts left sleeps and goes round
    the loop again. *)
Lemma retry_from_again (fuel : nat) (attempt : Z) (w : W) (tr : list Event) (e : Thrown) :
  number_ltb attempt maxRetries = true ->
  fst (fn w) = Throw e ->
  status_is e 429 = true ->
  retry_from fn maxRetries (S fuel) attempt (mkSt w tr)
  = retry_from fn maxRetries fuel (attempt + 1)
      (mkSt (snd (fn w)) (tr ++ [EvInvoke; EvSleep (backoff_delay attempt)])).
Proof.
  intros Hlt Hfn H429. rewrite retry_from_step, (number_ltb_leb _ _ Hlt).
  cbn [world trace]. destruct (fn w) as [r w1]. cbn [fst snd] in *. subst r.
  rewrite (status_is_reading e 429 "status" H429), H429, Hlt. cbn [andb].
  unfold log. cbn [world trace]. now rewrite <- app_assoc.
Qed.

(** [k] rate-limited attempts in a row, all with attempts left. *)
Lemma retry_from_many (k fuel : nat) :
  forall (attempt : Z) (w : W) (tr : list Event),
    (forall i, (i < k)%nat -> number_ltb (attempt + Z.of_nat i) maxRetries = true) ->
    (forall i, (i < k)%nat ->
       exists e, nth_outcome fn i w = Throw e /\ status_is e 429 = true) ->
    retry_from fn maxRetries (k + fuel) attempt (mkSt w tr)
    = retry_from fn maxRetries fuel (attempt + Z.of_nat k)
        (mkSt (world_after fn k w) (tr ++ backoff_rounds k attempt)).
Proof.
  induction k as [|k IH]; intros attempt w tr Hlt Hfail.
  - cbn [Nat.add world_after backoff_rounds Z.of_nat].
    now rewrite Z.add_0_r, app_nil_r.
  - destruct (Hfail 0%nat ltac:(lia)) as (e & He & H429).
    change (S k + fuel)%nat with (S (k + fuel)).
    rewrite (retry_from_again _ _ _ _ e); [|idtac|exact He|exact H429].
    2:{ specialize (Hlt 0%nat ltac:(lia)). now rewrite Z.add_0_r in Hlt. }
    rewrite IH.
    + cbn [backoff_rounds world_after]. rewrite <- app_assoc.
      cbn [app].
      now replace (attempt + 1 + Z.of_nat k) with (attempt + Z.of_nat (S k)) by lia.
    + intros i Hi. specialize (Hlt (S i) ltac:(lia)).
      now replace (attempt + 1 + Z.of_nat i) with (attempt + Z.of_nat (S i)) by lia.
    + intros i Hi. rewrite <- nth_outcome_shift. apply Hfail. lia.
Qed.

(** An attempt that ends the run. *)
Lemma retry_from_last (fuel : nat) (attempt : Z) (w : W) (tr : list Event) :
  number_leb attempt maxRetries = true ->
  (forall e, fst (fn w) = Throw e -> status_is e 429 = true ->
     number_ltb attempt maxRetries = false) ->
  retry_from fn maxRetries (S fuel) attempt (mkSt w tr)
  = Some (attempt_exit (fst (fn w)), mkSt (snd (fn w)) (tr ++ [EvInvoke])).
Proof.
  intros Hle Hlast. rewrite retry_from_step, Hle. cbn [world trace].
  destruct (fn w) as [[v|e] w1]; cbn [fst snd attempt_exit] in *; [reflexivity|].
  destruct (reading e "status"); [reflexivity|].
  destruct (status_is e 429) eqn:H429; [|reflexivity].
  now rewrite (Hlast e eq_refl H429).
Qed.

(** Whatever the loop does, it only appends invocations and sleeps. *)
Lemma retry_from_trace (fuel : nat) :
  forall (attempt : Z) (s : St W) (x : RetryExit T) (s' : St W),
    retry_from fn maxRetries fuel attempt s = Some (x, s') ->
    exists new, trace s' = trace s ++ new /\ Forall retry_event new.
Proof.
  induction fuel as [|fuel IH]; intros attempt s x s' Hrun; [discriminate|].
  rewrite retry_from_step in Hrun. destruct (number_leb attempt maxRetries).
  - destruct (fn (world s)) as [[v|e] w1].
    + injection Hrun as <- <-. exists [EvInvoke]. split; [reflexivity|].
      repeat constructor.
    + destruct (reading e "status").
      { injection Hrun as <- <-. exists [EvInvoke]. split; [reflexivity|].
        repeat constructor. }
      destruct (status_is e 429 && number_ltb attempt maxRetries).
      * apply IH in Hrun. destruct Hrun as (new & Htr & Hnew).
        exists (EvInvoke :: EvSleep (backoff_delay attempt) :: new).
        split; [rewrite Htr; cbn [log trace]; now rewrite <- !app_assoc|].
        constructor; [now left|]. constructor; [right; eauto|assumption].
      * injection Hrun as <- <-. exists [EvInvoke]. split; [reflexivity|].
        repeat constructor.
  - injection Hrun as <- <-. exists []. split; [now rewrite app_nil_r|constructor].
Qed.

(** A value returned by the retrier was returned by the operation. *)
Lemma retry_from_returned (fuel : nat) :
  forall (attempt : Z) (s : St W) (v : T) (s' : St W),
    retry_from fn maxRetries fuel attempt s = Some (Returned v, s') ->
    exists w, fst (fn w) = Return v.
Proof.
  induction fuel as [|fuel IH]; intros attempt s v s' Hrun; [discriminate|].
  rewrite retry_from_step in Hrun.
  destruct (number_leb attempt maxRetries); [|discriminate].
  destruct (fn (world s)) as [[v1|e] w1] eqn:Hfn.
  - injection Hrun as <- _. exists (world s). now rewrite Hfn.
  - destruct (reading e "status"); [discriminate|].
    destruct (status_is e 429 && number_ltb attempt maxRetries); [|discriminate].
    eapply IH; eassumption.
Qed.

Lemma retryWithBackoff_returned (s : St W) (v : T) (s' : St W) :
  retryWithBackoff fn maxRetries s = Some (Return v, s') ->
  exists w, fst (fn w) = Return v.
Proof.
  unfold retryWithBackoff, retry_exit.
  destruct (retry_from fn maxRetries (S (Z.to_nat (last_attempt maxRetries))) 1 s)
    as [[x s1]|] eqn:Hrun; [|discriminate].
  destruct x as [v1|e| |e]; cbn [exit_outcome]; intros H; try discriminate.
  injection H as <- _. eapply retry_from_returned; eassumption.
Qed.

(** The loop always comes to an end: the fuel is enough. *)
Lemma retry_from_total (fuel : nat) :
  forall (attempt : Z) (s : St W),
    1 <= attempt ->
    (Z.to_nat (last_attempt maxRetries + 1 - attempt) < fuel)%nat ->
    exists x s', retry_from fn maxRetries fuel attempt s = Some (x, s').
Proof.
  induction fuel as [|fuel IH]; intros attempt s Hpos Hfuel; [lia|].
  rewrite retry_from_step, (number_leb_floor _ _ Hpos).
  destruct (Z.leb_spec attempt (last_attempt maxRetries)); [|eauto].
  destruct (fn (world s)) as [[v|e] w1]; [eauto|].
  destruct (reading e "status"); [eauto|].
  destruct (status_is e 429 && number_ltb attempt maxRetries); [|eauto].
  apply IH; lia.
Qed.

Lemma retry_exit_total (s : St W) :
  exists x s', retry_exit fn maxRetries s = Some (x, s').
Proof. apply retry_from_total; lia. Qed.

Lemma retryWithBackoff_total (s : St W) :
  exists r s', retryWithBackoff fn maxRetries s = Some (r, s').
Proof.
  destruct (retry_exit_total s) as (x & s' & Hrun).
  exists (exit_outcome x), s'. unfold retryWithBackoff. now rewrite Hrun.
Qed.

Lemma retryWithBackoff_trace (s : St W) (r : Outcome T) (s' : St W) :
  retryWithBackoff fn maxRetries s = Some (r, s') ->
  exists new, trace s' = trace s ++ new /\ Forall retry_event new.
Proof.
  unfold retryWithBackoff, retry_exit.
  destruct (retry_from fn maxRetries (S (Z.to_nat (last_attempt maxRetries))) 1 s)
    as [[x s1]|] eqn:Hrun; [|discriminate].
  intros H. injection H as _ <-. eapply retry_from_trace; eauto.
Qed.

(** Without an attempt number [<= maxRetries] the operation is not
    invoked. *)
Lemma retry_exit_none (s : St W) :
  number_leb 1 maxRetries = false ->
  retry_exit fn maxRetries s = Some (LoopExit, s).
Proof. intros Hno. unfold retry_exit. now rewrite retry_from_step, Hno. Qed.

(** A run of the loop from [attempt] made [k] rate-limited attempts,
    each followed by its sleep; then either the next attempt ended it,
    or there was no next attempt. *)
Lemma retry_from_shape (fuel : nat) :
  forall (attempt : Z) (s : St W) (x : RetryExit T) (s' : St W),
    1 <= attempt ->
    retry_from fn maxRetries fuel attempt s = Some (x, s') ->
    exists k : nat,
      (forall i, (i < k)%nat ->
         exists e, nth_outcome fn i (world s) = Throw e
                   /\ status_is e 429 = true)
      /\ ((attempt + Z.of_nat k <= last_attempt maxRetries
           /\ x = attempt_exit (nth_outcome fn k (world s))
           /\ (forall e, nth_outcome fn k (world s) = Throw e ->
                 status_is e 429 = true ->
                 attempt + Z.of_nat k = last_attempt maxRetries
                 /\ is_whole maxRetries = true)
           /\ trace s' = trace s ++ backoff_rounds k attempt ++ [EvInvoke]
           /\ world s' = world_after fn (S k) (world s))
          \/ (last_attempt maxRetries < attempt + Z.of_nat k
              /\ x = LoopExit
              /\ ((1 <= k)%nat ->
                  attempt + Z.of_nat k = last_attempt maxRetries + 1
                  /\ is_whole maxRetries = false)
              /\ trace s' = trace s ++ backoff_rounds k attempt
              /\ world s' = world_after fn k (world s))).
Proof.
  induction fuel as [|fuel IH]; intros attempt s x s' Hpos Hrun; [discriminate|].
  rewrite retry_from_step, (number_leb_floor _ _ Hpos) in Hrun.
  destruct (Z.leb_spec attempt (last_attempt maxRetries)) as [Hle|Hgt].
  2:{ injection Hrun as <- <-. exists 0%nat. split; [intros i Hi; lia|]. right.
      cbn [backoff_rounds world_after]. rewrite app_nil_r.
      repeat split; try lia. }
  assert (Hstop : forall r,
             x = attempt_exit (fst (fn (world s))) ->
             s' = mkSt (snd (fn (world s))) (trace s ++ [EvInvoke]) ->
             (forall e, fst (fn (world s)) = Throw e -> status_is e 429 = true ->
                attempt = last_attempt maxRetries /\ is_whole maxRetries = true) ->
             r = tt ->
             exists k : nat,
               (forall i, (i < k)%nat ->
                  exists e, nth_outcome fn i (world s) = Throw e
                            /\ status_is e 429 = true)
               /\ ((attempt + Z.of_nat k <= last_attempt maxRetries
                    /\ x = attempt_exit (nth_outcome fn k (world s))
                    /\ (forall e, nth_outcome fn k (world s) = Throw e ->
                          status_is e 429 = true ->
                          attempt + Z.of_nat k = last_attempt maxRetries
                          /\ is_whole maxRetries = true)
                    /\ trace s' = trace s ++ backoff_rounds k attempt ++ [EvInvoke]
                    /\ world s' = world_after fn (S k) (world s))
                   \/ (last_attempt maxRetries < attempt + Z.of_nat k
                       /\ x = LoopExit
                       /\ ((1 <= k)%nat ->
                           attempt + Z.of_nat k = last_attempt maxRetries + 1
                           /\ is_whole maxRetries = false)
                       /\ trace s' = trace s ++ backoff_rounds k attempt
                       /\ world s' = world_after fn k (world s)))).
  { intros _ -> -> Hlast _. exists 0%nat. split; [intros i Hi; lia|]. left.
    unfold nth_outcome. cbn [world_after backoff_rounds app world trace].
    rewrite Z.add_0_r. split; [lia|]. split; [reflexivity|].
    split; [exact Hlast|]. split; reflexivity. }
  destruct (fn (world s)) as [[v|e] w1] eqn:Hfn.
  { injection Hrun as <- <-. apply (Hstop tt); try reflexivity.
    intros e' He'. discriminate. }
  destruct (reading e "status") as [typeError|] eqn:Hread.
  { injection Hrun as <- <-. apply (Hstop tt); try reflexivity.
    - cbn [fst attempt_exit]. now rewrite Hread.
    - intros e' He' H429. cbn [fst] in He'. injection He' as <-.
      rewrite (status_is_reading e 429 "status" H429) in Hread. discriminate. }
  destruct (status_is e 429) eqn:H429; cbn [andb] in Hrun.
  2:{ injection Hrun as <- <-. apply (Hstop tt); try reflexivity.
      - cbn [fst attempt_exit]. now rewrite Hread.
      - intros e' He' H429'. cbn [fst] in He'. injection He' as <-. congruence. }
  rewrite (number_ltb_floor _ _ Hpos) in Hrun.
  destruct (Z.ltb_spec attempt (last_attempt maxRetries)) as [Hlt|Hge];
    cbn [orb] in Hrun.
  2:{ assert (Heq : attempt = last_attempt maxRetries) by lia.
      rewrite <- Heq, Z.eqb_refl in Hrun. cbn [andb] in Hrun.
      destruct (is_whole maxRetries) eqn:Hwhole; cbn [negb] in Hrun.
      - injection Hrun as <- <-. apply (Hstop tt); try reflexivity.
        + cbn [fst attempt_exit]. now rewrite Hread.
        + intros e' He' _. now split.
      - apply IH in Hrun; [|lia].
        destruct Hrun as (k & Hfail & [(Hk & _)|(Hk & -> & Hexit & Htr & Hw)]);
          [lia|].
        cbn [log world trace] in Hfail, Htr, Hw.
        exists (S k). split.
        { intros i Hi. destruct i as [|i].
          - exists e. unfold nth_outcome. cbn [world_after]. now rewrite Hfn.
          - rewrite nth_outcome_shift, Hfn. apply Hfail. lia. }
        right. split; [lia|]. split; [reflexivity|]. split.
        { intros _. destruct k as [|k]; [split; [lia|reflexivity]|].
          destruct (Hexit ltac:(lia)). lia. }
        split.
        + rewrite Htr. cbn [backoff_rounds]. now rewrite <- !app_assoc.
        + rewrite Hw. cbn [world_after]. now rewrite Hfn. }
  apply IH in Hrun; [|lia].
  destruct Hrun as (k & Hfail & Hend).
  cbn [log world trace] in Hfail, Hend.
  exists (S k). split.
  { intros i Hi. destruct i as [|i].
    - exists e. unfold nth_outcome. cbn [world_after]. now rewrite Hfn.
    - rewrite nth_outcome_shift, Hfn. apply Hfail. lia. }
  destruct Hend as [(Hk & -> & Hlast & Htr & Hw)|(Hk & -> & Hexit & Htr & Hw)].
  - left. split; [lia|]. split; [now rewrite nth_outcome_shift, Hfn|]. split.
    { intros e' He' H429'. rewrite nth_outcome_shift, Hfn in He'.
      destruct (Hlast e' He' H429'). split; [lia|assumption]. }
    split.
    + rewrite Htr. cbn [backoff_rounds]. now rewrite <- !app_assoc.
    + rewrite Hw. cbn [world_after]. now rewrite Hfn.
  - right. split; [lia|]. split; [reflexivity|]. split.
    { intros _. destruct k as [|k]; [lia|].
      destruct (Hexit ltac:(lia)). split; [lia|assumption]. }
    split.
    + rewrite Htr. cbn [backoff_rounds]. now rewrite <- !app_assoc.
    + rewrite Hw. cbn [world_after]. now rewrite Hfn.
Qed.

End RetryLoop.

(** An attempt never ends the run through the [throw] after the loop. *)
Lemma attempt_exit_decides {T : Type} (o : Outcome T) : attempt_exit o <> LoopExit.
Proof.
  destruct o as [v|e]; cbn [attempt_exit]; [discriminate|].
  destruct (reading e "status"); discriminate.
Qed.

Section RetryFacts.

Context {W T : Type}.
Variable fn : Op W T.
Variable maxRetries : Z.

Lemma retry_from_return (fuel : nat) (attempt : Z) (w w1 : W) (tr : list Event) (v : T) :
  attempt <= maxRetries ->
  fn w = (Return v, w1) ->
  retry_from fn maxRetries (S fuel) attempt (mkSt w tr)
  = Some (Returned v, mkSt w1 (tr ++ [EvInvoke])).
Proof.
  intros Hle Hfn. rewrite retry_from_last.
  - now rewrite Hfn.
  - rewrite number_leb_integer. now apply Z.leb_le.
  - intros e He. rewrite Hfn in He. discriminate.
Qed.

Lemma retry_from_rethrow (fuel : nat) (attempt : Z) (w w1 : W) (tr : list Event) (e : Thrown) :
  attempt <= maxRetries ->
  fn w = (Throw e, w1) ->
  reading e "status" = None ->
  status_is e 429 && (attempt <? maxRetries) = false ->
  retry_from fn maxRetries (S fuel) attempt (mkSt w tr)
  = Some (Rethrown e, mkSt w1 (tr ++ [EvInvoke])).
Proof.
  intros Hle Hfn Hread Hno. rewrite retry_from_last.
  - rewrite Hfn. cbn [fst snd attempt_exit]. now rewrite Hread.
  - rewrite number_leb_integer. now apply Z.leb_le.
  - intros e' He' H429. rewrite Hfn in He'. injection He' as <-.
    rewrite H429 in Hno. now rewrite number_ltb_integer.
Qed.

(** [k] rate-limited attempts in a row, all with attempts left. *)
Lemma retry_from_rounds (k fuel : nat) :
  forall (attempt : Z) (w : W) (tr : list Event),
    attempt + Z.of_nat k <= maxRetries ->
    (forall i, (i < k)%nat ->
       exists e, nth_outcome fn i w = Throw e /\ status_is e 429 = true) ->
    retry_from fn maxRetries (k + fuel) attempt (mkSt w tr)
    = retry_from fn maxRetries fuel (attempt + Z.of_nat k)
        (mkSt (world_after fn k w) (tr ++ backoff_rounds k attempt)).
Proof.
  intros attempt w tr Hle Hfail. apply retry_from_many; [|exact Hfail].
  intros i Hi. rewrite number_ltb_integer. apply Z.ltb_lt. lia.
Qed.

Lemma count_invoke_rounds (k : nat) (attempt : Z) :
  count_events is_invoke (backoff_rounds k attempt) = k.
Proof.
  revert attempt. induction k as [|k IH]; intros attempt; [reflexivity|].
  simpl. unfold count_events in *. simpl. now rewrite IH.
Qed.

Lemma sleeps_rounds (k : nat) (attempt : Z) :
  sleeps (backoff_rounds k attempt)
  = map (fun i => backoff_delay (attempt + Z.of_nat i)) (seq 0 k).
Proof.
  revert attempt. induction k as [|k IH]; intros attempt; [reflexivity|].
  simpl. rewrite IH, Z.add_0_r. f_equal.
  rewrite <- seq_shift, map_map. apply map_ext. intros i. f_equal. lia.
Qed.

Lemma backoff_delay_mono (a b : Z) : a <= b -> backoff_delay a <= backoff_delay b.
Proof.
  intros Hab. unfold backoff_delay.
  assert (2 ^ a <= 2 ^ b) by (apply Z.pow_le_mono_r; lia).
  lia.
Qed.

Lemma backoff_delay_cap (a : Z) : backoff_delay a <= 30000.
Proof. unfold backoff_delay. lia. Qed.

Lemma sleeps_rounds_sorted (k : nat) (attempt : Z) :
  StronglySorted Z.le (sleeps (backoff_rounds k attempt)).
Proof.
  revert attempt. induction k as [|k IH]; intros attempt; simpl.
  - constructor.
  - constructor; [apply IH|].
    rewrite sleeps_rounds. apply Forall_forall. intros d Hd.
    apply in_map_iff in Hd. destruct Hd as (i & <- & _).
    apply backoff_delay_mono. lia.
Qed.

Lemma sleeps_rounds_capped (k : nat) (attempt : Z) :
  Forall (fun d => d <= 30000) (sleeps (backoff_rounds k attempt)).
Proof.
  rewrite sleeps_rounds. apply Forall_forall. intros d Hd.
  apply in_map_iff in Hd. destruct Hd as (i & <- & _).
  apply backoff_delay_cap.
Qed.

Lemma retry_exit_integer (s : St W) :
  retry_exit fn maxRetries s = retry_from fn maxRetries (S (Z.to_nat maxRetries)) 1 s.
Proof. unfold retry_exit. now rewrite last_attempt_integer. Qed.

End RetryFacts.

(** C7.  An operation that is rate-limited (status 429) on exactly its
    first [k] attempts, [k < maxRetries], and then succeeds: the retrier
    returns the success value after [k + 1] invocations and exactly [k]
    sleeps, one before each retry; the sleep after attempt [i]
    (counted from 1) lasts [min (1000 * 2^i) 30000] milliseconds, so
    the delays are non-decreasing and capped at 30000. *)
Theorem retry_succeeds_after_rate_limits
  {W T : Type} (fn : Op W T) (maxRetries : Z) (k : nat) (v : T)
  (w : W) (tr : list Event) :
  Z.of_nat k < maxRetries ->
  (forall i, (i < k)%nat ->
     exists e, nth_outcome fn i w = Throw e /\ status_is e 429 = true) ->
  nth_outcome fn k w = Return v ->
  exists new,
    retryWithBackoff fn maxRetries (mkSt w tr)
    = Some (Return v, mkSt (world_after fn (S k) w) (tr ++ new))
    /\ new = backoff_rounds k 1 ++ [EvInvoke]
    /\ count_events is_invoke new = S k
    /\ length (sleeps new) = k
    /\ sleeps new = map (fun i => Z.min (1000 * 2 ^ Z.of_nat i) 30000) (seq 1 k)
    /\ StronglySorted Z.le (sleeps new)
    /\ Forall (fun d => d <= 30000) (sleeps new).
Proof.
  intros Hk Hfail Hok.
  exists (backoff_rounds k 1 ++ [EvInvoke]).
  assert (Hsleeps : sleeps (backoff_rounds k 1 ++ [EvInvoke])
                    = sleeps (backoff_rounds k 1))
    by (rewrite sleeps_app; simpl; apply app_nil_r).
  rewrite Hsleeps.
  split; [|split; [reflexivity|split; [|split; [|split; [|split]]]]].
  - unfold retryWithBackoff. rewrite retry_exit_integer.
    replace (S (Z.to_nat maxRetries))
      with (k + S (Z.to_nat maxRetries - k))%nat by lia.
    rewrite retry_from_rounds by (lia || assumption).
    unfold nth_outcome in Hok.
    destruct (fn (world_after fn k w)) as [r w1] eqn:Hfn.
    simpl in Hok. subst r.
    rewrite (retry_from_return fn maxRetries _ _ _ w1 _ v) by (lia || assumption).
    rewrite world_after_succ, Hfn, app_assoc. reflexivity.
  - rewrite count_events_app, count_invoke_rounds. unfold count_events. simpl. lia.
  - rewrite sleeps_rounds, length_map, length_seq. reflexivity.
  - rewrite sleeps_rounds, <- seq_shift, map_map. apply map_ext.
    intros i. unfold backoff_delay. do 3 f_equal. lia.
  - apply sleeps_rounds_sorted.
  - apply sleeps_rounds_capped.
Qed.

Lemma retry_succeeds_after_rate_limits_witness :
  exists new,
    retryWithBackoff (Memory.flaky 2) 3 (mkSt 0%nat [])
    = Some (Return 42, mkSt (world_after (Memory.flaky 2) 3 0%nat) ([] ++ new))
    /\ new = backoff_rounds 2 1 ++ [EvInvoke]
    /\ count_events is_invoke new = 3%nat
    /\ length (sleeps new) = 2%nat
    /\ sleeps new = map (fun i => Z.min (1000 * 2 ^ Z.of_nat i) 30000) (seq 1 2)
    /\ StronglySorted Z.le (sleeps new)
    /\ Forall (fun d => d <= 30000) (sleeps new).
Proof.
  apply (retry_succeeds_after_rate_limits (Memory.flaky 2) 3 2 42 0%nat []).
  - lia.
  - intros i Hi. exists Memory.quota_exceeded.
    destruct i as [|[|i]]; [split; reflexivity|split; reflexivity|lia].
  - reflexivity.
Defined.

(** C1, as the code has it.  An operation that is rate-limited
    (status 429) on every one of [maxRetries >= 1] attempts: the
    retrier makes exactly [maxRetries] invocations, sleeps between
    them, and leaves through the [throw error] of its [catch] clause,
    so that it fails with the last underlying failure itself. *)
Theorem retry_exhausted_rethrows_last
  {W T : Type} (fn : Op W T) (maxRetries : Z) (w : W) (tr : list Event) :
  1 <= maxRetries ->
  (forall i, Z.of_nat i < maxRetries ->
     exists e, nth_outcome fn i w = Throw e /\ status_is e 429 = true) ->
  exists last new,
    nth_outcome fn (Z.to_nat maxRetries - 1) w = Throw last
    /\ retry_exit fn maxRetries (mkSt w tr)
       = Some (Rethrown last,
               mkSt (world_after fn (Z.to_nat maxRetries) w) (tr ++ new))
    /\ retryWithBackoff fn maxRetries (mkSt w tr)
       = Some (Throw last,
               mkSt (world_after fn (Z.to_nat maxRetries) w) (tr ++ new))
    /\ new = backoff_rounds (Z.to_nat maxRetries - 1) 1 ++ [EvInvoke]
    /\ count_events is_invoke new = Z.to_nat maxRetries
    /\ Z.of_nat (length (sleeps new)) = maxRetries - 1.
Proof.
  intros Hge Hfail.
  set (k := (Z.to_nat maxRetries - 1)%nat).
  assert (Hk : Z.to_nat maxRetries = S k) by (unfold k; lia).
  clearbody k.
  destruct (Hfail k ltac:(lia)) as (last & Hlast & H429).
  exists last, (backoff_rounds k 1 ++ [EvInvoke]).
  assert (Hexit : retry_exit fn maxRetries (mkSt w tr)
                  = Some (Rethrown last,
                          mkSt (world_after fn (Z.to_nat maxRetries) w)
                               (tr ++ backoff_rounds k 1 ++ [EvInvoke]))).
  { rewrite retry_exit_integer.
    replace (S (Z.to_nat maxRetries)) with (k + 2)%nat by lia.
    rewrite retry_from_rounds; [|lia|intros i Hi; apply Hfail; lia].
    unfold nth_outcome in Hlast.
    destruct (fn (world_after fn k w)) as [r w1] eqn:Hfn.
    simpl in Hlast. subst r.
    rewrite (retry_from_rethrow fn maxRetries _ _ _ w1 _ last).
    - replace (Z.to_nat maxRetries) with (S k) by lia.
      rewrite world_after_succ, Hfn, app_assoc. reflexivity.
    - lia.
    - assumption.
    - exact (status_is_reading last 429 "status" H429).
    - rewrite H429, andb_true_l. apply Z.ltb_ge. lia. }
  split; [exact Hlast|]. split; [exact Hexit|].
  split; [unfold retryWithBackoff; now rewrite Hexit|].
  split; [reflexivity|]. split.
  - rewrite count_events_app, count_invoke_rounds. unfold count_events. simpl. lia.
  - rewrite sleeps_app, length_app, sleeps_rounds, length_map, length_seq.
    simpl. lia.
Qed.

Lemma retry_exhausted_rethrows_last_witness :
  exists last new,
    nth_outcome Memory.always_429 (Z.to_nat 3 - 1) 0%nat = Throw last
    /\ retry_exit Memory.always_429 3 (mkSt 0%nat [])
       = Some (Rethrown last,
               mkSt (world_after Memory.always_429 (Z.to_nat 3) 0%nat) ([] ++ new))
    /\ retryWithBackoff Memory.always_429 3 (mkSt 0%nat [])
       = Some (Throw last,
               mkSt (world_after Memory.always_429 (Z.to_nat 3) 0%nat) ([] ++ new))
    /\ new = backoff_rounds (Z.to_nat 3 - 1) 1 ++ [EvInvoke]
    /\ count_events is_invoke new = Z.to_nat 3
    /\ Z.of_nat (length (sleeps new)) = 3 - 1.
Proof.
  apply (retry_exhausted_rethrows_last Memory.always_429 3 0%nat []).
  - lia.
  - intros i _. exists Memory.quota_exceeded. split; reflexivity.
Defined.

(** C1 as stated fails: after three rate-limited attempts out of three
    the retrier throws the underlying failure itself, status 429
    included; no other error that would wrap it is thrown. *)
Lemma retry_exhausted_is_not_wrapped :
  (forall i, (i < 3)%nat ->
     nth_outcome Memory.always_429 i 0%nat = Throw Memory.quota_exceeded)
  /\ retryWithBackoff Memory.always_429 3 (mkSt 0%nat [])
     = Some (Throw Memory.quota_exceeded,
             mkSt 3%nat [EvInvoke; EvSleep 2000; EvInvoke; EvSleep 4000; EvInvoke])
  /\ ~ (exists wrapper s',
          retryWithBackoff Memory.always_429 3 (mkSt 0%nat [])
          = Some (Throw wrapper, s')
          /\ wrapper <> Memory.quota_exceeded).
Proof.
  split; [intros i _; reflexivity|]. split; [reflexivity|].
  intros (wrapper & s' & Hrun & Hneq).
  vm_compute in Hrun. injection Hrun as Hw _. apply Hneq. now subst wrapper.
Qed.

(** C10, as the code has it.  When no attempt number is within
    [maxRetries], that is for [maxRetries < 1] and for [NaN], the
    retrier leaves through the [throw] after the loop without invoking
    the operation: it fails with [Error("Max retries exceeded")] and
    the world and the trace are untouched.  With a whole
    [maxRetries >= 1] it never leaves that way: it invokes the
    operation [k >= 1] times, [k <= maxRetries], and ends at the last
    invocation, with its value, or with its failure rethrown as it is
    (for a rejection with [null] or [undefined], with the [TypeError]
    of reading its status).  With a [maxRetries >= 1] that is not
    whole it does leave that way, exactly when every one of the
    [Math.floor(maxRetries)] attempts is rate-limited: the last of them
    is followed by a sleep too, and the next attempt number is beyond
    [maxRetries].  In every case the run comes to an end. *)
Theorem max_retries_exceeded_without_a_last_attempt
  {W T : Type} (fn : Op W T) (maxRetries : number) (s : St W) :
  (exists x s', retry_exit fn maxRetries s = Some (x, s'))
  /\ (number_leb 1 maxRetries = false ->
     retry_exit fn maxRetries s = Some (LoopExit, s)
     /\ retryWithBackoff fn maxRetries s
        = Some (Throw (ThrownError (new_Error "Max retries exceeded")), s))
  /\ (number_leb 1 maxRetries = true ->
      is_whole maxRetries = true ->
      exists x s' k new,
        retry_exit fn maxRetries s = Some (x, s')
        /\ x <> LoopExit
        /\ (1 <= k)%nat /\ Z.of_nat k <= last_attempt maxRetries
        /\ x = attempt_exit (nth_outcome fn (k - 1) (world s))
        /\ retryWithBackoff fn maxRetries s
           = Some (exit_outcome (attempt_exit (nth_outcome fn (k - 1) (world s))), s')
        /\ world s' = world_after fn k (world s)
        /\ trace s' = trace s ++ new
        /\ count_events is_invoke new = k)
  /\ (forall s',
        retry_exit fn maxRetries s = Some (LoopExit, s')
        <-> (number_leb 1 maxRetries = false /\ s' = s)
            \/ (number_leb 1 maxRetries = true
                /\ is_whole maxRetries = false
                /\ (forall i, Z.of_nat i < last_attempt maxRetries ->
                      exists e, nth_outcome fn i (world s) = Throw e
                                /\ status_is e 429 = true)
                /\ s' = mkSt (world_after fn (Z.to_nat (last_attempt maxRetries))
                                          (world s))
                             (trace s
                              ++ backoff_rounds
                                   (Z.to_nat (last_attempt maxRetries)) 1))).
Proof.
  assert (Hfloor : number_leb 1 maxRetries = (1 <=? last_attempt maxRetries))
    by (apply number_leb_floor; lia).
  split; [apply retry_exit_total|]. split; [|split].
  - intros Hno. split; [now apply retry_exit_none|].
    unfold retryWithBackoff. now rewrite retry_exit_none.
  - intros Hsome Hwhole. rewrite Hfloor in Hsome. apply Z.leb_le in Hsome.
    destruct (retry_exit_total fn maxRetries s) as (x & s' & Hrun).
    destruct (retry_from_shape fn maxRetries _ 1 s x s' ltac:(lia) Hrun)
      as (k & _ & [(Hk & Hx & _ & Htr & Hw)|(Hk & _ & Hexit & _)]).
    + exists x, s', (S k), (backoff_rounds k 1 ++ [EvInvoke]).
      cbn [Nat.sub]. rewrite Nat.sub_0_r.
      split; [exact Hrun|]. split; [rewrite Hx; apply attempt_exit_decides|].
      split; [lia|]. split; [lia|]. split; [exact Hx|].
      split; [unfold retryWithBackoff; now rewrite Hrun, Hx|].
      split; [exact Hw|]. split; [exact Htr|].
      rewrite count_events_app, count_invoke_rounds. unfold count_events.
      cbn [filter is_invoke length]. lia.
    + destruct k as [|k]; [lia|].
      destruct (Hexit ltac:(lia)) as [_ Hnot]. congruence.
  - intros s'. split.
    + intros Hrun.
      destruct (retry_from_shape fn maxRetries _ 1 s LoopExit s' ltac:(lia) Hrun)
        as (k & Hfail & [(_ & Hx & _)|(Hk & _ & Hexit & Htr & Hw)]).
      { symmetry in Hx. now apply attempt_exit_decides in Hx. }
      destruct k as [|k].
      * left. split; [rewrite Hfloor; apply Z.leb_gt; lia|].
        cbn [backoff_rounds world_after] in Htr, Hw. rewrite app_nil_r in Htr.
        destruct s, s'. cbn [world trace] in *. now subst.
      * right. destruct (Hexit ltac:(lia)) as [Hlast Hnot].
        assert (Hn : Z.to_nat (last_attempt maxRetries) = S k) by lia.
        split; [rewrite Hfloor; apply Z.leb_le; lia|]. split; [exact Hnot|].
        split; [intros i Hi; apply Hfail; lia|].
        rewrite Hn. destruct s'. cbn [world trace] in *. now subst.
    + intros [[Hno ->]|(Hsome & Hnot & Hfail & ->)]; [now apply retry_exit_none|].
      rewrite Hfloor in Hsome. apply Z.leb_le in Hsome.
      unfold retry_exit.
      replace (S (Z.to_nat (last_attempt maxRetries)))
        with (Z.to_nat (last_attempt maxRetries) + 1)%nat by lia.
      destruct s as [w tr]. cbn [world trace] in *.
      rewrite retry_from_many.
      * rewrite retry_from_step, number_leb_floor by lia.
        destruct (Z.leb_spec (1 + Z.of_nat (Z.to_nat (last_attempt maxRetries)))
                             (last_attempt maxRetries)); [lia|reflexivity].
      * intros i Hi. rewrite number_ltb_floor, Hnot by lia. cbn [negb].
        rewrite andb_true_r. apply orb_true_iff.
        destruct (Z.eq_dec (1 + Z.of_nat i) (last_attempt maxRetries)) as [Heq|Hne].
        -- right. now apply Z.eqb_eq.
        -- left. apply Z.ltb_lt. lia.
      * intros i Hi. apply Hfail. lia.
Qed.

Lemma max_retries_exceeded_without_a_last_attempt_witness :
  (retry_exit (Memory.flaky 2) 0 (mkSt 0%nat []) = Some (LoopExit, mkSt 0%nat [])
   /\ retryWithBackoff (Memory.flaky 2) 0 (mkSt 0%nat [])
      = Some (Throw (ThrownError (new_Error "Max retries exceeded")), mkSt 0%nat []))
  /\ (retry_exit (Memory.flaky 2) NaN (mkSt 0%nat []) = Some (LoopExit, mkSt 0%nat [])
      /\ retryWithBackoff (Memory.flaky 2) NaN (mkSt 0%nat [])
         = Some (Throw (ThrownError (new_Error "Max retries exceeded")), mkSt 0%nat []))
  /\ (exists x s' k new,
        retry_exit Memory.always_429 1 (mkSt 0%nat []) = Some (x, s')
        /\ x <> LoopExit
        /\ (1 <= k)%nat /\ Z.of_nat k <= last_attempt 1
        /\ x = attempt_exit (nth_outcome Memory.always_429 (k - 1) 0%nat)
        /\ retryWithBackoff Memory.always_429 1 (mkSt 0%nat [])
           = Some (exit_outcome
                     (attempt_exit (nth_outcome Memory.always_429 (k - 1) 0%nat)), s')
        /\ world s' = world_after Memory.always_429 k 0%nat
        /\ trace s' = [] ++ new
        /\ count_events is_invoke new = k).
Proof.
  split; [|split].
  - apply (proj1 (proj2 (max_retries_exceeded_without_a_last_attempt
                           (Memory.flaky 2) 0 (mkSt 0%nat [])))). reflexivity.
  - apply (proj1 (proj2 (max_retries_exceeded_without_a_last_attempt
                           (Memory.flaky 2) NaN (mkSt 0%nat [])))). reflexivity.
  - apply (proj1 (proj2 (proj2 (max_retries_exceeded_without_a_last_attempt
                                  Memory.always_429 1 (mkSt 0%nat []))))).
    + reflexivity.
    + reflexivity.
Defined.

(** C10 as stated fails: with [maxRetries = 1.5], which is not less
    than 1, and an operation that is rate-limited on every call, the
    retrier invokes the operation once, sleeps, finds the attempt
    number 2 beyond [maxRetries], and fails with
    [Error("Max retries exceeded")] instead of rethrowing the
    underlying error. *)
Lemma max_retries_exceeded_at_one_and_a_half :
  Qle 1 (3 # 2)
  /\ ~ Qlt (3 # 2) 1
  /\ nth_outcome Memory.always_429 0 0%nat = Throw Memory.quota_exceeded
  /\ retry_exit Memory.always_429 (Finite (3 # 2)) (mkSt 0%nat [])
     = Some (LoopExit, mkSt 1%nat [EvInvoke; EvSleep 2000])
  /\ retryWithBackoff Memory.always_429 (Finite (3 # 2)) (mkSt 0%nat [])
     = Some (Throw (ThrownError (new_Error "Max retries exceeded")),
             mkSt 1%nat [EvInvoke; EvSleep 2000])
  /\ ThrownError (new_Error "Max retries exceeded") <> Memory.quota_exceeded.
Proof.
  split; [unfold Qle; cbn [Qnum Qden]; lia|].
  split; [unfold Qlt; cbn [Qnum Qden]; lia|].
  split; [reflexivity|]. split; [reflexivity|]. split; [reflexivity|].
  discriminate.
Qed.

(** ** The item lookup tool *)

(** Unfold a run of the tool in [H] and split on what the collaborators
    answered. *)
Ltac unfold_tool_in H :=
  unfold createItemLookupTool, itemLookupTool, try_catch, bind, call, ret in H;
  cbn [world trace] in H.

Ltac unfold_tool :=
  unfold createItemLookupTool, itemLookupTool, try_catch, bind, call, ret;
  cbn [world trace].

Section LookupFacts.

Context {W Hit Doc : Type}.
Variable collection : Collection W Doc.
Variable vectorStore : VectorStore W Hit.

Lemma length_zero_iff {A} (l : list A) :
  (Z.of_nat (length l) =? 0) = true <-> l = [].
Proof.
  rewrite Z.eqb_eq. destruct l; simpl; split; intros H; try reflexivity;
    try discriminate; lia.
Qed.

Lemma length_nonzero_iff {A} (l : list A) :
  (Z.of_nat (length l) =? 0) = false <-> l <> [].
Proof.
  rewrite Z.eqb_neq. destruct l; simpl; split; intros H; try congruence; lia.
Qed.

(** The runs of [createItemLookupTool], case by case. *)

Lemma lookup_count_throws params s t w1 :
  countDocuments collection (world s) = (Throw t, w1) ->
  createItemLookupTool collection vectorStore params s
  = Some (Return (failure (Some (message_or_string t)) (query params)),
          mkSt w1 (trace s ++ [EvCountDocuments])).
Proof. intros Hc. unfold_tool. now rewrite Hc. Qed.

Lemma lookup_empty params s w1 :
  countDocuments collection (world s) = (Return 0, w1) ->
  createItemLookupTool collection vectorStore params s
  = Some (Return empty_inventory, mkSt w1 (trace s ++ [EvCountDocuments])).
Proof. intros Hc. unfold_tool. now rewrite Hc. Qed.

Lemma lookup_vector_throws params s total w1 t w2 :
  countDocuments collection (world s) = (Return total, w1) ->
  total <> 0 ->
  similaritySearchWithScore vectorStore (query params) (limit_of params) w1
  = (Throw t, w2) ->
  createItemLookupTool collection vectorStore params s
  = Some (Return (failure (Some (message_or_string t)) (query params)),
          mkSt w2 (trace s ++ [EvCountDocuments;
                               EvSimilaritySearch (query params) (limit_of params)])).
Proof.
  intros Hc Hne Hv. unfold_tool. rewrite Hc.
  apply Z.eqb_neq in Hne. rewrite Hne. cbn [world trace]. rewrite Hv.
  now rewrite <- app_assoc.
Qed.

Lemma lookup_vector_hits params s total w1 hits w2 :
  countDocuments collection (world s) = (Return total, w1) ->
  total <> 0 ->
  similaritySearchWithScore vectorStore (query params) (limit_of params) w1
  = (Return hits, w2) ->
  hits <> [] ->
  createItemLookupTool collection vectorStore params s
  = Some (Return (Found (mkSearchResult (map VectorHit hits) vector (query params)
                                        (Z.of_nat (length hits)))),
          mkSt w2 (trace s ++ [EvCountDocuments;
                               EvSimilaritySearch (query params) (limit_of params)])).
Proof.
  intros Hc Hne Hv Hhits. unfold_tool. rewrite Hc.
  apply Z.eqb_neq in Hne. rewrite Hne. cbn [world trace]. rewrite Hv.
  apply length_nonzero_iff in Hhits. rewrite Hhits.
  now rewrite <- app_assoc.
Qed.

Lemma lookup_fallback params s total w1 w2 docs w3 :
  countDocuments collection (world s) = (Return total, w1) ->
  total <> 0 ->
  similaritySearchWithScore vectorStore (query params) (limit_of params) w1
  = (Return [], w2) ->
  find collection (keyword_filter (query params)) (limit_of params) w2
  = (Return docs, w3) ->
  createItemLookupTool collection vectorStore params s
  = Some (Return (Found (mkSearchResult (map StoredDoc docs) text (query params)
                                        (Z.of_nat (length docs)))),
          mkSt w3 (trace s ++ [EvCountDocuments;
                               EvSimilaritySearch (query params) (limit_of params);
                               EvFind (keyword_filter (query params)) (limit_of params)])).
Proof.
  intros Hc Hne Hv Hf. unfold_tool. rewrite Hc.
  apply Z.eqb_neq in Hne. rewrite Hne. cbn [world trace]. rewrite Hv.
  cbn [length Z.of_nat Z.eqb world trace]. rewrite Hf.
  now rewrite <- !app_assoc.
Qed.

Lemma lookup_fallback_throws params s total w1 w2 t w3 :
  countDocuments collection (world s) = (Return total, w1) ->
  total <> 0 ->
  similaritySearchWithScore vectorStore (query params) (limit_of params) w1
  = (Return [], w2) ->
  find collection (keyword_filter (query params)) (limit_of params) w2
  = (Throw t, w3) ->
  createItemLookupTool collection vectorStore params s
  = Some (Return (failure (Some (message_or_string t)) (query params)),
          mkSt w3 (trace s ++ [EvCountDocuments;
                               EvSimilaritySearch (query params) (limit_of params);
                               EvFind (keyword_filter (query params)) (limit_of params)])).
Proof.
  intros Hc Hne Hv Hf. unfold_tool. rewrite Hc.
  apply Z.eqb_neq in Hne. rewrite Hne. cbn [world trace]. rewrite Hv.
  cbn [length Z.of_nat Z.eqb world trace]. rewrite Hf.
  now rewrite <- !app_assoc.
Qed.

(** The runs of the inline copy [itemLookupTool], case by case. *)

(** What the [catch] clause of the inline copy does with a caught
    value. *)
Lemma inline_catch_total (q : string) (t : Thrown) (s : St W) :
  exists r,
    inline_catch (Hit := Hit) (Doc := Doc) q t s = Some (r, s)
    /\ (reading t "message" = None -> r = Return (failure (any_message t) q))
    /\ (forall v, t = ThrownNullish v -> r = Throw (cannot_read v "message")).
Proof.
  destruct t as [e|rendering|v]; eexists; (split; [reflexivity|]);
    (split; [intros H|intros v' H]); try reflexivity; try discriminate.
  now injection H as <-.
Qed.

Lemma inline_catch_ends (q : string) (t : Thrown) (s : St W) :
  exists r,
    inline_catch (Hit := Hit) (Doc := Doc) q t s = Some (r, s)
    /\ forall t', r = Throw t' -> exists v, t' = cannot_read v "message".
Proof.
  destruct t as [e|rendering|v]; eexists; (split; [reflexivity|]);
    intros t' Ht'; try discriminate.
  injection Ht' as <-. now exists v.
Qed.

Lemma inline_catch_returns (q : string) (t : Thrown) (s : St W)
      (o : ToolOutput Hit Doc) (s' : St W) :
  inline_catch q t s = Some (Return o, s') ->
  o = failure (any_message t) q /\ s' = s.
Proof.
  destruct t as [e|rendering|v]; cbn; intros H; [| |discriminate];
    injection H as <- <-; now split.
Qed.

Lemma inline_count_throws params s t w1 :
  countDocuments collection (world s) = (Throw t, w1) ->
  itemLookupTool collection vectorStore params s
  = inline_catch (query params) t (mkSt w1 (trace s ++ [EvCountDocuments])).
Proof. intros Hc. unfold_tool. now rewrite Hc. Qed.

Lemma inline_empty params s w1 :
  countDocuments collection (world s) = (Return 0, w1) ->
  itemLookupTool collection vectorStore params s
  = Some (Return empty_inventory, mkSt w1 (trace s ++ [EvCountDocuments])).
Proof. intros Hc. unfold_tool. now rewrite Hc. Qed.

Lemma inline_sample_throws params s total w1 t w2 :
  countDocuments collection (world s) = (Return total, w1) ->
  total <> 0 ->
  find collection FAll 3 w1 = (Throw t, w2) ->
  itemLookupTool collection vectorStore params s
  = inline_catch (query params) t
      (mkSt w2 (trace s ++ [EvCountDocuments; EvFind FAll 3])).
Proof.
  intros Hc Hne Hs. unfold_tool. rewrite Hc.
  apply Z.eqb_neq in Hne. rewrite Hne. cbn [world trace]. rewrite Hs.
  now rewrite <- app_assoc.
Qed.

Lemma inline_vector_throws params s total w1 sample w2 t w3 :
  countDocuments collection (world s) = (Return total, w1) ->
  total <> 0 ->
  find collection FAll 3 w1 = (Return sample, w2) ->
  similaritySearchWithScore vectorStore (query params) (limit_of params) w2
  = (Throw t, w3) ->
  itemLookupTool collection vectorStore params s
  = inline_catch (query params) t
      (mkSt w3 (trace s ++ [EvCountDocuments; EvFind FAll 3;
                            EvSimilaritySearch (query params) (limit_of params)])).
Proof.
  intros Hc Hne Hs Hv. unfold_tool. rewrite Hc.
  apply Z.eqb_neq in Hne. rewrite Hne. cbn [world trace]. rewrite Hs.
  cbn [world trace]. rewrite Hv. now rewrite <- !app_assoc.
Qed.

Lemma inline_vector_hits params s total w1 sample w2 hits w3 :
  countDocuments collection (world s) = (Return total, w1) ->
  total <> 0 ->
  find collection FAll 3 w1 = (Return sample, w2) ->
  similaritySearchWithScore vectorStore (query params) (limit_of params) w2
  = (Return hits, w3) ->
  hits <> [] ->
  itemLookupTool collection vectorStore params s
  = Some (Return (Found (mkSearchResult (map VectorHit hits) vector (query params)
                                        (Z.of_nat (length hits)))),
          mkSt w3 (trace s ++ [EvCountDocuments; EvFind FAll 3;
                               EvSimilaritySearch (query params) (limit_of params)])).
Proof.
  intros Hc Hne Hs Hv Hhits. unfold_tool. rewrite Hc.
  apply Z.eqb_neq in Hne. rewrite Hne. cbn [world trace]. rewrite Hs.
  cbn [world trace]. rewrite Hv.
  apply length_nonzero_iff in Hhits. rewrite Hhits.
  now rewrite <- !app_assoc.
Qed.

Lemma inline_fallback params s total w1 sample w2 w3 docs w4 :
  countDocuments collection (world s) = (Return total, w1) ->
  total <> 0 ->
  find collection FAll 3 w1 = (Return sample, w2) ->
  similaritySearchWithScore vectorStore (query params) (limit_of params) w2
  = (Return [], w3) ->
  find collection (keyword_filter (query params)) (limit_of params) w3
  = (Return docs, w4) ->
  itemLookupTool collection vectorStore params s
  = Some (Return (Found (mkSearchResult (map StoredDoc docs) text (query params)
                                        (Z.of_nat (length docs)))),
          mkSt w4 (trace s ++ [EvCountDocuments; EvFind FAll 3;
                               EvSimilaritySearch (query params) (limit_of params);
                               EvFind (keyword_filter (query params)) (limit_of params)])).
Proof.
  intros Hc Hne Hs Hv Hf. unfold_tool. rewrite Hc.
  apply Z.eqb_neq in Hne. rewrite Hne. cbn [world trace]. rewrite Hs.
  cbn [world trace]. rewrite Hv.
  cbn [length Z.of_nat Z.eqb world trace]. rewrite Hf.
  now rewrite <- !app_assoc.
Qed.

Lemma inline_fallback_throws params s total w1 sample w2 w3 t w4 :
  countDocuments collection (world s) = (Return total, w1) ->
  total <> 0 ->
  find collection FAll 3 w1 = (Return sample, w2) ->
  similaritySearchWithScore vectorStore (query params) (limit_of params) w2
  = (Return [], w3) ->
  find collection (keyword_filter (query params)) (limit_of params) w3
  = (Throw t, w4) ->
  itemLookupTool collection vectorStore params s
  = inline_catch (query params) t
      (mkSt w4 (trace s ++ [EvCountDocuments; EvFind FAll 3;
                            EvSimilaritySearch (query params) (limit_of params);
                            EvFind (keyword_filter (query params)) (limit_of params)])).
Proof.
  intros Hc Hne Hs Hv Hf. unfold_tool. rewrite Hc.
  apply Z.eqb_neq in Hne. rewrite Hne. cbn [world trace]. rewrite Hs.
  cbn [world trace]. rewrite Hv.
  cbn [length Z.of_nat Z.eqb world trace]. rewrite Hf.
  now rewrite <- !app_assoc.
Qed.

(** Both tools always return, and only add lookup events to the trace. *)
Lemma lookup_returns params s :
  exists o s' new,
    createItemLookupTool collection vectorStore params s = Some (Return o, s')
    /\ trace s' = trace s ++ new
    /\ incl new (lookup_events (query params) (limit_of params)).
Proof.
  destruct (countDocuments collection (world s)) as [[total|t] w1] eqn:Hc.
  2:{ eexists _, _, _. rewrite (lookup_count_throws _ _ _ _ Hc).
      split; [reflexivity|]. split; [reflexivity|].
      unfold lookup_events. intros e [<-|[]]. simpl. tauto. }
  destruct (Z.eq_dec total 0) as [->|Hne].
  { eexists _, _, _. rewrite (lookup_empty _ _ _ Hc).
    split; [reflexivity|]. split; [reflexivity|].
    unfold lookup_events. intros e [<-|[]]. simpl. tauto. }
  destruct (similaritySearchWithScore vectorStore (query params) (limit_of params) w1)
    as [[hits|t] w2] eqn:Hv.
  2:{ eexists _, _, _. rewrite (lookup_vector_throws _ _ _ _ _ _ Hc Hne Hv).
      split; [reflexivity|]. split; [reflexivity|].
      unfold lookup_events. intros e [<-|[<-|[]]]; simpl; tauto. }
  destruct hits as [|h hits].
  2:{ eexists _, _, _.
      rewrite (lookup_vector_hits _ _ _ _ _ _ Hc Hne Hv) by discriminate.
      split; [reflexivity|]. split; [reflexivity|].
      unfold lookup_events. intros e [<-|[<-|[]]]; simpl; tauto. }
  destruct (find collection (keyword_filter (query params)) (limit_of params) w2)
    as [[docs|t] w3] eqn:Hf.
  - eexists _, _, _. rewrite (lookup_fallback _ _ _ _ _ _ _ Hc Hne Hv Hf).
    split; [reflexivity|]. split; [reflexivity|].
    unfold lookup_events. intros e [<-|[<-|[<-|[]]]]; simpl; tauto.
  - eexists _, _, _. rewrite (lookup_fallback_throws _ _ _ _ _ _ _ Hc Hne Hv Hf).
    split; [reflexivity|]. split; [reflexivity|].
    unfold lookup_events. intros e [<-|[<-|[<-|[]]]]; simpl; tauto.
Qed.

End LookupFacts.

(** C5.  On an empty catalog ([countDocuments] answers 0) both tools
    return at once the envelope with [error = "No items found in
    inventory"] and [count = 0]; counting the documents is the only
    call made: no similarity search, hence no embedding, and no find. *)
Theorem empty_catalog_short_circuits
  {W Hit Doc : Type} (c : Collection W Doc) (v : VectorStore W Hit)
  (params : ItemLookupParams) (s : St W) (w1 : W) :
  countDocuments c (world s) = (Return 0, w1) ->
  exists o new,
    createItemLookupTool c v params s = Some (Return o, mkSt w1 (trace s ++ new))
    /\ itemLookupTool c v params s = Some (Return o, mkSt w1 (trace s ++ new))
    /\ output_error o = Some "No items found in inventory"
    /\ output_count o = Some 0
    /\ new = [EvCountDocuments]
    /\ count_events is_search new = 0%nat.
Proof.
  intros Hc. exists empty_inventory, [EvCountDocuments].
  rewrite (lookup_empty c v params s w1 Hc), (inline_empty c v params s w1 Hc).
  repeat split; reflexivity.
Qed.

Lemma empty_catalog_short_circuits_witness :
  exists o new,
    createItemLookupTool Memory.collection Memory.full_index
      (mkParams "oak table" None) (mkSt Memory.empty_shop [])
    = Some (Return o, mkSt Memory.empty_shop ([] ++ new))
    /\ itemLookupTool Memory.collection Memory.full_index
         (mkParams "oak table" None) (mkSt Memory.empty_shop [])
       = Some (Return o, mkSt Memory.empty_shop ([] ++ new))
    /\ output_error o = Some "No items found in inventory"
    /\ output_count o = Some 0
    /\ new = [EvCountDocuments]
    /\ count_events is_search new = 0%nat.
Proof.
  apply (empty_catalog_short_circuits Memory.collection Memory.full_index
           (mkParams "oak table" None) (mkSt Memory.empty_shop []) Memory.empty_shop).
  reflexivity.
Defined.

(** C2.  On a non-empty catalog, a lookup whose searches succeed (the
    similarity search returns [hits] and, when [hits] is empty, the
    fallback find returns [docs]) returns a [SearchResult] envelope
    whose [count] is the length of [results] and whose [searchType] is
    one of the two tags: ["vector"] (semantic) when the similarity
    search produced the results, which are then its non-empty [hits],
    and ["text"] (keyword) when it came back empty and the results are
    the [docs] of the fallback.  This holds of [createItemLookupTool]
    and of the inline copy, there for a run whose fetch of the sample
    documents succeeds too.  Conversely, an envelope without an error
    field comes from such a run only. *)
Theorem lookup_count_and_search_type
  {W Hit Doc : Type} (c : Collection W Doc) (v : VectorStore W Hit)
  (params : ItemLookupParams) (s : St W) (total : Z) (w1 : W) :
  countDocuments c (world s) = (Return total, w1) ->
  total <> 0 ->
  (forall hits w2 docs w3,
     similaritySearchWithScore v (query params) (limit_of params) w1
     = (Return hits, w2) ->
     (hits = [] ->
      find c (keyword_filter (query params)) (limit_of params) w2
      = (Return docs, w3)) ->
     exists r s',
       createItemLookupTool c v params s = Some (Return (Found r), s')
       /\ count r = Z.of_nat (length (results r))
       /\ (output_searchType (Found r) = Some "vector"
           \/ output_searchType (Found r) = Some "text")
       /\ ((hits <> [] /\ searchType r = vector
            /\ results r = map VectorHit hits /\ world s' = w2)
           \/ (hits = [] /\ searchType r = text
               /\ results r = map StoredDoc docs /\ world s' = w3)))
  /\ (forall sample wa hits w2 docs w3,
        find c FAll 3 w1 = (Return sample, wa) ->
        similaritySearchWithScore v (query params) (limit_of params) wa
        = (Return hits, w2) ->
        (hits = [] ->
         find c (keyword_filter (query params)) (limit_of params) w2
         = (Return docs, w3)) ->
        exists r s',
          itemLookupTool c v params s = Some (Return (Found r), s')
          /\ count r = Z.of_nat (length (results r))
          /\ (output_searchType (Found r) = Some "vector"
              \/ output_searchType (Found r) = Some "text")
          /\ ((hits <> [] /\ searchType r = vector
               /\ results r = map VectorHit hits /\ world s' = w2)
              \/ (hits = [] /\ searchType r = text
                  /\ results r = map StoredDoc docs /\ world s' = w3)))
  /\ forall o s',
       createItemLookupTool c v params s = Some (Return o, s')
       \/ itemLookupTool c v params s = Some (Return o, s') ->
       output_error o = None ->
       exists r,
         o = Found r
         /\ count r = Z.of_nat (length (results r))
         /\ (output_searchType o = Some "vector"
             \/ output_searchType o = Some "text")
         /\ exists w hits w2,
              similaritySearchWithScore v (query params) (limit_of params) w
              = (Return hits, w2)
              /\ ((hits <> [] /\ searchType r = vector
                   /\ results r = map VectorHit hits)
                  \/ (hits = [] /\ searchType r = text
                      /\ exists docs w3,
                           find c (keyword_filter (query params))
                                (limit_of params) w2
                           = (Return docs, w3)
                           /\ results r = map StoredDoc docs)).
Proof.
  intros Hc Hne. split; [|split].
  - intros hits w2 docs w3 Hv Hf. destruct hits as [|h hits].
    + specialize (Hf eq_refl).
      rewrite (lookup_fallback c v _ _ _ _ _ _ _ Hc Hne Hv Hf).
      eexists _, _. split; [reflexivity|]. cbn [count results searchType world].
      split; [now rewrite length_map|]. split; [now right|]. right.
      repeat split; reflexivity.
    + rewrite (lookup_vector_hits c v _ _ _ _ _ _ Hc Hne Hv) by discriminate.
      eexists _, _. split; [reflexivity|]. cbn [count results searchType world].
      split; [now rewrite length_map|]. split; [now left|]. left.
      split; [discriminate|]. repeat split; reflexivity.
  - intros sample wa hits w2 docs w3 Hs Hv Hf. destruct hits as [|h hits].
    + specialize (Hf eq_refl).
      rewrite (inline_fallback c v _ _ _ _ _ _ _ _ _ Hc Hne Hs Hv Hf).
      eexists _, _. split; [reflexivity|]. cbn [count results searchType world].
      split; [now rewrite length_map|]. split; [now right|]. right.
      repeat split; reflexivity.
    + rewrite (inline_vector_hits c v _ _ _ _ _ _ _ _ Hc Hne Hs Hv) by discriminate.
      eexists _, _. split; [reflexivity|]. cbn [count results searchType world].
      split; [now rewrite length_map|]. split; [now left|]. left.
      split; [discriminate|]. repeat split; reflexivity.
  - intros o s' [Hrun|Hrun] Hok.
    + destruct (similaritySearchWithScore v (query params) (limit_of params) w1)
        as [[hits|t] w2] eqn:Hv.
      2:{ rewrite (lookup_vector_throws c v _ _ _ _ _ _ Hc Hne Hv) in Hrun.
          injection Hrun as <- _. discriminate. }
      destruct hits as [|h hits].
      * destruct (find c (keyword_filter (query params)) (limit_of params) w2)
          as [[docs|t] w3] eqn:Hf.
        2:{ rewrite (lookup_fallback_throws c v _ _ _ _ _ _ _ Hc Hne Hv Hf) in Hrun.
            injection Hrun as <- _. discriminate. }
        rewrite (lookup_fallback c v _ _ _ _ _ _ _ Hc Hne Hv Hf) in Hrun.
        injection Hrun as <- _. eexists. split; [reflexivity|]. simpl.
        split; [now rewrite length_map|]. split; [now right|].
        exists w1, [], w2. split; [exact Hv|]. right.
        split; [reflexivity|]. split; [reflexivity|]. now exists docs, w3.
      * rewrite (lookup_vector_hits c v _ _ _ _ _ _ Hc Hne Hv) in Hrun by discriminate.
        injection Hrun as <- _. eexists. split; [reflexivity|]. simpl.
        split; [now rewrite length_map|]. split; [now left|].
        exists w1, (h :: hits), w2. split; [exact Hv|]. left.
        split; [discriminate|]. split; reflexivity.
    + destruct (find c FAll 3 w1) as [[sample|t] wa] eqn:Hs.
      2:{ rewrite (inline_sample_throws c v _ _ _ _ _ _ Hc Hne Hs) in Hrun.
          apply inline_catch_returns in Hrun. destruct Hrun as [-> _].
          discriminate. }
      destruct (similaritySearchWithScore v (query params) (limit_of params) wa)
        as [[hits|t] w2] eqn:Hv.
      2:{ rewrite (inline_vector_throws c v _ _ _ _ _ _ _ _ Hc Hne Hs Hv) in Hrun.
          apply inline_catch_returns in Hrun. destruct Hrun as [-> _].
          discriminate. }
      destruct hits as [|h hits].
      * destruct (find c (keyword_filter (query params)) (limit_of params) w2)
          as [[docs|t] w3] eqn:Hf.
        2:{ rewrite (inline_fallback_throws c v _ _ _ _ _ _ _ _ _ Hc Hne Hs Hv Hf)
              in Hrun.
            apply inline_catch_returns in Hrun. destruct Hrun as [-> _].
            discriminate. }
        rewrite (inline_fallback c v _ _ _ _ _ _ _ _ _ Hc Hne Hs Hv Hf) in Hrun.
        injection Hrun as <- _. eexists. split; [reflexivity|]. simpl.
        split; [now rewrite length_map|]. split; [now right|].
        exists wa, [], w2. split; [exact Hv|]. right.
        split; [reflexivity|]. split; [reflexivity|]. now exists docs, w3.
      * rewrite (inline_vector_hits c v _ _ _ _ _ _ _ _ Hc Hne Hs Hv) in Hrun
          by discriminate.
        injection Hrun as <- _. eexists. split; [reflexivity|]. simpl.
        split; [now rewrite length_map|]. split; [now left|].
        exists wa, (h :: hits), w2. split; [exact Hv|]. left.
        split; [discriminate|]. split; reflexivity.
Qed.

Lemma lookup_count_and_search_type_witness :
  (exists r s',
     createItemLookupTool Memory.collection Memory.full_index
       (mkParams "oak" (Some 1)) (mkSt Memory.shop [])
     = Some (Return (Found r), s')
     /\ count r = Z.of_nat (length (results r))
     /\ (output_searchType (Found r) = Some "vector"
         \/ output_searchType (Found r) = Some "text")
     /\ ((([(Memory.oak_table, 1)] : list (Memory.Item * Z)) <> []
          /\ searchType r = vector
          /\ results r = map VectorHit [(Memory.oak_table, 1)]
          /\ world s' = Memory.shop)
         \/ (([(Memory.oak_table, 1)] : list (Memory.Item * Z)) = []
             /\ searchType r = text
             /\ results r = map StoredDoc [] /\ world s' = Memory.shop)))
  /\ (exists r s',
        itemLookupTool Memory.collection Memory.no_index
          (mkParams "sofa" None) (mkSt Memory.shop [])
        = Some (Return (Found r), s')
        /\ count r = Z.of_nat (length (results r))
        /\ (output_searchType (Found r) = Some "vector"
            \/ output_searchType (Found r) = Some "text")
        /\ (((@nil (Memory.Item * Z)) <> []
             /\ searchType r = vector
             /\ results r = map VectorHit [] /\ world s' = Memory.shop)
            \/ ((@nil (Memory.Item * Z)) = []
                /\ searchType r = text
                /\ results r = map StoredDoc [Memory.sofa]
                /\ world s' = Memory.shop))).
Proof.
  split.
  - apply (proj1 (lookup_count_and_search_type Memory.collection Memory.full_index
                    (mkParams "oak" (Some 1)) (mkSt Memory.shop []) 2 Memory.shop
                    eq_refl ltac:(lia))
                 [(Memory.oak_table, 1)] Memory.shop [] Memory.shop).
    + reflexivity.
    + discriminate.
  - apply (proj1 (proj2
             (lookup_count_and_search_type Memory.collection Memory.no_index
                (mkParams "sofa" None) (mkSt Memory.shop []) 2 Memory.shop
                eq_refl ltac:(lia)))
             [Memory.oak_table; Memory.sofa] Memory.shop
             [] Memory.shop [Memory.sofa] Memory.shop).
    + reflexivity.
    + reflexivity.
    + intros _. reflexivity.
Defined.

(** C6.  [createItemLookupTool] never throws: every run returns an
    envelope, and an exception raised by the similarity search, or by
    the fallback find after an empty similarity search, is caught and
    returned as the envelope
    [{error: "Failed to search inventory", details, query}], where
    [details] is the message of an [Error] and [String(error)] of any
    other value.  The inline copy of agent.ts does the same for every
    caught value whose [.message] can be read, [details] being that
    message.  For a rejection with [null] or [undefined] it does not:
    its [catch] clause reads [error.message] without the [instanceof]
    test, and the [TypeError] of that read leaves the tool. *)
Theorem lookup_catch_clause_outcomes
  {W Hit Doc : Type} (c : Collection W Doc) (v : VectorStore W Hit)
  (params : ItemLookupParams) (s : St W) :
  (exists o s', createItemLookupTool c v params s = Some (Return o, s'))
  /\ (forall total w1 t w2,
        countDocuments c (world s) = (Return total, w1) ->
        total <> 0 ->
        similaritySearchWithScore v (query params) (limit_of params) w1
        = (Throw t, w2) ->
        exists s',
          createItemLookupTool c v params s
          = Some (Return (Failed (mkSearchError "Failed to search inventory"
                                    (Some (message_or_string t))
                                    (Some (query params)))), s')
          /\ world s' = w2)
  /\ (forall total w1 w2 t w3,
        countDocuments c (world s) = (Return total, w1) ->
        total <> 0 ->
        similaritySearchWithScore v (query params) (limit_of params) w1
        = (Return [], w2) ->
        find c (keyword_filter (query params)) (limit_of params) w2
        = (Throw t, w3) ->
        exists s',
          createItemLookupTool c v params s
          = Some (Return (Failed (mkSearchError "Failed to search inventory"
                                    (Some (message_or_string t))
                                    (Some (query params)))), s')
          /\ world s' = w3)
  /\ (forall total w1 sample wa t w2,
        countDocuments c (world s) = (Return total, w1) ->
        total <> 0 ->
        find c FAll 3 w1 = (Return sample, wa) ->
        similaritySearchWithScore v (query params) (limit_of params) wa
        = (Throw t, w2) ->
        exists r s',
          itemLookupTool c v params s = Some (r, s')
          /\ world s' = w2
          /\ (reading t "message" = None ->
              r = Return (Failed (mkSearchError "Failed to search inventory"
                                    (any_message t) (Some (query params)))))
          /\ (forall nullish, t = ThrownNullish nullish ->
              r = Throw (cannot_read nullish "message")))
  /\ (forall total w1 sample wa w2 t w3,
        countDocuments c (world s) = (Return total, w1) ->
        total <> 0 ->
        find c FAll 3 w1 = (Return sample, wa) ->
        similaritySearchWithScore v (query params) (limit_of params) wa
        = (Return [], w2) ->
        find c (keyword_filter (query params)) (limit_of params) w2
        = (Throw t, w3) ->
        exists r s',
          itemLookupTool c v params s = Some (r, s')
          /\ world s' = w3
          /\ (reading t "message" = None ->
              r = Return (Failed (mkSearchError "Failed to search inventory"
                                    (any_message t) (Some (query params)))))
          /\ (forall nullish, t = ThrownNullish nullish ->
              r = Throw (cannot_read nullish "message"))).
Proof.
  split; [|split; [|split; [|split]]].
  - destruct (lookup_returns c v params s) as (o & s' & _ & Hrun & _).
    now exists o, s'.
  - intros total w1 t w2 Hc Hne Hv.
    rewrite (lookup_vector_throws c v _ _ _ _ _ _ Hc Hne Hv).
    eexists. split; reflexivity.
  - intros total w1 w2 t w3 Hc Hne Hv Hf.
    rewrite (lookup_fallback_throws c v _ _ _ _ _ _ _ Hc Hne Hv Hf).
    eexists. split; reflexivity.
  - intros total w1 sample wa t w2 Hc Hne Hs Hv.
    rewrite (inline_vector_throws c v _ _ _ _ _ _ _ _ Hc Hne Hs Hv).
    destruct (inline_catch_total (Hit := Hit) (Doc := Doc) (query params) t
                (mkSt w2 (trace s ++ [EvCountDocuments; EvFind FAll 3;
                                      EvSimilaritySearch (query params)
                                                         (limit_of params)])))
      as (r & -> & Hreadable & Hnullish).
    eexists _, _. split; [reflexivity|]. split; [reflexivity|].
    split; assumption.
  - intros total w1 sample wa w2 t w3 Hc Hne Hs Hv Hf.
    rewrite (inline_fallback_throws c v _ _ _ _ _ _ _ _ _ Hc Hne Hs Hv Hf).
    destruct (inline_catch_total (Hit := Hit) (Doc := Doc) (query params) t
                (mkSt w3 (trace s ++ [EvCountDocuments; EvFind FAll 3;
                                      EvSimilaritySearch (query params)
                                                         (limit_of params);
                                      EvFind (keyword_filter (query params))
                                             (limit_of params)])))
      as (r & -> & Hreadable & Hnullish).
    eexists _, _. split; [reflexivity|]. split; [reflexivity|].
    split; assumption.
Qed.

(** Over a catalog of two items: a similarity search that is out of
    quota ends in the failure envelope of [createItemLookupTool]; one
    that is rejected with [undefined] makes [itemLookupTool] throw a
    [TypeError], where [createItemLookupTool] returns the failure
    envelope with [details = "undefined"]. *)
Lemma lookup_catch_clause_outcomes_witness :
  (exists s',
     createItemLookupTool Memory.collection Memory.failing_index
       (mkParams "oak" None) (mkSt Memory.shop [])
     = Some (Return (Failed (mkSearchError "Failed to search inventory"
                               (Some (message_or_string Memory.quota_exceeded))
                               (Some "oak"))), s')
     /\ world s' = Memory.shop)
  /\ (exists r s',
     itemLookupTool Memory.collection Memory.rejecting_index
       (mkParams "oak" None) (mkSt Memory.shop [])
     = Some (r, s')
     /\ world s' = Memory.shop
     /\ (reading (ThrownNullish undefined) "message" = None ->
         r = Return (Failed (mkSearchError "Failed to search inventory"
                               (any_message (ThrownNullish undefined))
                               (Some "oak"))))
     /\ (forall nullish, ThrownNullish undefined = ThrownNullish nullish ->
         r = Throw (cannot_read nullish "message")))
  /\ itemLookupTool Memory.collection Memory.rejecting_index
       (mkParams "oak" None) (mkSt Memory.shop [])
     = Some (Throw (ThrownError
                      (mkError "TypeError"
                         "Cannot read properties of undefined (reading 'message')"
                         None)),
             mkSt Memory.shop
                  [EvCountDocuments; EvFind FAll 3; EvSimilaritySearch "oak" 10])
  /\ createItemLookupTool Memory.collection Memory.rejecting_index
       (mkParams "oak" None) (mkSt Memory.shop [])
     = Some (Return (Failed (mkSearchError "Failed to search inventory"
                               (Some "undefined") (Some "oak"))),
             mkSt Memory.shop [EvCountDocuments; EvSimilaritySearch "oak" 10]).
Proof.
  split; [|split; [|split; reflexivity]].
  - apply (proj1 (proj2
             (lookup_catch_clause_outcomes Memory.collection Memory.failing_index
                (mkParams "oak" None) (mkSt Memory.shop [])))
             2 Memory.shop Memory.quota_exceeded Memory.shop).
    + reflexivity.
    + lia.
    + reflexivity.
  - apply (proj1 (proj2 (proj2 (proj2
             (lookup_catch_clause_outcomes Memory.collection Memory.rejecting_index
                (mkParams "oak" None) (mkSt Memory.shop [])))))
             2 Memory.shop [Memory.oak_table; Memory.sofa] Memory.shop
             (ThrownNullish undefined) Memory.shop).
    + reflexivity.
    + lia.
    + reflexivity.
    + reflexivity.
Defined.

(** C4.  On a non-empty catalog whose similarity search returns [hits]:
    the tool runs the keyword find exactly once when [hits] is empty and
    not at all otherwise, whatever the scores.  The find is the
    case-insensitive ([$options: "i"]) [$regex] match of the query on
    the four fields [item_name], [item_description], [categories] and
    [embedding_text], with [.limit(n)]; its documents, none included,
    come back as a [SearchResult] tagged [text] without an error field,
    at most [n] of them when the collection keeps to the positive
    limit [n]. *)
Theorem keyword_fallback_iff_no_vector_hits
  {W Hit Doc : Type} (c : Collection W Doc) (v : VectorStore W Hit)
  (params : ItemLookupParams) (s : St W) (total : Z) (w1 : W)
  (hits : list Hit) (w2 : W) :
  countDocuments c (world s) = (Return total, w1) ->
  total <> 0 ->
  similaritySearchWithScore v (query params) (limit_of params) w1
  = (Return hits, w2) ->
  honours_limit c ->
  exists o s' new,
    createItemLookupTool c v params s = Some (Return o, s')
    /\ trace s' = trace s ++ new
    /\ (count_events is_find new = 1%nat <-> hits = [])
    /\ (count_events is_find new = 0%nat <-> hits <> [])
    /\ (hits = [] ->
        new = [EvCountDocuments;
               EvSimilaritySearch (query params) (limit_of params);
               EvFind (FOr [FRegex "item_name" (query params) "i";
                            FRegex "item_description" (query params) "i";
                            FRegex "categories" (query params) "i";
                            FRegex "embedding_text" (query params) "i"])
                      (limit_of params)]
        /\ forall docs w3,
             find c (keyword_filter (query params)) (limit_of params) w2
             = (Return docs, w3) ->
             o = Found (mkSearchResult (map StoredDoc docs) text (query params)
                                       (Z.of_nat (length docs)))
             /\ output_error o = None
             /\ output_searchType o = Some "text"
             /\ (0 < limit_of params -> Z.of_nat (length docs) <= limit_of params)).
Proof.
  intros Hc Hne Hv Hlimit.
  destruct hits as [|h hits].
  - destruct (find c (keyword_filter (query params)) (limit_of params) w2)
      as [[docs|t] w3] eqn:Hf.
    + eexists _, _, _. rewrite (lookup_fallback c v _ _ _ _ _ _ _ Hc Hne Hv Hf).
      split; [reflexivity|]. split; [reflexivity|].
      split; [split; reflexivity|]. split; [split; [discriminate|congruence]|].
      intros _. split; [reflexivity|]. intros docs' w3' Heq.
      injection Heq as <- <-. repeat split.
      intros Hpos. eapply Hlimit; eassumption.
    + eexists _, _, _. rewrite (lookup_fallback_throws c v _ _ _ _ _ _ _ Hc Hne Hv Hf).
      split; [reflexivity|]. split; [reflexivity|].
      split; [split; reflexivity|]. split; [split; [discriminate|congruence]|].
      intros _. split; [reflexivity|]. intros docs' w3' Heq. discriminate.
  - eexists _, _, _.
    rewrite (lookup_vector_hits c v _ _ _ _ _ _ Hc Hne Hv) by discriminate.
    split; [reflexivity|]. split; [reflexivity|].
    split; [split; discriminate|]. split; [split; [discriminate|reflexivity]|].
    discriminate.
Qed.

Lemma keyword_fallback_iff_no_vector_hits_witness :
  Memory.regex_i "OAK" "Oak Table" = true
  /\ exists o s' new,
    createItemLookupTool Memory.collection Memory.no_index
      (mkParams "OAK" (Some 5)) (mkSt Memory.shop [])
    = Some (Return o, s')
    /\ trace s' = [] ++ new
    /\ (count_events is_find new = 1%nat <-> @nil (Memory.Item * Z) = [])
    /\ (count_events is_find new = 0%nat <-> @nil (Memory.Item * Z) <> [])
    /\ (@nil (Memory.Item * Z) = [] ->
        new = [EvCountDocuments;
               EvSimilaritySearch "OAK" 5;
               EvFind (FOr [FRegex "item_name" "OAK" "i";
                            FRegex "item_description" "OAK" "i";
                            FRegex "categories" "OAK" "i";
                            FRegex "embedding_text" "OAK" "i"]) 5]
        /\ forall docs w3,
             find Memory.collection (keyword_filter "OAK") 5 Memory.shop
             = (Return docs, w3) ->
             o = Found (mkSearchResult (map StoredDoc docs) text "OAK"
                                       (Z.of_nat (length docs)))
             /\ output_error o = None
             /\ output_searchType o = Some "text"
             /\ (0 < 5 -> Z.of_nat (length docs) <= 5)).
Proof.
  split; [reflexivity|].
  apply (keyword_fallback_iff_no_vector_hits Memory.collection Memory.no_index
           (mkParams "OAK" (Some 5)) (mkSt Memory.shop []) 2 Memory.shop [] Memory.shop).
  - reflexivity.
  - lia.
  - reflexivity.
  - intros f k w docs w' Hk Hfind. simpl in Hfind.
    injection Hfind as <- _. rewrite length_firstn. lia.
Defined.

(** C9, as the code has it.  A limit [n <= 0] is neither rejected nor
    clamped: on a non-empty catalog the tool runs the similarity search
    with that same [n]; when that search returns no entries it runs the
    keyword find with [.limit(n)] for that same [n], and returns the
    documents found as a result tagged [text]; when it returns entries
    it runs no find and returns them as a result tagged [vector]. *)
Theorem nonpositive_limit_passes_through
  {W Hit Doc : Type} (c : Collection W Doc) (v : VectorStore W Hit)
  (params : ItemLookupParams) (s : St W) (total : Z) (w1 : W) :
  limit_of params <= 0 ->
  countDocuments c (world s) = (Return total, w1) ->
  total <> 0 ->
  exists o s' rest,
    createItemLookupTool c v params s = Some (Return o, s')
    /\ trace s' = trace s ++ EvCountDocuments
                    :: EvSimilaritySearch (query params) (limit_of params) :: rest
    /\ (forall w2,
          similaritySearchWithScore v (query params) (limit_of params) w1
          = (Return [], w2) ->
          rest = [EvFind (keyword_filter (query params)) (limit_of params)]
          /\ forall docs w3,
               find c (keyword_filter (query params)) (limit_of params) w2
               = (Return docs, w3) ->
               o = Found (mkSearchResult (map StoredDoc docs) text (query params)
                                         (Z.of_nat (length docs))))
    /\ (forall hits w2,
          similaritySearchWithScore v (query params) (limit_of params) w1
          = (Return hits, w2) ->
          hits <> [] ->
          rest = []
          /\ o = Found (mkSearchResult (map VectorHit hits) vector (query params)
                                       (Z.of_nat (length hits))))
    /\ (forall t w2,
          similaritySearchWithScore v (query params) (limit_of params) w1
          = (Throw t, w2) ->
          rest = []
          /\ o = failure (Some (message_or_string t)) (query params)).
Proof.
  intros _ Hc Hne.
  destruct (similaritySearchWithScore v (query params) (limit_of params) w1)
    as [[hits|t] w2] eqn:Hv.
  2:{ eexists _, _, _. rewrite (lookup_vector_throws c v _ _ _ _ _ _ Hc Hne Hv).
      split; [reflexivity|]. split; [reflexivity|].
      split; [discriminate|]. split; [discriminate|].
      intros t' w2' Heq. injection Heq as <- <-. now split. }
  destruct hits as [|h hits].
  - destruct (find c (keyword_filter (query params)) (limit_of params) w2)
      as [[docs|t] w3] eqn:Hf.
    + eexists _, _, _. rewrite (lookup_fallback c v _ _ _ _ _ _ _ Hc Hne Hv Hf).
      split; [reflexivity|]. split; [reflexivity|]. split; [|split].
      * intros w2' Heq. injection Heq as <-. split; [reflexivity|].
        intros docs' w3' Hf'. rewrite Hf in Hf'. now injection Hf' as <- _.
      * intros hits' w2' Heq Hhits. now injection Heq as <- _.
      * discriminate.
    + eexists _, _, _. rewrite (lookup_fallback_throws c v _ _ _ _ _ _ _ Hc Hne Hv Hf).
      split; [reflexivity|]. split; [reflexivity|]. split; [|split].
      * intros w2' Heq. injection Heq as <-. split; [reflexivity|].
        intros docs' w3' Hf'. rewrite Hf in Hf'. discriminate.
      * intros hits' w2' Heq Hhits. now injection Heq as <- _.
      * discriminate.
  - eexists _, _, _.
    rewrite (lookup_vector_hits c v _ _ _ _ _ _ Hc Hne Hv) by discriminate.
    split; [reflexivity|]. split; [reflexivity|]. split; [discriminate|]. split.
    + intros hits' w2' Heq _. injection Heq as <- _. now split.
    + discriminate.
Qed.

Lemma nonpositive_limit_passes_through_witness :
  exists o s' rest,
    createItemLookupTool Memory.collection Memory.no_index
      (mkParams "oak" (Some (-5))) (mkSt Memory.shop [])
    = Some (Return o, s')
    /\ trace s' = [] ++ EvCountDocuments :: EvSimilaritySearch "oak" (-5) :: rest
    /\ (forall w2,
          similaritySearchWithScore Memory.no_index "oak" (-5) Memory.shop
          = (Return [], w2) ->
          rest = [EvFind (keyword_filter "oak") (-5)]
          /\ forall docs w3,
               find Memory.collection (keyword_filter "oak") (-5) w2
               = (Return docs, w3) ->
               o = Found (mkSearchResult (map StoredDoc docs) text "oak"
                                         (Z.of_nat (length docs))))
    /\ (forall hits w2,
          similaritySearchWithScore Memory.no_index "oak" (-5) Memory.shop
          = (Return hits, w2) ->
          hits <> [] ->
          rest = []
          /\ o = Found (mkSearchResult (map VectorHit hits) vector "oak"
                                       (Z.of_nat (length hits))))
    /\ (forall t w2,
          similaritySearchWithScore Memory.no_index "oak" (-5) Memory.shop
          = (Throw t, w2) ->
          rest = []
          /\ o = failure (Some (message_or_string t)) "oak").
Proof.
  apply (nonpositive_limit_passes_through Memory.collection Memory.no_index
           (mkParams "oak" (Some (-5))) (mkSt Memory.shop []) 2 Memory.shop).
  - change (-5 <= 0). lia.
  - reflexivity.
  - lia.
Defined.

(** C9 as stated fails: called with [n = 0] on a catalog of two items,
    the tool is not rejected and does not clamp: both searches receive
    the limit 0, and none receives 1. *)
Lemma nonpositive_limit_is_not_clamped :
  createItemLookupTool Memory.collection Memory.no_index
    (mkParams "oak" (Some 0)) (mkSt Memory.shop [])
  = Some (Return (Found (mkSearchResult [] text "oak" 0)),
          mkSt Memory.shop
               [EvCountDocuments;
                EvSimilaritySearch "oak" 0;
                EvFind (keyword_filter "oak") 0])
  /\ ~ In (EvSimilaritySearch "oak" 1)
          [EvCountDocuments; EvSimilaritySearch "oak" 0;
           EvFind (keyword_filter "oak") 0]
  /\ ~ In (EvFind (keyword_filter "oak") 1)
          [EvCountDocuments; EvSimilaritySearch "oak" 0;
           EvFind (keyword_filter "oak") 0].
Proof.
  split; [reflexivity|].
  split; intros [H|[H|[H|[]]]]; discriminate.
Qed.

(** ** The workflow *)

Lemma count_agent_none (new : list Event) :
  (forall e, In e new -> is_agent e = false) -> count_events is_agent new = 0%nat.
Proof.
  intros Hnone. unfold count_events.
  induction new as [|e new IH]; [reflexivity|].
  simpl. rewrite (Hnone e) by now left.
  apply IH. intros e' He'. apply Hnone. now right.
Qed.

Lemma count_agent_retry (new : list Event) :
  Forall retry_event new -> count_events is_agent new = 0%nat.
Proof.
  intros Hall. apply count_agent_none. intros e He.
  rewrite Forall_forall in Hall. destruct (Hall e He) as [->|[ms ->]]; reflexivity.
Qed.

Lemma count_agent_lookup (query : string) (n : Z) (new : list Event) :
  incl new (lookup_events query n) -> count_events is_agent new = 0%nat.
Proof.
  intros Hincl. apply count_agent_none. intros e He.
  apply Hincl in He. unfold lookup_events in He. simpl in He.
  destruct He as [<-|[<-|[<-|[<-|[]]]]]; reflexivity.
Qed.

Section GraphFacts.

Context {W Hit Doc : Type}.
Variable model_invoke : list (BaseMessage Hit Doc) -> Op W (BaseMessage Hit Doc).
Variable now : W -> string.
Variable collection : Collection W Doc.
Variable vectorStore : VectorStore W Hit.
Variable recursionLimit : Z.

Local Abbreviation step' := (step model_invoke now collection vectorStore recursionLimit).
Local Abbreviation run' := (run model_invoke now collection vectorStore recursionLimit).

Lemma lastMessage_update (state : GraphState Hit Doc) (m : BaseMessage Hit Doc) :
  lastMessage (update state [m]) = Some m.
Proof.
  unfold lastMessage, update, reducer. simpl.
  rewrite length_app. simpl.
  replace (length (messages state) + 1 - 1)%nat with (length (messages state)) by lia.
  rewrite nth_error_app2 by lia. now rewrite Nat.sub_diag.
Qed.

Lemma shouldContinue_update (state : GraphState Hit Doc) (m : BaseMessage Hit Doc) :
  shouldContinue (update state [m])
  = Return (match toolCalls m with [] => __end__ | _ :: _ => tools end).
Proof.
  unfold shouldContinue. rewrite lastMessage_update.
  destruct (toolCalls m); reflexivity.
Qed.

(** The generation node: it always comes back, and adds no [EvAgent]. *)
Lemma callModel_total (state : GraphState Hit Doc) (s : St W) :
  exists r s' new,
    callModel model_invoke now state s = Some (r, s')
    /\ trace s' = trace s ++ new
    /\ count_events is_agent new = 0%nat
    /\ (forall y, r = Return y -> exists m, y = [m]).
Proof.
  unfold callModel.
  destruct (retryWithBackoff_total (generate model_invoke now state) 3 s)
    as (r & s' & Hrun).
  destruct (retryWithBackoff_trace _ _ _ _ _ Hrun) as (new & Htr & Hnew).
  exists r, s', new. repeat split; try assumption.
  - now apply count_agent_retry.
  - intros y ->. apply retryWithBackoff_returned in Hrun.
    destruct Hrun as (w & Hw). unfold generate in Hw.
    destruct (model_invoke (formatMessages (now w) (messages state)) w)
      as [[m|t] w1]; simpl in Hw; [|discriminate].
    injection Hw as <-. now exists m.
Qed.

(** With a model that answers at the first attempt. *)
Lemma callModel_first_try (state : GraphState Hit Doc) (w w1 : W)
      (tr : list Event) (m : BaseMessage Hit Doc) :
  model_invoke (formatMessages (now w) (messages state)) w = (Return m, w1) ->
  callModel model_invoke now state (mkSt w tr)
  = Some (Return [m], mkSt w1 (tr ++ [EvInvoke])).
Proof.
  intros Hm. unfold callModel, retryWithBackoff, retry_exit.
  rewrite (retry_from_return _ 3 _ 1 w w1 tr [m]); [reflexivity|lia|].
  unfold generate. now rewrite Hm.
Qed.

(** The tool node: it always comes back, and adds no [EvAgent]. *)
Lemma run_tool_call_total (tc : ToolCall) (s : St W) :
  exists r s' new,
    run_tool_call collection vectorStore tc s = Some (r, s')
    /\ trace s' = trace s ++ new
    /\ count_events is_agent new = 0%nat
    /\ (tool_name tc = "item_lookup" -> exists m, r = Return m).
Proof.
  unfold run_tool_call.
  destruct (String.eqb_spec (tool_name tc) "item_lookup") as [Heq|Hneq].
  - destruct (lookup_returns collection vectorStore (tool_args tc) s)
      as (o & s' & new & Hrun & Htr & Hnew).
    exists (Return (ToolMessage o (call_id tc))), s', new.
    unfold bind. rewrite Hrun. repeat split; try assumption.
    + eapply count_agent_lookup; eassumption.
    + intros _. eauto.
  - exists (Throw (UnknownTool (tool_name tc))), s, [].
    repeat split; [now rewrite app_nil_r|congruence].
Qed.

Lemma run_tool_calls_total (tcs : list ToolCall) :
  forall s : St W,
  exists r s' new,
    run_tool_calls collection vectorStore tcs s = Some (r, s')
    /\ trace s' = trace s ++ new
    /\ count_events is_agent new = 0%nat
    /\ (Forall (fun tc => tool_name tc = "item_lookup") tcs ->
        exists ms, r = Return ms).
Proof.
  induction tcs as [|tc tcs IH]; intros s.
  - exists (Return []), s, []. repeat split; [now rewrite app_nil_r|eauto].
  - destruct (run_tool_call_total tc s) as (r1 & s1 & new1 & Hrun1 & Htr1 & Hc1 & Hok1).
    cbn [run_tool_calls]. unfold bind at 1. rewrite Hrun1.
    destruct r1 as [m|t].
    + destruct (IH s1) as (r2 & s2 & new2 & Hrun2 & Htr2 & Hc2 & Hok2).
      unfold bind at 1. rewrite Hrun2.
      destruct r2 as [ms|t].
      * exists (Return (m :: ms)), s2, (new1 ++ new2). repeat split.
        -- rewrite Htr2, Htr1. now rewrite app_assoc.
        -- rewrite count_events_app. lia.
        -- eauto.
      * exists (Throw t), s2, (new1 ++ new2). repeat split.
        -- rewrite Htr2, Htr1. now rewrite app_assoc.
        -- rewrite count_events_app. lia.
        -- intros Hall. inversion Hall; subst.
           destruct Hok2 as (ms & Hms); [assumption|discriminate].
    + exists (Throw t), s1, new1. repeat split; try assumption.
      intros Hall. inversion Hall; subst.
      destruct Hok1 as (m & Hm); [assumption|discriminate].
Qed.

Lemma toolNode_total (state : GraphState Hit Doc) (s : St W) :
  exists r s' new,
    toolNode collection vectorStore state s = Some (r, s')
    /\ trace s' = trace s ++ new
    /\ count_events is_agent new = 0%nat
    /\ (forall m, lastMessage state = Some m ->
        Forall (fun tc => tool_name tc = "item_lookup") (toolCalls m) ->
        exists ms, r = Return ms).
Proof.
  unfold toolNode. destruct (lastMessage state) as [m|].
  - destruct (run_tool_calls_total (toolCalls m) s)
      as (r & s' & new & Hrun & Htr & Hc & Hok).
    exists r, s', new. repeat split; try assumption.
    intros m' Hm'. injection Hm' as <-. exact Hok.
  - exists (Return []), s, []. repeat split; [now rewrite app_nil_r|discriminate].
Qed.

(** One transition of the state machine. *)

Lemma step_at_limit (c : Config Hit Doc) (s : St W) :
  wstate c = AWAITING_GENERATION ->
  recursionLimit <= steps c ->
  step' c s = Some (Throw RecursionLimitExceeded, s).
Proof.
  intros Hst Hlim. unfold step. rewrite Hst.
  destruct (Z.leb_spec recursionLimit (steps c)); [reflexivity|lia].
Qed.

Lemma step_generation (c : Config Hit Doc) (s : St W) :
  wstate c = AWAITING_GENERATION ->
  steps c < recursionLimit ->
  exists r s' new,
    step' c s = Some (r, s')
    /\ trace s' = trace s ++ EvAgent :: new
    /\ count_events is_agent new = 0%nat
    /\ (forall c', r = Return c' ->
        exists m,
          c' = mkConfig (match toolCalls m with
                         | [] => DONE
                         | _ :: _ => AWAITING_TOOL_EXECUTION
                         end)
                        (steps c + 1) (update (gstate c) [m])).
Proof.
  intros Hst Hlim. unfold step. rewrite Hst.
  destruct (Z.leb_spec recursionLimit (steps c)); [lia|].
  unfold bind at 1.
  destruct (callModel_total (gstate c) (log EvAgent s))
    as (r & s1 & new & Hrun & Htr & Hc & Hy).
  unfold bind at 1. rewrite Hrun.
  destruct r as [y|t].
  - destruct (Hy y eq_refl) as (m & ->).
    rewrite shouldContinue_update.
    eexists _, s1, new. split; [reflexivity|].
    split; [rewrite Htr; simpl; now rewrite <- app_assoc|].
    split; [assumption|].
    intros c' Hc'. injection Hc' as <-. exists m.
    destruct (toolCalls m); reflexivity.
  - exists (Throw t), s1, new. split; [reflexivity|].
    split; [rewrite Htr; simpl; now rewrite <- app_assoc|].
    split; [assumption|]. discriminate.
Qed.

Lemma step_tools (c : Config Hit Doc) (s : St W) :
  wstate c = AWAITING_TOOL_EXECUTION ->
  exists r s' new,
    step' c s = Some (r, s')
    /\ trace s' = trace s ++ EvTools :: new
    /\ count_events is_agent new = 0%nat
    /\ (forall c', r = Return c' ->
        exists ms,
          c' = mkConfig AWAITING_GENERATION (steps c) (update (gstate c) ms))
    /\ (forall m, lastMessage (gstate c) = Some m ->
        Forall (fun tc => tool_name tc = "item_lookup") (toolCalls m) ->
        exists c', r = Return c').
Proof.
  intros Hst. unfold step. rewrite Hst.
  unfold bind at 1.
  destruct (toolNode_total (gstate c) (log EvTools s))
    as (r & s1 & new & Hrun & Htr & Hc & Hok).
  unfold bind at 1. rewrite Hrun.
  destruct r as [y|t].
  - eexists _, s1, new. split; [reflexivity|].
    split; [rewrite Htr; simpl; now rewrite <- app_assoc|].
    split; [assumption|]. split.
    + intros c' Hc'. injection Hc' as <-. now exists y.
    + intros _ _ _. eauto.
  - exists (Throw t), s1, new. split; [reflexivity|].
    split; [rewrite Htr; simpl; now rewrite <- app_assoc|].
    split; [assumption|]. split; [discriminate|].
    intros m Hm Hall. destruct (Hok m Hm Hall) as (ms & Hms). discriminate.
Qed.

Lemma run_unfold (fuel : nat) (c : Config Hit Doc) (s : St W) :
  run' (S fuel) c s
  = match wstate c with
    | DONE => Some (Return (gstate c), s)
    | _ => bind (step' c) (run' fuel) s
    end.
Proof. simpl. destruct (wstate c); reflexivity. Qed.

(** Every run comes to an end within its budget, and enters the
    generation node at most [recursionLimit - steps] times. *)
Lemma run_total_bounded (fuel : nat) :
  forall (c : Config Hit Doc) (s : St W),
    (run_budget recursionLimit c <= fuel)%nat ->
    exists r s' new,
      run' fuel c s = Some (r, s')
      /\ trace s' = trace s ++ new
      /\ Z.of_nat (count_events is_agent new)
         <= Z.max 0 (recursionLimit - steps c).
Proof.
  induction fuel as [|fuel IH]; intros c s Hfuel.
  { unfold run_budget in Hfuel. destruct (wstate c); lia. }
  rewrite run_unfold. unfold run_budget in Hfuel.
  destruct (wstate c) eqn:Hst.
  - destruct (Z.le_gt_cases recursionLimit (steps c)) as [Hlim|Hlim].
    + unfold bind. rewrite (step_at_limit c s Hst Hlim).
      exists (Throw RecursionLimitExceeded), s, [].
      split; [reflexivity|]. split; [now rewrite app_nil_r|].
      unfold count_events. simpl. lia.
    + destruct (step_generation c s Hst) as (r & s1 & new & Hstep & Htr & Hc & Hnext);
        [lia|].
      unfold bind. rewrite Hstep. destruct r as [c'|t].
      * destruct (Hnext c' eq_refl) as (m & ->).
        destruct (IH (mkConfig (match toolCalls m with
                                | [] => DONE
                                | _ :: _ => AWAITING_TOOL_EXECUTION
                                end) (steps c + 1) (update (gstate c) [m])) s1)
          as (r2 & s2 & new2 & Hrun2 & Htr2 & Hc2).
        { unfold run_budget. cbn [wstate steps]. destruct (toolCalls m); lia. }
        exists r2, s2, (EvAgent :: new ++ new2).
        split; [exact Hrun2|].
        split; [rewrite Htr2, Htr; now rewrite <- app_assoc|].
        cbn [steps] in Hc2.
        change (EvAgent :: new ++ new2) with ([EvAgent] ++ new ++ new2).
        rewrite !count_events_app, Hc. unfold count_events at 1. simpl. lia.
      * exists (Throw t), s1, (EvAgent :: new).
        split; [reflexivity|]. split; [exact Htr|].
        change (EvAgent :: new) with ([EvAgent] ++ new).
        rewrite count_events_app, Hc. unfold count_events. simpl. lia.
  - destruct (step_tools c s Hst) as (r & s1 & new & Hstep & Htr & Hc & Hnext & _).
    unfold bind. rewrite Hstep. destruct r as [c'|t].
    + destruct (Hnext c' eq_refl) as (ms & ->).
      destruct (IH (mkConfig AWAITING_GENERATION (steps c) (update (gstate c) ms)) s1)
        as (r2 & s2 & new2 & Hrun2 & Htr2 & Hc2).
      { unfold run_budget. cbn [wstate steps]. lia. }
      exists r2, s2, (EvTools :: new ++ new2).
      split; [exact Hrun2|].
      split; [rewrite Htr2, Htr; now rewrite <- app_assoc|].
      cbn [steps] in Hc2.
      change (EvTools :: new ++ new2) with ([EvTools] ++ new ++ new2).
      rewrite !count_events_app, Hc. unfold count_events at 1. simpl. lia.
    + exists (Throw t), s1, (EvTools :: new).
      split; [reflexivity|]. split; [exact Htr|].
      change (EvTools :: new) with ([EvTools] ++ new).
      rewrite count_events_app, Hc. unfold count_events. simpl. lia.
  - exists (Return (gstate c)), s, [].
    split; [reflexivity|]. split; [now rewrite app_nil_r|].
    unfold count_events. simpl. lia.
Qed.

(** With a model that always requests the tool, a generation below
    the ceiling hands over to the tool node. *)
Lemma step_generation_always (c : Config Hit Doc) (s : St W) :
  always_requests_tool model_invoke ->
  wstate c = AWAITING_GENERATION ->
  steps c < recursionLimit ->
  exists m s',
    step' c s
    = Some (Return (mkConfig AWAITING_TOOL_EXECUTION (steps c + 1)
                             (update (gstate c) [m])), s')
    /\ trace s' = trace s ++ [EvAgent; EvInvoke]
    /\ Forall (fun tc => tool_name tc = "item_lookup") (toolCalls m).
Proof.
  intros Halways Hst Hlim. unfold step. rewrite Hst.
  destruct (Z.leb_spec recursionLimit (steps c)); [lia|].
  destruct (Halways (formatMessages (now (world s)) (messages (gstate c))) (world s))
    as (m & w1 & Hm & Hcalls & Hnames).
  exists m, (mkSt w1 ((trace s ++ [EvAgent]) ++ [EvInvoke])).
  unfold bind at 1. unfold bind at 1. unfold log.
  rewrite (callModel_first_try (gstate c) (world s) w1 (trace s ++ [EvAgent]) m Hm).
  rewrite shouldContinue_update.
  destruct (toolCalls m) as [|tc tcs] eqn:Htc; [congruence|].
  split; [reflexivity|]. split; [cbn [trace]; now rewrite <- app_assoc|assumption].
Qed.

Lemma run_always_tool (k : nat) :
  forall (fuel : nat) (c : Config Hit Doc) (s : St W),
    always_requests_tool model_invoke ->
    wstate c = AWAITING_GENERATION ->
    steps c <= recursionLimit ->
    k = Z.to_nat (recursionLimit - steps c) ->
    (2 * k + 1 <= fuel)%nat ->
    exists s' new,
      run' fuel c s = Some (Throw RecursionLimitExceeded, s')
      /\ trace s' = trace s ++ new
      /\ count_events is_agent new = k.
Proof.
  induction k as [|k IH]; intros fuel c s Halways Hst Hle Hk Hfuel.
  - destruct fuel as [|fuel]; [lia|].
    rewrite run_unfold, Hst. unfold bind.
    rewrite (step_at_limit c s Hst) by lia.
    exists s, []. split; [reflexivity|]. split; [now rewrite app_nil_r|reflexivity].
  - destruct fuel as [|[|fuel]]; [lia|lia|].
    rewrite run_unfold, Hst. unfold bind at 1.
    destruct (step_generation_always c s Halways Hst) as (m & s1 & Hstep & Htr1 & Hnames);
      [lia|].
    rewrite Hstep. rewrite run_unfold. cbn [wstate]. unfold bind at 1.
    destruct (step_tools (mkConfig AWAITING_TOOL_EXECUTION (steps c + 1)
                                   (update (gstate c) [m])) s1 eq_refl)
      as (r & s2 & new2 & Hstep2 & Htr2 & Hc2 & Hnext & Hok).
    rewrite Hstep2.
    destruct (Hok m (lastMessage_update (gstate c) m) Hnames) as (c' & ->).
    destruct (Hnext c' eq_refl) as (ms & ->). cbn [steps gstate] in *.
    destruct (IH fuel (mkConfig AWAITING_GENERATION (steps c + 1)
                                (update (update (gstate c) [m]) ms)) s2 Halways eq_refl)
      as (s3 & new3 & Hrun3 & Htr3 & Hc3);
      [cbn [steps]; lia|cbn [steps]; lia|lia|].
    exists s3, ([EvAgent; EvInvoke] ++ (EvTools :: new2) ++ new3).
    split; [exact Hrun3|]. split.
    + rewrite Htr3, Htr2, Htr1. now rewrite <- !app_assoc.
    + rewrite !count_events_app, Hc3.
      change (EvTools :: new2) with ([EvTools] ++ new2).
      rewrite count_events_app, Hc2. unfold count_events. simpl. lia.
Qed.

End GraphFacts.


(** C3.  Every run of the workflow with the ceiling of [callAgent], 15,
    comes to an end and enters the generation node at most 15 times.
    With a language model that requests the lookup tool on every
    generation, the run enters the generation node exactly 15 times and
    fails with [RecursionLimitExceeded]. *)
Theorem recursion_limit_bounds_generation
  {W Hit Doc : Type}
  (model_invoke : list (BaseMessage Hit Doc) -> Op W (BaseMessage Hit Doc))
  (now : W -> string) (c : Collection W Doc) (v : VectorStore W Hit)
  (saved input : list (BaseMessage Hit Doc)) (s : St W) :
  (exists r s' new,
     invoke model_invoke now c v configured_recursionLimit saved input s
     = Some (r, s')
     /\ trace s' = trace s ++ new
     /\ (count_events is_agent new <= 15)%nat)
  /\ (always_requests_tool model_invoke ->
      exists s' new,
        invoke model_invoke now c v configured_recursionLimit saved input s
        = Some (Throw RecursionLimitExceeded, s')
        /\ trace s' = trace s ++ new
        /\ count_events is_agent new = 15%nat).
Proof.
  split.
  - destruct (run_total_bounded model_invoke now c v configured_recursionLimit
                (2 * Z.to_nat configured_recursionLimit + 2)
                (mkConfig AWAITING_GENERATION 0 (mkGraphState (reducer saved input))) s)
      as (r & s' & new & Hrun & Htr & Hcount).
    { unfold run_budget. cbn [wstate steps]. lia. }
    exists r, s', new. split; [exact Hrun|]. split; [exact Htr|].
    cbn [steps] in Hcount. unfold configured_recursionLimit in Hcount. lia.
  - intros Halways.
    destruct (run_always_tool model_invoke now c v configured_recursionLimit 15
                (2 * Z.to_nat configured_recursionLimit + 2)
                (mkConfig AWAITING_GENERATION 0 (mkGraphState (reducer saved input))) s
                Halways eq_refl)
      as (s' & new & Hrun & Htr & Hcount).
    + cbn [steps]. unfold configured_recursionLimit. lia.
    + reflexivity.
    + unfold configured_recursionLimit. simpl. lia.
    + exists s', new. repeat split; assumption.
Qed.

Lemma recursion_limit_bounds_generation_witness :
  exists s' new,
    invoke Memory.always_tool Memory.clock Memory.collection Memory.no_index
           configured_recursionLimit [] [HumanMessage "Do you have an oak table?"]
           (mkSt Memory.shop [])
    = Some (Throw RecursionLimitExceeded, s')
    /\ trace s' = [] ++ new
    /\ count_events is_agent new = 15%nat.
Proof.
  apply (proj2 (recursion_limit_bounds_generation
                  Memory.always_tool Memory.clock Memory.collection Memory.no_index
                  [] [HumanMessage "Do you have an oak table?"] (mkSt Memory.shop []))).
  intros msgs w. eexists _, _. split; [reflexivity|].
  split; [discriminate|]. repeat constructor.
Defined.

(** ** Runs on the in-memory store *)

(** The scenario of an oak table in the catalog: the model asks for the
    lookup once, the keyword find answers, and the run is over after
    two entries into the generation node. *)
Example oak_table_scenario :
  exists final s',
    invoke Memory.asks_once Memory.clock Memory.collection Memory.no_index
           configured_recursionLimit [] [HumanMessage "Do you have an oak table?"]
           (mkSt Memory.shop [])
    = Some (Return final, s')
    /\ length (messages final) = 4%nat
    /\ option_map content (lastMessage final)
       = Some (TextContent "We have an Oak Table.")
    /\ trace s'
       = [EvAgent; EvInvoke; EvTools; EvCountDocuments;
          EvSimilaritySearch "oak table" 10;
          EvFind (keyword_filter "oak table") 10;
          EvAgent; EvInvoke]
    /\ count_events is_agent (trace s') = 2%nat.
Proof.
  eexists _, _. split; [vm_compute; reflexivity|].
  repeat split; reflexivity.
Qed.

(** A find that fails after an empty similarity search ends in the
    error envelope, with the message of the driver's exception. *)
Example unreachable_collection :
  createItemLookupTool Memory.unreachable Memory.no_index
    (mkParams "oak" None) (mkSt Memory.shop [])
  = Some (Return (failure (Some "connection closed") "oak"),
          mkSt Memory.shop
               [EvCountDocuments; EvSimilaritySearch "oak" 10;
                EvFind (keyword_filter "oak") 10]).
Proof. reflexivity. Qed.

(** Seven rate-limited attempts out of eight: the delays double from
    two seconds and stay at thirty. *)
Example seven_retries :
  option_map (fun r => (fst r, sleeps (trace (snd r))))
             (retryWithBackoff (Memory.flaky 7) 8 (mkSt 0%nat []))
  = Some (Return 42, [2000; 4000; 8000; 16000; 30000; 30000; 30000]).
Proof. reflexivity. Qed.

(** At the entry point the rate limit that outlasts the retries is
    reported with the message for rate limits. *)
Example callAgent_rate_limited :
  option_map fst
    (callAgent (fun _ w => (Throw Memory.quota_exceeded, w)) Memory.clock
               Memory.collection Memory.no_index [] "hello" (mkSt Memory.shop []))
  = Some (Throw (ThrownError (new_Error
      "Service temporarily unavailable due to rate limits. Please try again in a minute."))).
Proof. reflexivity. Qed.

(** * Further properties *)

(** ** retryWithBackoff, for every operation *)

Lemma total_sleep_app (a b : list Event) :
  total_sleep (a ++ b) = total_sleep a + total_sleep b.
Proof.
  unfold total_sleep. rewrite sleeps_app.
  induction (sleeps a) as [|d l IH]; simpl; lia.
Qed.

Lemma total_sleep_rounds (k : nat) (attempt : Z) :
  0 <= total_sleep (backoff_rounds k attempt) <= 30000 * Z.of_nat k.
Proof.
  revert attempt. induction k as [|k IH]; intros attempt.
  - unfold total_sleep. simpl. lia.
  - change (backoff_rounds (S k) attempt)
      with ([EvInvoke; EvSleep (backoff_delay attempt)]
              ++ backoff_rounds k (attempt + 1)).
    rewrite total_sleep_app. specialize (IH (attempt + 1)).
    unfold total_sleep at 1 3. simpl.
    pose proof (backoff_delay_cap attempt).
    assert (0 <= backoff_delay attempt).
    { unfold backoff_delay. pose proof (Z.pow_nonneg 2 attempt). lia. }
    lia.
Qed.

Lemma sleeps_rounds_between (k : nat) (attempt : Z) :
  Forall (fun d => 0 <= d <= 30000) (sleeps (backoff_rounds k attempt)).
Proof.
  rewrite sleeps_rounds. apply Forall_forall. intros d Hd.
  apply in_map_iff in Hd. destruct Hd as (i & <- & _).
  split; [|apply backoff_delay_cap].
  unfold backoff_delay. pose proof (Z.pow_nonneg 2 (attempt + Z.of_nat i)). lia.
Qed.

(** X1.  A failure other than a rate limit is final at once: after [k]
    rate-limited attempts, with the attempt number [k + 1] still within
    [maxRetries], an attempt that fails with any other status ends the
    run after [k + 1] invocations and [k] sleeps; nothing is slept
    after it.  The failure is rethrown as it is, except that a
    rejection with [null] or [undefined] comes out as the [TypeError]
    of reading its status. *)
Theorem retry_other_failure_is_immediate
  {W T : Type} (fn : Op W T) (maxRetries : number) (k : nat) (e : Thrown)
  (w : W) (tr : list Event) :
  number_leb (1 + Z.of_nat k) maxRetries = true ->
  (forall i, (i < k)%nat ->
     exists e', nth_outcome fn i w = Throw e' /\ status_is e' 429 = true) ->
  nth_outcome fn k w = Throw e ->
  status_is e 429 = false ->
  exists thrown,
    retryWithBackoff fn maxRetries (mkSt w tr)
    = Some (Throw thrown, mkSt (world_after fn (S k) w)
                               (tr ++ backoff_rounds k 1 ++ [EvInvoke]))
    /\ (reading e "status" = None -> thrown = e)
    /\ (forall nullish, e = ThrownNullish nullish ->
          thrown = cannot_read nullish "status")
    /\ count_events is_invoke (backoff_rounds k 1 ++ [EvInvoke]) = S k
    /\ length (sleeps (backoff_rounds k 1 ++ [EvInvoke])) = k
    /\ (k = 0%nat -> sleeps (backoff_rounds k 1 ++ [EvInvoke]) = []).
Proof.
  intros Hk Hfail Hlast H429.
  assert (Hfloor : 1 + Z.of_nat k <= last_attempt maxRetries).
  { rewrite number_leb_floor in Hk by lia. now apply Z.leb_le. }
  assert (Hrun : retry_exit fn maxRetries (mkSt w tr)
                 = Some (attempt_exit (Throw e),
                         mkSt (world_after fn (S k) w)
                              (tr ++ backoff_rounds k 1 ++ [EvInvoke]))).
  { unfold retry_exit.
    replace (S (Z.to_nat (last_attempt maxRetries)))
      with (k + S (Z.to_nat (last_attempt maxRetries) - k))%nat by lia.
    rewrite retry_from_many; [|intros i Hi|exact Hfail].
    2:{ rewrite number_ltb_floor by lia. apply orb_true_iff. left.
        apply Z.ltb_lt. lia. }
    rewrite retry_from_last.
    - unfold nth_outcome in Hlast. rewrite Hlast, world_after_succ, app_assoc.
      reflexivity.
    - exact Hk.
    - intros e' He' H429'. unfold nth_outcome in Hlast. rewrite Hlast in He'.
      injection He' as <-. congruence. }
  exists (match reading e "status" with Some typeError => typeError | None => e end).
  split; [|split; [|split; [|split; [|split]]]].
  - unfold retryWithBackoff. rewrite Hrun. cbn [attempt_exit].
    now destruct (reading e "status").
  - now intros ->.
  - now intros nullish ->.
  - rewrite count_events_app, count_invoke_rounds. unfold count_events. simpl. lia.
  - rewrite sleeps_app, length_app, sleeps_rounds, length_map, length_seq.
    simpl. lia.
  - intros ->. reflexivity.
Qed.

Lemma retry_other_failure_is_immediate_witness :
  (exists thrown,
     retryWithBackoff
       (fun c : nat =>
          (@Throw Z (ThrownError (mkError "Error" "401 Unauthorized" (Some 401))), S c))
       3 (mkSt 0%nat [])
     = Some (Throw thrown, mkSt 1%nat ([] ++ backoff_rounds 0 1 ++ [EvInvoke]))
     /\ (reading (ThrownError (mkError "Error" "401 Unauthorized" (Some 401))) "status"
         = None ->
         thrown = ThrownError (mkError "Error" "401 Unauthorized" (Some 401)))
     /\ (forall nullish,
           ThrownError (mkError "Error" "401 Unauthorized" (Some 401))
           = ThrownNullish nullish ->
           thrown = cannot_read nullish "status")
     /\ count_events is_invoke (backoff_rounds 0 1 ++ [EvInvoke]) = 1%nat
     /\ length (sleeps (backoff_rounds 0 1 ++ [EvInvoke])) = 0%nat
     /\ (0%nat = 0%nat -> sleeps (backoff_rounds 0 1 ++ [EvInvoke]) = []))
  /\ (exists thrown,
        retryWithBackoff
          (fun c : nat => (@Throw Z (ThrownNullish null), S c))
          (Finite (5 # 2)) (mkSt 0%nat [])
        = Some (Throw thrown, mkSt 1%nat ([] ++ backoff_rounds 0 1 ++ [EvInvoke]))
        /\ (reading (ThrownNullish null) "status" = None ->
            thrown = ThrownNullish null)
        /\ (forall nullish,
              ThrownNullish null = ThrownNullish nullish ->
              thrown = cannot_read nullish "status")
        /\ count_events is_invoke (backoff_rounds 0 1 ++ [EvInvoke]) = 1%nat
        /\ length (sleeps (backoff_rounds 0 1 ++ [EvInvoke])) = 0%nat
        /\ (0%nat = 0%nat -> sleeps (backoff_rounds 0 1 ++ [EvInvoke]) = [])).
Proof.
  split.
  - apply (retry_other_failure_is_immediate
             (fun c : nat =>
                (@Throw Z (ThrownError (mkError "Error" "401 Unauthorized" (Some 401))),
                 S c))
             3 0 (ThrownError (mkError "Error" "401 Unauthorized" (Some 401))) 0%nat []).
    + reflexivity.
    + intros i Hi. lia.
    + reflexivity.
    + reflexivity.
  - apply (retry_other_failure_is_immediate
             (fun c : nat => (@Throw Z (ThrownNullish null), S c))
             (Finite (5 # 2)) 0 (ThrownNullish null) 0%nat []).
    + reflexivity.
    + intros i Hi. lia.
    + reflexivity.
    + reflexivity.
Defined.

(** X2.  Every run of the retrier with a finite [maxRetries >= 1],
    whole or not, comes to an end, and looks like this: [k] rate-limited attempts, each
    followed by its sleep, and then one of two things.  Either the
    attempt [k + 1 <= maxRetries] ends the run: it succeeded, or failed
    with a status other than 429, or was the attempt number
    [maxRetries] itself; the run returns its value or rethrows its
    failure (for a rejection with [null] or [undefined], throws the
    [TypeError] of reading its status).  Or [maxRetries] is not whole,
    all [Math.floor(maxRetries)] attempts were rate-limited, and the
    run fails with [Error("Max retries exceeded")]. *)
Theorem retry_stops_at_first_decisive_attempt
  {W T : Type} (fn : Op W T) (maxRetries : number) (s : St W) :
  number_leb 1 maxRetries = true ->
  exists (r : Outcome T) (s' : St W) (k : nat),
    retryWithBackoff fn maxRetries s = Some (r, s')
    /\ (forall i, (i < k)%nat ->
          exists e, nth_outcome fn i (world s) = Throw e
                    /\ status_is e 429 = true)
    /\ ((1 + Z.of_nat k <= last_attempt maxRetries
         /\ r = exit_outcome (attempt_exit (nth_outcome fn k (world s)))
         /\ (forall v, nth_outcome fn k (world s) = Return v -> r = Return v)
         /\ (forall e, nth_outcome fn k (world s) = Throw e ->
               reading e "status" = None -> r = Throw e)
         /\ (forall nullish,
               nth_outcome fn k (world s) = Throw (ThrownNullish nullish) ->
               r = Throw (cannot_read nullish "status"))
         /\ (forall e, nth_outcome fn k (world s) = Throw e ->
               status_is e 429 = true ->
               1 + Z.of_nat k = last_attempt maxRetries
               /\ is_whole maxRetries = true)
         /\ trace s' = trace s ++ backoff_rounds k 1 ++ [EvInvoke]
         /\ world s' = world_after fn (S k) (world s))
        \/ (Z.of_nat k = last_attempt maxRetries
            /\ is_whole maxRetries = false
            /\ r = Throw (ThrownError (new_Error "Max retries exceeded"))
            /\ trace s' = trace s ++ backoff_rounds k 1
            /\ world s' = world_after fn k (world s))).
Proof.
  intros Hsome.
  rewrite number_leb_floor in Hsome by lia. apply Z.leb_le in Hsome.
  destruct (retry_exit_total fn maxRetries s) as (x & s' & Hrun).
  destruct (retry_from_shape fn maxRetries _ 1 s x s' ltac:(lia) Hrun)
    as (k & Hfail & Hend).
  exists (exit_outcome x), s', k.
  split; [unfold retryWithBackoff; now rewrite Hrun|]. split; [exact Hfail|].
  destruct Hend as [(Hk & -> & Hlast & Htr & Hw)|(Hk & -> & Hexit & Htr & Hw)].
  - left. split; [exact Hk|]. split; [reflexivity|].
    split; [intros v ->; reflexivity|].
    split; [intros e -> Hread; cbn [attempt_exit]; now rewrite Hread|].
    split; [intros nullish ->; reflexivity|].
    split; [exact Hlast|]. now split.
  - right. destruct k as [|k]; [lia|].
    destruct (Hexit ltac:(lia)) as [Hlast Hnot].
    split; [lia|]. split; [exact Hnot|]. split; [reflexivity|]. now split.
Qed.

Lemma retry_stops_at_first_decisive_attempt_witness :
  exists (r : Outcome Z) (s' : St nat) (k : nat),
    retryWithBackoff (Memory.flaky 2) (Finite (5 # 2)) (mkSt 0%nat []) = Some (r, s')
    /\ (forall i, (i < k)%nat ->
          exists e, nth_outcome (Memory.flaky 2) i 0%nat = Throw e
                    /\ status_is e 429 = true)
    /\ ((1 + Z.of_nat k <= last_attempt (Finite (5 # 2))
         /\ r = exit_outcome (attempt_exit (nth_outcome (Memory.flaky 2) k 0%nat))
         /\ (forall v, nth_outcome (Memory.flaky 2) k 0%nat = Return v -> r = Return v)
         /\ (forall e, nth_outcome (Memory.flaky 2) k 0%nat = Throw e ->
               reading e "status" = None -> r = Throw e)
         /\ (forall nullish,
               nth_outcome (Memory.flaky 2) k 0%nat = Throw (ThrownNullish nullish) ->
               r = Throw (cannot_read nullish "status"))
         /\ (forall e, nth_outcome (Memory.flaky 2) k 0%nat = Throw e ->
               status_is e 429 = true ->
               1 + Z.of_nat k = last_attempt (Finite (5 # 2))
               /\ is_whole (Finite (5 # 2)) = true)
         /\ trace s' = [] ++ backoff_rounds k 1 ++ [EvInvoke]
         /\ world s' = world_after (Memory.flaky 2) (S k) 0%nat)
        \/ (Z.of_nat k = last_attempt (Finite (5 # 2))
            /\ is_whole (Finite (5 # 2)) = false
            /\ r = Throw (ThrownError (new_Error "Max retries exceeded"))
            /\ trace s' = [] ++ backoff_rounds k 1
            /\ world s' = world_after (Memory.flaky 2) k 0%nat)).
Proof.
  apply (retry_stops_at_first_decisive_attempt (Memory.flaky 2) (Finite (5 # 2))
           (mkSt 0%nat [])).
  reflexivity.
Defined.

(** X3.  The cost of a run is bounded whatever the operation does, for
    every finite [maxRetries], whole or not, and for [NaN]: the run
    comes to an end after at most [Math.floor(maxRetries)] invocations
    (none for [NaN]); it sleeps only after a rate-limited
    invocation, so never more often than it invokes, and exactly one
    time fewer when [maxRetries] is whole; and each sleep lasts between
    0 and 30 seconds. *)
Theorem retry_cost_is_bounded
  {W T : Type} (fn : Op W T) (maxRetries : number) (s : St W) :
  exists (r : Outcome T) (s' : St W) (new : list Event),
    retryWithBackoff fn maxRetries s = Some (r, s')
    /\ trace s' = trace s ++ new
    /\ Z.of_nat (count_events is_invoke new) <= Z.max 0 (last_attempt maxRetries)
    /\ (length (sleeps new) <= count_events is_invoke new)%nat
    /\ (is_whole maxRetries = true ->
        length (sleeps new) = pred (count_events is_invoke new))
    /\ Forall (fun d => 0 <= d <= 30000) (sleeps new)
    /\ 0 <= total_sleep new <= 30000 * Z.of_nat (length (sleeps new)).
Proof.
  destruct (retry_exit_total fn maxRetries s) as (x & s' & Hrun).
  destruct (retry_from_shape fn maxRetries _ 1 s x s' ltac:(lia) Hrun)
    as (k & _ & Hend).
  assert (Hlen : length (sleeps (backoff_rounds k 1)) = k)
    by (rewrite sleeps_rounds, length_map, length_seq; reflexivity).
  pose proof (total_sleep_rounds k 1) as Htotal.
  destruct Hend as [(Hk & _ & _ & Htr & _)|(Hk & _ & Hexit & Htr & _)].
  - exists (exit_outcome x), s', (backoff_rounds k 1 ++ [EvInvoke]).
    split; [unfold retryWithBackoff; now rewrite Hrun|]. split; [exact Htr|].
    rewrite count_events_app, count_invoke_rounds, sleeps_app, total_sleep_app.
    replace (count_events is_invoke [EvInvoke]) with 1%nat by reflexivity.
    replace (sleeps [EvInvoke]) with (@nil Z) by reflexivity.
    replace (total_sleep [EvInvoke]) with 0 by reflexivity.
    rewrite app_nil_r, Hlen.
    split; [lia|]. split; [lia|]. split; [intros _; lia|].
    split; [apply sleeps_rounds_between|lia].
  - exists (exit_outcome x), s', (backoff_rounds k 1).
    split; [unfold retryWithBackoff; now rewrite Hrun|]. split; [exact Htr|].
    rewrite count_invoke_rounds, Hlen.
    split; [destruct k as [|k]; [lia|destruct (Hexit ltac:(lia)); lia]|].
    split; [lia|]. split.
    { intros Hwhole. destruct k as [|k]; [reflexivity|].
      destruct (Hexit ltac:(lia)). congruence. }
    split; [apply sleeps_rounds_between|lia].
Qed.

Lemma retry_cost_is_bounded_witness :
  exists (r : Outcome Z) (s' : St nat) (new : list Event),
    retryWithBackoff Memory.always_429 (Finite (5 # 2)) (mkSt 0%nat []) = Some (r, s')
    /\ trace s' = [] ++ new
    /\ Z.of_nat (count_events is_invoke new) <= Z.max 0 (last_attempt (Finite (5 # 2)))
    /\ (length (sleeps new) <= count_events is_invoke new)%nat
    /\ (is_whole (Finite (5 # 2)) = true ->
        length (sleeps new) = pred (count_events is_invoke new))
    /\ Forall (fun d => 0 <= d <= 30000) (sleeps new)
    /\ 0 <= total_sleep new <= 30000 * Z.of_nat (length (sleeps new)).
Proof.
  apply (retry_cost_is_bounded Memory.always_429 (Finite (5 # 2)) (mkSt 0%nat [])).
Defined.

(** ** callModel and callAgent *)

Section AgentFacts.

Context {W Hit Doc : Type}.
Variable model_invoke : list (BaseMessage Hit Doc) -> Op W (BaseMessage Hit Doc).
Variable now : W -> string.
Variable collection : Collection W Doc.
Variable vectorStore : VectorStore W Hit.

(** A failure of the first generation is the failure of the run. *)
Lemma invoke_first_generation_fails
      (recursionLimit : Z) (saved input : list (BaseMessage Hit Doc))
      (s s1 : St W) (t : Thrown) :
  0 < recursionLimit ->
  callModel model_invoke now (mkGraphState (reducer saved input)) (log EvAgent s)
  = Some (Throw t, s1) ->
  invoke model_invoke now collection vectorStore recursionLimit saved input s
  = Some (Throw t, s1).
Proof.
  intros Hpos Hmodel. unfold invoke.
  replace (2 * Z.to_nat recursionLimit + 2)%nat
    with (S (2 * Z.to_nat recursionLimit + 1)) by lia.
  rewrite run_unfold. cbn [wstate]. unfold bind at 1. unfold step.
  cbn [wstate steps gstate].
  destruct (Z.leb_spec recursionLimit 0); [lia|].
  unfold bind at 1. unfold bind at 1. now rewrite Hmodel.
Qed.

(** Every run of the workflow comes to an end. *)
Lemma invoke_total
      (recursionLimit : Z) (saved input : list (BaseMessage Hit Doc)) (s : St W) :
  exists r s',
    invoke model_invoke now collection vectorStore recursionLimit saved input s
    = Some (r, s').
Proof.
  destruct (run_total_bounded model_invoke now collection vectorStore recursionLimit
              (2 * Z.to_nat recursionLimit + 2)
              (mkConfig AWAITING_GENERATION 0 (mkGraphState (reducer saved input))) s)
    as (r & s' & _ & Hrun & _).
  { unfold run_budget. cbn [wstate steps]. lia. }
  now exists r, s'.
Qed.

(** With a model that is rate-limited on every call, generation gives
    up after three invocations. *)
Lemma callModel_rate_limited (state : GraphState Hit Doc) (w : W) (tr : list Event) :
  (forall msgs w0, exists e w1,
      model_invoke msgs w0 = (Throw e, w1) /\ status_is e 429 = true) ->
  exists last w3,
    callModel model_invoke now state (mkSt w tr)
    = Some (Throw last,
            mkSt w3 (tr ++ [EvInvoke; EvSleep 2000; EvInvoke; EvSleep 4000; EvInvoke]))
    /\ status_is last 429 = true.
Proof.
  intros Hlimited.
  assert (Hgen : forall w0, exists e w1,
             generate model_invoke now state w0 = (Throw e, w1)
             /\ status_is e 429 = true).
  { intros w0. unfold generate.
    destruct (Hlimited (formatMessages (now w0) (messages state)) w0)
      as (e & w1 & -> & He).
    now exists e, w1. }
  unfold callModel, retryWithBackoff. rewrite retry_exit_integer.
  change (S (Z.to_nat 3)) with (2 + 2)%nat.
  rewrite retry_from_rounds.
  - destruct (Hgen (world_after (generate model_invoke now state) 2 w))
      as (last & w3 & Hlast & H429).
    rewrite (retry_from_rethrow _ 3 _ _ _ w3 _ last);
      [|lia|exact Hlast|exact (status_is_reading last 429 "status" H429)
       |now rewrite H429].
    exists last, w3. split; [|exact H429].
    simpl. now rewrite <- app_assoc.
  - lia.
  - intros i _. unfold nth_outcome.
    destruct (Hgen (world_after (generate model_invoke now state) i w))
      as (e & w1 & -> & He).
    now exists e.
Qed.

End AgentFacts.

(** X4.  Every generation step comes to an end, after at least one
    and at most three invocations of the model and at most six seconds
    of sleep; when it succeeds it yields exactly one message, the
    model's answer to the system prompt followed by the full history,
    which the reducer appends to the messages already there. *)
Theorem callModel_appends_one_message
  {W Hit Doc : Type}
  (model_invoke : list (BaseMessage Hit Doc) -> Op W (BaseMessage Hit Doc))
  (now : W -> string) (state : GraphState Hit Doc) (s : St W) :
  exists (r : Outcome (list (BaseMessage Hit Doc))) (s' : St W) (new : list Event),
    callModel model_invoke now state s = Some (r, s')
    /\ trace s' = trace s ++ new
    /\ (1 <= count_events is_invoke new <= 3)%nat
    /\ 0 <= total_sleep new <= 6000
    /\ (forall y, r = Return y ->
          exists m w w1,
            y = [m]
            /\ model_invoke (formatMessages (now w) (messages state)) w
               = (Return m, w1)
            /\ messages (update state y) = messages state ++ [m]).
Proof.
  destruct (retryWithBackoff_total (generate model_invoke now state) 3 s)
    as (r & s' & Hrun).
  assert (Hret : forall y, r = Return y ->
            exists m w w1,
              y = [m]
              /\ model_invoke (formatMessages (now w) (messages state)) w
                 = (Return m, w1)
              /\ messages (update state y) = messages state ++ [m]).
  { intros y ->. apply retryWithBackoff_returned in Hrun.
    destruct Hrun as (w & Hw). unfold generate in Hw.
    destruct (model_invoke (formatMessages (now w) (messages state)) w)
      as [[m|t] w1] eqn:Hm; simpl in Hw; [|discriminate].
    injection Hw as <-. exists m, w, w1. repeat split. exact Hm. }
  assert (Hcall : callModel model_invoke now state s = Some (r, s')) by exact Hrun.
  unfold retryWithBackoff in Hrun.
  destruct (retry_exit (generate model_invoke now state) 3 s)
    as [[x s1]|] eqn:Hloop; [|discriminate].
  injection Hrun as _ <-.
  destruct (retry_from_shape (generate model_invoke now state) 3 _ 1 s x s1
              ltac:(lia) Hloop)
    as (k & _ & [(Hk & _ & _ & Htr & _)|(Hk & _ & Hexit & _)]);
    rewrite last_attempt_integer in *.
  2:{ destruct k as [|k]; [lia|]. destruct (Hexit ltac:(lia)) as [_ Hnot].
      rewrite is_whole_integer in Hnot. discriminate. }
  exists r, s1, (backoff_rounds k 1 ++ [EvInvoke]).
  split; [exact Hcall|]. split; [exact Htr|].
  split; [|split; [|exact Hret]].
  - rewrite count_events_app, count_invoke_rounds. unfold count_events. simpl. lia.
  - rewrite total_sleep_app.
    destruct k as [|[|[|k]]]; [| | |lia]; vm_compute; split; discriminate.
Qed.

(** X5.  [callAgent] always comes back, and never lets the error of
    the run escape: what it throws is a new [Error] without a status,
    whose message is the rate-limit message, the authentication
    message, or ["Agent failed: "] followed by a detail. *)
Theorem callAgent_throws_only_its_own_errors
  {W Hit Doc : Type}
  (model_invoke : list (BaseMessage Hit Doc) -> Op W (BaseMessage Hit Doc))
  (now : W -> string) (c : Collection W Doc) (v : VectorStore W Hit)
  (saved : list (BaseMessage Hit Doc)) (query : string) (s : St W) :
  exists r s',
    callAgent model_invoke now c v saved query s = Some (r, s')
    /\ forall t, r = Throw t ->
         thrown_status t = None
         /\ exists msg,
              t = ThrownError (new_Error msg)
              /\ (msg = "Service temporarily unavailable due to rate limits. Please try again in a minute."
                  \/ msg = "Authentication failed. Please check your API configuration."
                  \/ exists detail, msg = ("Agent failed: " ++ detail)%string).
Proof.
  destruct (invoke_total model_invoke now c v configured_recursionLimit
              saved [HumanMessage query] s) as (r0 & s0 & Hrun).
  unfold callAgent, try_catch, bind. rewrite Hrun.
  destruct r0 as [final|t0].
  - destruct (lastMessage final) as [m|].
    + eexists _, _. split; [reflexivity|]. discriminate.
    + eexists _, _. split; [reflexivity|].
      intros t Ht. injection Ht as <-. split; [reflexivity|].
      eexists. split; [reflexivity|]. right. right. eexists. reflexivity.
  - destruct t0 as [e|rendering|nullish].
    + destruct (status_is (ThrownError e) 429);
        [|destruct (status_is (ThrownError e) 401)];
        eexists _, _; (split; [reflexivity|]);
        intros t Ht; injection Ht as <-; (split; [reflexivity|]);
        eexists; (split; [reflexivity|]);
        [now left|right; now left|right; right; eexists; reflexivity].
    + eexists _, _. split; [reflexivity|].
      intros t Ht. injection Ht as <-. split; [reflexivity|].
      eexists. split; [reflexivity|]. right. right. eexists. reflexivity.
    + eexists _, _. split; [reflexivity|].
      intros t Ht. injection Ht as <-. split; [reflexivity|].
      eexists. split; [reflexivity|]. right. right. eexists. reflexivity.
Qed.

(** X6.  When the language model is rate-limited on every call,
    [callAgent] fails with the rate-limit message, after exactly three
    invocations of the model and sleeps of two and four seconds: the
    retrier rethrows the 429 error and the [catch] clause of
    [callAgent] recognises its status. *)
Theorem callAgent_reports_rate_limit
  {W Hit Doc : Type}
  (model_invoke : list (BaseMessage Hit Doc) -> Op W (BaseMessage Hit Doc))
  (now : W -> string) (c : Collection W Doc) (v : VectorStore W Hit)
  (saved : list (BaseMessage Hit Doc)) (query : string) (s : St W) :
  (forall msgs w, exists e w1,
      model_invoke msgs w = (Throw e, w1) /\ status_is e 429 = true) ->
  exists s',
    callAgent model_invoke now c v saved query s
    = Some (Throw (ThrownError (new_Error
        "Service temporarily unavailable due to rate limits. Please try again in a minute.")),
            s')
    /\ trace s' = trace s ++ [EvAgent; EvInvoke; EvSleep 2000;
                              EvInvoke; EvSleep 4000; EvInvoke]
    /\ count_events is_invoke (trace s') = (count_events is_invoke (trace s) + 3)%nat.
Proof.
  intros Hlimited.
  destruct (callModel_rate_limited model_invoke now
              (mkGraphState (reducer saved [HumanMessage query]))
              (world s) (trace s ++ [EvAgent]) Hlimited)
    as (last & w3 & Hmodel & H429).
  exists (mkSt w3 ((trace s ++ [EvAgent])
                   ++ [EvInvoke; EvSleep 2000; EvInvoke; EvSleep 4000; EvInvoke])).
  split; [|split].
  - unfold callAgent, try_catch, bind.
    rewrite (invoke_first_generation_fails model_invoke now c v
               configured_recursionLimit saved [HumanMessage query] s
               (mkSt w3 ((trace s ++ [EvAgent])
                         ++ [EvInvoke; EvSleep 2000; EvInvoke; EvSleep 4000; EvInvoke]))
               last);
      [|reflexivity|exact Hmodel].
    destruct last as [e|rendering|nullish]; [|discriminate|discriminate].
    rewrite H429. reflexivity.
  - cbn [trace]. now rewrite <- app_assoc.
  - cbn [trace]. rewrite !count_events_app.
    change (count_events is_invoke [EvAgent]) with 0%nat.
    change (count_events is_invoke
              [EvInvoke; EvSleep 2000; EvInvoke; EvSleep 4000; EvInvoke]) with 3%nat.
    lia.
Qed.

Lemma callAgent_reports_rate_limit_witness :
  exists s',
    callAgent (fun (_ : list Memory.Msg) w => (Throw Memory.quota_exceeded, w))
              Memory.clock Memory.collection Memory.no_index [] "hello"
              (mkSt Memory.shop [])
    = Some (Throw (ThrownError (new_Error
        "Service temporarily unavailable due to rate limits. Please try again in a minute.")),
            s')
    /\ trace s' = [] ++ [EvAgent; EvInvoke; EvSleep 2000;
                         EvInvoke; EvSleep 4000; EvInvoke]
    /\ count_events is_invoke (trace s') = (count_events is_invoke [] + 3)%nat.
Proof.
  apply (callAgent_reports_rate_limit
           (fun (_ : list Memory.Msg) w => (Throw Memory.quota_exceeded, w))
           Memory.clock Memory.collection Memory.no_index [] "hello"
           (mkSt Memory.shop [])).
  intros msgs w. exists Memory.quota_exceeded, w. split; reflexivity.
Defined.

(** X7.  A failure of the first model call with status 401 is not
    retried: [callAgent] fails with the authentication message after a
    single invocation and no sleep. *)
Theorem callAgent_reports_authentication_failure
  {W Hit Doc : Type}
  (model_invoke : list (BaseMessage Hit Doc) -> Op W (BaseMessage Hit Doc))
  (now : W -> string) (c : Collection W Doc) (v : VectorStore W Hit)
  (saved : list (BaseMessage Hit Doc)) (query : string) (s : St W)
  (e : Thrown) (w1 : W) :
  model_invoke (formatMessages (now (world s)) (saved ++ [HumanMessage query]))
               (world s)
  = (Throw e, w1) ->
  status_is e 401 = true ->
  callAgent model_invoke now c v saved query s
  = Some (Throw (ThrownError (new_Error
      "Authentication failed. Please check your API configuration.")),
          mkSt w1 (trace s ++ [EvAgent; EvInvoke])).
Proof.
  intros Hmodel H401.
  assert (H429 : status_is e 429 = false).
  { unfold status_is in *. destruct (thrown_status e) as [code|]; [|discriminate].
    apply Z.eqb_eq in H401. subst code. reflexivity. }
  unfold callAgent, try_catch, bind.
  rewrite (invoke_first_generation_fails model_invoke now c v
             configured_recursionLimit saved [HumanMessage query] s
             (mkSt w1 ((trace s ++ [EvAgent]) ++ [EvInvoke])) e).
  - destruct e as [err|rendering|nullish]; [|discriminate|discriminate].
    rewrite H429, H401. now rewrite <- app_assoc.
  - reflexivity.
  - unfold callModel, retryWithBackoff. rewrite retry_exit_integer.
    unfold log. cbn [world trace].
    rewrite (retry_from_rethrow _ 3 _ 1 (world s) w1 _ e); [reflexivity|lia| | |].
    + unfold generate, reducer. cbn [messages]. now rewrite Hmodel.
    + exact (status_is_reading e 401 "status" H401).
    + now rewrite H429.
Qed.

Lemma callAgent_reports_authentication_failure_witness :
  callAgent
    (fun (_ : list Memory.Msg) w =>
       (Throw (ThrownError (mkError "Error" "API key not valid" (Some 401))), w))
    Memory.clock Memory.collection Memory.no_index [] "hello" (mkSt Memory.shop [])
  = Some (Throw (ThrownError (new_Error
      "Authentication failed. Please check your API configuration.")),
          mkSt Memory.shop ([] ++ [EvAgent; EvInvoke])).
Proof.
  apply (callAgent_reports_authentication_failure
           (fun (_ : list Memory.Msg) w =>
              (Throw (ThrownError (mkError "Error" "API key not valid" (Some 401))), w))
           Memory.clock Memory.collection Memory.no_index [] "hello"
           (mkSt Memory.shop [])
           (ThrownError (mkError "Error" "API key not valid" (Some 401))) Memory.shop).
  - reflexivity.
  - reflexivity.
Defined.

(** ** The item lookup tool, further *)

(** X8.  When counting the documents fails, neither tool makes another
    call: no similarity search and no find.  [createItemLookupTool]
    returns the error envelope with the query; so does the inline
    copy, unless the count was rejected with [null] or [undefined],
    where its [catch] clause throws the [TypeError] of reading
    [error.message]. *)
Theorem lookup_count_failure_stops_the_search
  {W Hit Doc : Type} (c : Collection W Doc) (v : VectorStore W Hit)
  (params : ItemLookupParams) (s : St W) (t : Thrown) (w1 : W) :
  countDocuments c (world s) = (Throw t, w1) ->
  createItemLookupTool c v params s
  = Some (Return (Failed (mkSearchError "Failed to search inventory"
                            (Some (message_or_string t)) (Some (query params)))),
          mkSt w1 (trace s ++ [EvCountDocuments]))
  /\ (exists r,
        itemLookupTool c v params s
        = Some (r, mkSt w1 (trace s ++ [EvCountDocuments]))
        /\ (reading t "message" = None ->
            r = Return (Failed (mkSearchError "Failed to search inventory"
                                  (any_message t) (Some (query params)))))
        /\ (forall nullish, t = ThrownNullish nullish ->
            r = Throw (cannot_read nullish "message")))
  /\ count_events is_search [EvCountDocuments] = 0%nat.
Proof.
  intros Hc.
  rewrite (lookup_count_throws c v params s t w1 Hc).
  rewrite (inline_count_throws c v params s t w1 Hc).
  split; [reflexivity|]. split; [apply inline_catch_total|reflexivity].
Qed.

Lemma lookup_count_failure_stops_the_search_witness :
  createItemLookupTool
    (mkCollection (fun w : Memory.World => (Throw (ThrownNullish null), w))
                  (find Memory.collection))
    Memory.full_index (mkParams "oak" None) (mkSt Memory.shop [])
  = Some (Return (Failed (mkSearchError "Failed to search inventory"
                            (Some (message_or_string (ThrownNullish null)))
                            (Some "oak"))),
          mkSt Memory.shop ([] ++ [EvCountDocuments]))
  /\ (exists r,
        itemLookupTool
          (mkCollection (fun w : Memory.World => (Throw (ThrownNullish null), w))
                        (find Memory.collection))
          Memory.full_index (mkParams "oak" None) (mkSt Memory.shop [])
        = Some (r, mkSt Memory.shop ([] ++ [EvCountDocuments]))
        /\ (reading (ThrownNullish null) "message" = None ->
            r = Return (Failed (mkSearchError "Failed to search inventory"
                                  (any_message (ThrownNullish null)) (Some "oak"))))
        /\ (forall nullish, ThrownNullish null = ThrownNullish nullish ->
            r = Throw (cannot_read nullish "message")))
  /\ count_events is_search [EvCountDocuments] = 0%nat.
Proof.
  apply (lookup_count_failure_stops_the_search
           (mkCollection (fun w : Memory.World => (Throw (ThrownNullish null), w))
                         (find Memory.collection))
           Memory.full_index (mkParams "oak" None) (mkSt Memory.shop [])
           (ThrownNullish null) Memory.shop).
  reflexivity.
Defined.

(** X9.  The calls of a run are always an initial part of the same
    sequence: count the documents, (in the inline copy, fetch three
    sample documents,) run the similarity search, run the keyword find.
    So the count always comes first, and no run makes more than one
    similarity search or more than one keyword find.  The run of
    [createItemLookupTool] ends by returning; that of the inline copy
    by returning, or by the [TypeError] of its [catch] clause. *)
Theorem lookup_calls_follow_one_sequence
  {W Hit Doc : Type} (c : Collection W Doc) (v : VectorStore W Hit)
  (params : ItemLookupParams) (s : St W) :
  (exists o s' k,
     createItemLookupTool c v params s = Some (Return o, s')
     /\ (1 <= k <= 3)%nat
     /\ trace s'
        = trace s
          ++ firstn k [EvCountDocuments;
                       EvSimilaritySearch (query params) (limit_of params);
                       EvFind (keyword_filter (query params)) (limit_of params)])
  /\ (exists r s' k,
        itemLookupTool c v params s = Some (r, s')
        /\ (forall t, r = Throw t ->
              exists nullish, t = cannot_read nullish "message")
        /\ (1 <= k <= 4)%nat
        /\ trace s'
           = trace s
             ++ firstn k [EvCountDocuments;
                          EvFind FAll 3;
                          EvSimilaritySearch (query params) (limit_of params);
                          EvFind (keyword_filter (query params)) (limit_of params)]).
Proof.
  assert (Hcatch : forall (t : Thrown) (s0 : St W) (k : nat),
             (1 <= k <= 4)%nat ->
             trace s0
             = trace s
               ++ firstn k [EvCountDocuments;
                            EvFind FAll 3;
                            EvSimilaritySearch (query params) (limit_of params);
                            EvFind (keyword_filter (query params)) (limit_of params)] ->
             exists r s' k,
               inline_catch (Hit := Hit) (Doc := Doc) (query params) t s0
               = Some (r, s')
               /\ (forall t', r = Throw t' ->
                     exists nullish, t' = cannot_read nullish "message")
               /\ (1 <= k <= 4)%nat
               /\ trace s'
                  = trace s
                    ++ firstn k [EvCountDocuments;
                                 EvFind FAll 3;
                                 EvSimilaritySearch (query params) (limit_of params);
                                 EvFind (keyword_filter (query params))
                                        (limit_of params)]).
  { intros t s0 k Hk Htr.
    destruct (inline_catch_ends (Hit := Hit) (Doc := Doc) (query params) t s0)
      as (r & Hrun & Hthrow).
    exists r, s0, k. repeat split; try assumption; lia. }
  destruct (countDocuments c (world s)) as [[total|t] w1] eqn:Hc.
  2:{ split.
      - eexists _, _, 1%nat. rewrite (lookup_count_throws c v _ _ _ _ Hc).
        repeat split; lia.
      - rewrite (inline_count_throws c v _ _ _ _ Hc).
        apply (Hcatch t _ 1%nat); [lia|reflexivity]. }
  destruct (Z.eq_dec total 0) as [->|Hne].
  { split; eexists _, _, 1%nat.
    - rewrite (lookup_empty c v _ _ _ Hc). repeat split; lia.
    - rewrite (inline_empty c v _ _ _ Hc).
      split; [reflexivity|]. split; [discriminate|]. repeat split; lia. }
  split.
  - destruct (similaritySearchWithScore v (query params) (limit_of params) w1)
      as [[hits|t] w2] eqn:Hv.
    2:{ eexists _, _, 2%nat. rewrite (lookup_vector_throws c v _ _ _ _ _ _ Hc Hne Hv).
        repeat split; lia. }
    destruct hits as [|h hits].
    2:{ eexists _, _, 2%nat.
        rewrite (lookup_vector_hits c v _ _ _ _ _ _ Hc Hne Hv) by discriminate.
        repeat split; lia. }
    destruct (find c (keyword_filter (query params)) (limit_of params) w2)
      as [[docs|t] w3] eqn:Hf.
    + eexists _, _, 3%nat. rewrite (lookup_fallback c v _ _ _ _ _ _ _ Hc Hne Hv Hf).
      repeat split; lia.
    + eexists _, _, 3%nat.
      rewrite (lookup_fallback_throws c v _ _ _ _ _ _ _ Hc Hne Hv Hf).
      repeat split; lia.
  - destruct (find c FAll 3 w1) as [[sample|t] wa] eqn:Hs.
    2:{ rewrite (inline_sample_throws c v _ _ _ _ _ _ Hc Hne Hs).
        apply (Hcatch t _ 2%nat); [lia|reflexivity]. }
    destruct (similaritySearchWithScore v (query params) (limit_of params) wa)
      as [[hits|t] w2] eqn:Hv.
    2:{ rewrite (inline_vector_throws c v _ _ _ _ _ _ _ _ Hc Hne Hs Hv).
        apply (Hcatch t _ 3%nat); [lia|reflexivity]. }
    destruct hits as [|h hits].
    2:{ eexists _, _, 3%nat.
        rewrite (inline_vector_hits c v _ _ _ _ _ _ _ _ Hc Hne Hs Hv) by discriminate.
        split; [reflexivity|]. split; [discriminate|]. repeat split; lia. }
    destruct (find c (keyword_filter (query params)) (limit_of params) w2)
      as [[docs|t] w3] eqn:Hf.
    + eexists _, _, 4%nat.
      rewrite (inline_fallback c v _ _ _ _ _ _ _ _ _ Hc Hne Hs Hv Hf).
      split; [reflexivity|]. split; [discriminate|]. repeat split; lia.
    + rewrite (inline_fallback_throws c v _ _ _ _ _ _ _ _ _ Hc Hne Hs Hv Hf).
      apply (Hcatch t _ 4%nat); [lia|reflexivity].
Qed.

(** X10.  Whatever the collaborators do, the envelope of either tool is
    one of three: the empty-inventory envelope with [count = 0], a
    search result that carries the query as received, or the error
    envelope ["Failed to search inventory"] that carries the query as
    received. *)
Theorem lookup_envelope_echoes_the_query
  {W Hit Doc : Type} (c : Collection W Doc) (v : VectorStore W Hit)
  (params : ItemLookupParams) (s : St W) (o : ToolOutput Hit Doc) (s' : St W) :
  createItemLookupTool c v params s = Some (Return o, s')
  \/ itemLookupTool c v params s = Some (Return o, s') ->
  match o with
  | EmptyInventory err _ cnt =>
      err = "No items found in inventory" /\ cnt = 0
  | Found r => result_query r = query params
  | Failed e =>
      error e = "Failed to search inventory"
      /\ error_query e = Some (query params)
  end.
Proof.
  intros Hrun.
  assert (Hcatch : forall (t : Thrown) (s0 : St W),
             inline_catch (query params) t s0 = Some (Return o, s') ->
             match o with
             | EmptyInventory err _ cnt =>
                 err = "No items found in inventory" /\ cnt = 0
             | Found r => result_query r = query params
             | Failed e =>
                 error e = "Failed to search inventory"
                 /\ error_query e = Some (query params)
             end).
  { intros t s0 H. apply inline_catch_returns in H. destruct H as [-> _].
    now split. }
  destruct (countDocuments c (world s)) as [[total|t] w1] eqn:Hc.
  2:{ rewrite (lookup_count_throws c v _ _ _ _ Hc),
              (inline_count_throws c v _ _ _ _ Hc) in Hrun.
      destruct Hrun as [H|H]; [injection H as <- _; now split|].
      eapply Hcatch; eassumption. }
  destruct (Z.eq_dec total 0) as [->|Hne].
  { rewrite (lookup_empty c v _ _ _ Hc), (inline_empty c v _ _ _ Hc) in Hrun.
    destruct Hrun as [H|H]; injection H as <- _; now split. }
  destruct Hrun as [Hrun|Hrun].
  - destruct (similaritySearchWithScore v (query params) (limit_of params) w1)
      as [[hits|t] w2] eqn:Hv.
    2:{ rewrite (lookup_vector_throws c v _ _ _ _ _ _ Hc Hne Hv) in Hrun.
        injection Hrun as <- _. now split. }
    destruct hits as [|h hits].
    2:{ rewrite (lookup_vector_hits c v _ _ _ _ _ _ Hc Hne Hv) in Hrun by discriminate.
        injection Hrun as <- _. reflexivity. }
    destruct (find c (keyword_filter (query params)) (limit_of params) w2)
      as [[docs|t] w3] eqn:Hf.
    + rewrite (lookup_fallback c v _ _ _ _ _ _ _ Hc Hne Hv Hf) in Hrun.
      injection Hrun as <- _. reflexivity.
    + rewrite (lookup_fallback_throws c v _ _ _ _ _ _ _ Hc Hne Hv Hf) in Hrun.
      injection Hrun as <- _. now split.
  - destruct (find c FAll 3 w1) as [[sample|t] wa] eqn:Hs.
    2:{ rewrite (inline_sample_throws c v _ _ _ _ _ _ Hc Hne Hs) in Hrun.
        eapply Hcatch; eassumption. }
    destruct (similaritySearchWithScore v (query params) (limit_of params) wa)
      as [[hits|t] w2] eqn:Hv.
    2:{ rewrite (inline_vector_throws c v _ _ _ _ _ _ _ _ Hc Hne Hs Hv) in Hrun.
        eapply Hcatch; eassumption. }
    destruct hits as [|h hits].
    2:{ rewrite (inline_vector_hits c v _ _ _ _ _ _ _ _ Hc Hne Hs Hv) in Hrun
          by discriminate.
        injection Hrun as <- _. reflexivity. }
    destruct (find c (keyword_filter (query params)) (limit_of params) w2)
      as [[docs|t] w3] eqn:Hf.
    + rewrite (inline_fallback c v _ _ _ _ _ _ _ _ _ Hc Hne Hs Hv Hf) in Hrun.
      injection Hrun as <- _. reflexivity.
    + rewrite (inline_fallback_throws c v _ _ _ _ _ _ _ _ _ Hc Hne Hs Hv Hf) in Hrun.
      eapply Hcatch; eassumption.
Qed.

Lemma lookup_envelope_echoes_the_query_witness :
  result_query (mkSearchResult [@VectorHit _ Memory.Item (Memory.oak_table, 1)]
                               vector "oak" 1)
  = "oak".
Proof.
  apply (lookup_envelope_echoes_the_query Memory.collection Memory.full_index
           (mkParams "oak" (Some 1)) (mkSt Memory.shop [])
           (Found (mkSearchResult [VectorHit (Memory.oak_table, 1)] vector "oak" 1))
           (mkSt Memory.shop [EvCountDocuments; EvSimilaritySearch "oak" 1])).
  left. reflexivity.
Defined.

(** In a run, the call that throws is the first and only one that
    does. *)
Ltac same_call H H' :=
  rewrite H in H'; inversion H'; subst; clear H'.

(** X11.  The tool of item-lookup.ts does what the inline copy of
    agent.ts did, except in its [catch] clause.  When fetching the
    sample documents succeeds and leaves the store as it was, both
    leave the same store; a run in which no call throws returns the
    same envelope from both; and when a call throws, the new tool
    returns the error envelope with [details], the message of an
    [Error] and [String(error)] of any other value, where the inline
    copy returned the same envelope for an [Error], the envelope
    without [details] for a thrown string or number, and threw a
    [TypeError] for [null] or [undefined]. *)
Theorem lookup_refactoring_preserves_the_envelope
  {W Hit Doc : Type} (c : Collection W Doc) (v : VectorStore W Hit)
  (params : ItemLookupParams) (s : St W) :
  (forall w, exists sample, find c FAll 3 w = (Return sample, w)) ->
  exists o r' s1 s2,
    createItemLookupTool c v params s = Some (Return o, s1)
    /\ itemLookupTool c v params s = Some (r', s2)
    /\ world s2 = world s1
    /\ ((forall t, ~ call_throws c v params (world s) t) -> r' = Return o)
    /\ (forall t,
          call_throws c v params (world s) t ->
          o = failure (Some (message_or_string t)) (query params)
          /\ r' = match t with
                  | ThrownError e =>
                      Return (failure (Some (message e)) (query params))
                  | ThrownValue _ => Return (failure None (query params))
                  | ThrownNullish nullish => Throw (cannot_read nullish "message")
                  end).
Proof.
  intros Hsample.
  assert (Hcatch : forall (t : Thrown) (s0 : St W),
             inline_catch (Hit := Hit) (Doc := Doc) (query params) t s0
             = Some (match t with
                     | ThrownError e =>
                         Return (failure (Some (message e)) (query params))
                     | ThrownValue _ => Return (failure None (query params))
                     | ThrownNullish nullish =>
                         Throw (cannot_read nullish "message")
                     end, s0))
    by (intros [e|rendering|nullish] s0; reflexivity).
  destruct (countDocuments c (world s)) as [[total|t0] w1] eqn:Hc.
  2:{ eexists _, _, _, _.
      rewrite (lookup_count_throws c v _ _ _ _ Hc),
              (inline_count_throws c v _ _ _ _ Hc), Hcatch.
      split; [reflexivity|]. split; [reflexivity|]. split; [reflexivity|]. split.
      - intros Hnone. exfalso. apply (Hnone t0). left. now exists w1.
      - intros t [(w1' & H1)|[(tot & w1' & w2' & H1 & _)
                             |(tot & w1' & w2' & w3' & H1 & _)]];
          same_call Hc H1. now split. }
  destruct (Z.eq_dec total 0) as [->|Hne].
  { eexists _, _, _, _.
    rewrite (lookup_empty c v _ _ _ Hc), (inline_empty c v _ _ _ Hc).
    split; [reflexivity|]. split; [reflexivity|]. split; [reflexivity|]. split.
    - reflexivity.
    - intros t [(w1' & H1)|[(tot & w1' & w2' & H1 & Hn & _)
                           |(tot & w1' & w2' & w3' & H1 & Hn & _)]];
        same_call Hc H1; now elim Hn. }
  destruct (Hsample w1) as (sample & Hs).
  destruct (similaritySearchWithScore v (query params) (limit_of params) w1)
    as [[hits|t0] w2] eqn:Hv.
  2:{ eexists _, _, _, _.
      rewrite (lookup_vector_throws c v _ _ _ _ _ _ Hc Hne Hv),
              (inline_vector_throws c v _ _ _ _ _ _ _ _ Hc Hne Hs Hv), Hcatch.
      split; [reflexivity|]. split; [reflexivity|]. split; [reflexivity|]. split.
      - intros Hnone. exfalso. apply (Hnone t0). right. left.
        now exists total, w1, w2.
      - intros t [(w1' & H1)|[(tot & w1' & w2' & H1 & _ & H2)
                             |(tot & w1' & w2' & w3' & H1 & _ & H2 & _)]];
          same_call Hc H1; same_call Hv H2. now split. }
  destruct hits as [|h hits].
  2:{ eexists _, _, _, _.
      rewrite (lookup_vector_hits c v _ _ _ _ _ _ Hc Hne Hv) by discriminate.
      rewrite (inline_vector_hits c v _ _ _ _ _ _ _ _ Hc Hne Hs Hv) by discriminate.
      split; [reflexivity|]. split; [reflexivity|]. split; [reflexivity|]. split.
      - reflexivity.
      - intros t [(w1' & H1)|[(tot & w1' & w2' & H1 & _ & H2)
                             |(tot & w1' & w2' & w3' & H1 & _ & H2 & _)]];
          same_call Hc H1; same_call Hv H2. }
  destruct (find c (keyword_filter (query params)) (limit_of params) w2)
    as [[docs|t0] w3] eqn:Hf.
  - eexists _, _, _, _.
    rewrite (lookup_fallback c v _ _ _ _ _ _ _ Hc Hne Hv Hf),
            (inline_fallback c v _ _ _ _ _ _ _ _ _ Hc Hne Hs Hv Hf).
    split; [reflexivity|]. split; [reflexivity|]. split; [reflexivity|]. split.
    + reflexivity.
    + intros t [(w1' & H1)|[(tot & w1' & w2' & H1 & _ & H2)
                           |(tot & w1' & w2' & w3' & H1 & _ & H2 & H3)]];
        same_call Hc H1; same_call Hv H2; same_call Hf H3.
  - eexists _, _, _, _.
    rewrite (lookup_fallback_throws c v _ _ _ _ _ _ _ Hc Hne Hv Hf),
            (inline_fallback_throws c v _ _ _ _ _ _ _ _ _ Hc Hne Hs Hv Hf), Hcatch.
    split; [reflexivity|]. split; [reflexivity|]. split; [reflexivity|]. split.
    + intros Hnone. exfalso. apply (Hnone t0). right. right.
      now exists total, w1, w2, w3.
    + intros t [(w1' & H1)|[(tot & w1' & w2' & H1 & _ & H2)
                           |(tot & w1' & w2' & w3' & H1 & _ & H2 & H3)]];
        same_call Hc H1; same_call Hv H2; same_call Hf H3. now split.
Qed.

Lemma lookup_refactoring_preserves_the_envelope_witness :
  exists o r' s1 s2,
    createItemLookupTool Memory.collection Memory.rejecting_index
      (mkParams "oak" None) (mkSt Memory.shop [])
    = Some (Return o, s1)
    /\ itemLookupTool Memory.collection Memory.rejecting_index
         (mkParams "oak" None) (mkSt Memory.shop [])
       = Some (r', s2)
    /\ world s2 = world s1
    /\ ((forall t, ~ call_throws Memory.collection Memory.rejecting_index
                     (mkParams "oak" None) Memory.shop t) ->
        r' = Return o)
    /\ (forall t,
          call_throws Memory.collection Memory.rejecting_index
            (mkParams "oak" None) Memory.shop t ->
          o = failure (Some (message_or_string t)) "oak"
          /\ r' = match t with
                  | ThrownError e => Return (failure (Some (message e)) "oak")
                  | ThrownValue _ => Return (failure None "oak")
                  | ThrownNullish nullish => Throw (cannot_read nullish "message")
                  end).
Proof.
  apply (lookup_refactoring_preserves_the_envelope
           Memory.collection Memory.rejecting_index
           (mkParams "oak" None) (mkSt Memory.shop [])).
  intros w. eexists. reflexivity.
Defined.

(** ** The seeding script *)

Lemma append_assoc (a b c : string) :
  ((a ++ b) ++ c = a ++ b ++ c)%string.
Proof. induction a as [|x a IH]; simpl; [reflexivity|now rewrite IH]. Qed.

Lemma append_empty_r (a : string) : (a ++ "" = a)%string.
Proof. induction a as [|x a IH]; simpl; [reflexivity|now rewrite IH]. Qed.

Lemma prefix_append (a b : string) : String.prefix a (a ++ b) = true.
Proof.
  induction a as [|x a IH]; simpl; [now destruct b|].
  destruct (Ascii.ascii_dec x x); [exact IH|congruence].
Qed.

Lemma occurs_refl (s : string) : occurs s s.
Proof. exists ""%string, ""%string. simpl. now rewrite append_empty_r. Qed.

Lemma occurs_app_l (s a b : string) : occurs s a -> occurs s (a ++ b).
Proof.
  intros (x & y & ->). exists x, (y ++ b)%string.
  now rewrite !append_assoc.
Qed.

Lemma occurs_app_r (s a b : string) : occurs s b -> occurs s (a ++ b).
Proof.
  intros (x & y & ->). exists (a ++ x)%string, y.
  now rewrite !append_assoc.
Qed.

Lemma occurs_join (separator x : string) (l : list string) :
  In x l -> occurs x (join separator l).
Proof.
  induction l as [|y l IH]; intros Hin; [contradiction|].
  destruct Hin as [->|Hin].
  - destruct l; [apply occurs_refl|].
    cbn [join]. apply occurs_app_l, occurs_refl.
  - destruct l as [|z l]; [contradiction|].
    change (join separator (y :: z :: l))
      with (y ++ separator ++ join separator (z :: l))%string.
    apply occurs_app_r, occurs_app_r, IH, Hin.
Qed.

(** Find a text in a concatenation. *)
Ltac find_occurrence :=
  solve [ apply occurs_refl
        | eassumption
        | apply occurs_app_l; find_occurrence
        | apply occurs_app_r; find_occurrence ].

(** X12.  The summary of an item, which becomes its [embedding_text],
    begins with the name of the item and contains its description, its
    brand, the country of its manufacturer, its notes, each of its
    categories, and the date, rating and comment of each of its
    reviews. *)
Theorem summary_contains_the_searched_texts
  {number : Type} (number_toString : number -> string) (item : Seed.Item) :
  String.prefix (Seed.item_name item)
                (Seed.createItemSummary number_toString item) = true
  /\ occurs (Seed.item_description item)
            (Seed.createItemSummary number_toString item)
  /\ occurs (Seed.brand item) (Seed.createItemSummary number_toString item)
  /\ occurs (Seed.country (Seed.manufacturer_address item))
            (Seed.createItemSummary number_toString item)
  /\ occurs (Seed.notes item) (Seed.createItemSummary number_toString item)
  /\ (forall category, In category (Seed.categories item) ->
        occurs category (Seed.createItemSummary number_toString item))
  /\ (forall review, In review (Seed.user_reviews item) ->
        occurs (Seed.comment review) (Seed.createItemSummary number_toString item)
        /\ occurs (Seed.review_date review)
                  (Seed.createItemSummary number_toString item)
        /\ occurs (number_toString (Seed.rating review))
                  (Seed.createItemSummary number_toString item)).
Proof.
  unfold Seed.createItemSummary. cbv zeta.
  split; [rewrite !append_assoc; apply prefix_append|].
  split; [find_occurrence|]. split; [find_occurrence|].
  split; [find_occurrence|]. split; [find_occurrence|]. split.
  - intros category Hin.
    pose proof (occurs_join ", " category _ Hin). find_occurrence.
  - intros review Hin.
    assert (Htext : occurs (Seed.review_text number_toString review)
                      (join " " (map (Seed.review_text number_toString)
                                     (Seed.user_reviews item))))
      by (apply occurs_join, in_map, Hin).
    assert (Hin_text : forall s, occurs s (Seed.review_text number_toString review) ->
              occurs s (join " " (map (Seed.review_text number_toString)
                                      (Seed.user_reviews item)))).
    { intros s0 (a & b & Hs). destruct Htext as (x & y & ->).
      exists (x ++ a)%string, (b ++ y)%string.
      rewrite Hs, !append_assoc. reflexivity. }
    split; [|split].
    + pose proof (Hin_text (Seed.comment review)
                    ltac:(unfold Seed.review_text; find_occurrence)).
      find_occurrence.
    + pose proof (Hin_text (Seed.review_date review)
                    ltac:(unfold Seed.review_text; find_occurrence)).
      find_occurrence.
    + pose proof (Hin_text (number_toString (Seed.rating review))
                    ltac:(unfold Seed.review_text; find_occurrence)).
      find_occurrence.
Qed.

Lemma summary_contains_the_searched_texts_witness :
  Seed.createItemSummary Number_toString Doubles.oak_table
  = "Oak Table A solid oak dining table from the brand Nordwood. Manufacturer: Made in USA. Categories: tables, dining. Reviews: Rated 5 on 2024-05-01: Sturdy and beautiful. Price: At full price it costs: 500 USD, On sale it costs: 399 USD. Notes: Ships flat"
  /\ occurs "dining" (Seed.createItemSummary Number_toString Doubles.oak_table).
Proof.
  split; [reflexivity|].
  apply (proj1 (proj2 (proj2 (proj2 (proj2 (proj2
           (summary_contains_the_searched_texts Number_toString Doubles.oak_table))))))).
  simpl. tauto.
Defined.

Section SeedFacts.

Context {number D : Type}.
Variable number_toString : number -> string.
Variable b : @Seed.Backend number D.

Local Abbreviation Ev := (@Seed.SeedEvent number).

Lemma store_calls_app (x y : list Ev) :
  Seed.store_calls (x ++ y) = Seed.store_calls x ++ Seed.store_calls y.
Proof.
  induction x as [|e x IH]; simpl; [reflexivity|].
  destruct e; simpl; now rewrite IH.
Qed.

Lemma store_calls_stores (records : list Seed.Document) :
  Seed.store_calls (map (@Seed.EvStore number) records) = records.
Proof. induction records as [|r l IH]; simpl; [reflexivity|now rewrite IH]. Qed.

Lemma stores_not_close (records : list Seed.Document) :
  Forall Seed.not_close (map (@Seed.EvStore number) records).
Proof. induction records; constructor; [reflexivity|assumption]. Qed.

(** The loop calls [fromDocuments] for the records in order and stops
    at the first call that fails: [k] calls are made, the first [j] of
    them succeed. *)
Lemma store_all_shape (records : list Seed.Document) :
  forall st : D * list Ev,
  exists (r : Outcome unit) (k j : nat),
    Seed.store_all b records st
    = (r, (Seed.store_after b (firstn k records) (fst st),
           snd st ++ map (@Seed.EvStore number) (firstn k records)))
    /\ (k <= length records)%nat
    /\ (forall i record,
          (i < j)%nat ->
          nth_error records i = Some record ->
          fst (Seed.fromDocuments b record
                 (Seed.store_after b (firstn i records) (fst st)))
          = Return tt)
    /\ ((r = Return tt /\ k = j /\ k = length records)
        \/ (k = S j
            /\ exists t record,
                 r = Throw t
                 /\ nth_error records j = Some record
                 /\ fst (Seed.fromDocuments b record
                           (Seed.store_after b (firstn j records) (fst st)))
                    = Throw t)).
Proof.
  induction records as [|record rest IH]; intros st.
  - exists (Return tt), 0%nat, 0%nat. cbn [Seed.store_all firstn map]. unfold sret.
    rewrite app_nil_r. cbn [Seed.store_after length]. destruct st.
    split; [reflexivity|]. split; [lia|]. split; [intros i record Hi; lia|].
    left. now repeat split.
  - cbn [Seed.store_all]. unfold sbind at 1, scall at 1.
    destruct (Seed.fromDocuments b record (fst st)) as [[[]|t] d1] eqn:Hstore.
    + destruct (IH (d1, snd st ++ [Seed.EvStore record]))
        as (r & k & j & Hrun & Hk & Hdone & Hend).
      cbn [fst snd] in Hrun, Hdone, Hend.
      exists r, (S k), (S j). rewrite Hrun.
      cbn [firstn map length Seed.store_after]. rewrite ?Hstore. cbn [snd].
      rewrite <- app_assoc. split; [reflexivity|]. split; [lia|]. split.
      * intros i rec Hi Hnth. destruct i as [|i].
        -- cbn [nth_error] in Hnth. injection Hnth as <-.
           cbn [firstn Seed.store_after]. now rewrite ?Hstore.
        -- cbn [nth_error firstn Seed.store_after] in *. rewrite ?Hstore.
           cbn [snd]. apply Hdone; [lia|exact Hnth].
      * destruct Hend as [(Hr & Hkj & Hall)|(Hkj & t & rec & Hr & Hnth & Hthrow)].
        -- left. repeat split; [exact Hr|lia|lia].
        -- right. split; [lia|]. exists t, rec.
           cbn [nth_error firstn Seed.store_after]. rewrite ?Hstore. cbn [snd].
           now repeat split.
    + exists (Throw t), 1%nat, 0%nat.
      cbn [fst snd firstn map length Seed.store_after]. rewrite ?Hstore. cbn [snd].
      split; [reflexivity|]. split; [lia|]. split; [intros i rec Hi; lia|].
      right. split; [reflexivity|]. exists t, record.
      cbn [nth_error firstn Seed.store_after]. rewrite ?Hstore. now repeat split.
Qed.

(** Quiet scripts. *)

Lemma quiet_call {A} (e : Ev) (op : Op D A) :
  Seed.is_store e = false -> Seed.is_close e = false ->
  Seed.quiet (scall e op).
Proof.
  intros Hs Hc st. unfold scall. destruct (op (fst st)) as [r d1].
  exists r, d1, [e]. split; [reflexivity|]. split.
  - destruct e; try reflexivity; discriminate.
  - constructor; [exact Hc|constructor].
Qed.

Lemma quiet_ret {A} (a : A) : Seed.quiet (sret (E := Ev) (W := D) a).
Proof.
  intros st. exists (Return a), (fst st), []. rewrite app_nil_r.
  destruct st. repeat split. constructor.
Qed.

Lemma quiet_bind {A B} (c : Script Ev D A) (k : A -> Script Ev D B) :
  Seed.quiet c -> (forall a, Seed.quiet (k a)) -> Seed.quiet (sbind c k).
Proof.
  intros Hc Hk st. unfold sbind.
  destruct (Hc st) as (r & d1 & ev & -> & Hs & Hn).
  destruct r as [a|t].
  - destruct (Hk a (d1, snd st ++ ev)) as (r2 & d2 & ev2 & -> & Hs2 & Hn2).
    exists r2, d2, (ev ++ ev2). cbn [snd]. rewrite app_assoc.
    split; [reflexivity|]. split; [rewrite store_calls_app, Hs, Hs2; reflexivity|].
    apply Forall_app. now split.
  - exists (Throw t), d1, ev. repeat split; assumption.
Qed.

Lemma quiet_catch {A} (c : Script Ev D A) (handler : Thrown -> Script Ev D A) :
  Seed.quiet c -> (forall t, Seed.quiet (handler t)) -> Seed.quiet (scatch c handler).
Proof.
  intros Hc Hh st. unfold scatch.
  destruct (Hc st) as (r & d1 & ev & -> & Hs & Hn).
  destruct r as [a|t].
  - exists (Return a), d1, ev. repeat split; assumption.
  - destruct (Hh t (d1, snd st ++ ev)) as (r2 & d2 & ev2 & -> & Hs2 & Hn2).
    exists r2, d2, (ev ++ ev2). cbn [snd]. rewrite app_assoc.
    split; [reflexivity|]. split; [rewrite store_calls_app, Hs, Hs2; reflexivity|].
    apply Forall_app. now split.
Qed.

Lemma quiet_setup : Seed.quiet (Seed.setupDatabaseAndCollection b).
Proof.
  unfold Seed.setupDatabaseAndCollection.
  apply quiet_bind; [now apply quiet_call|].
  intros collections. destruct (Z.of_nat (length collections) =? 0).
  - now apply quiet_call.
  - apply quiet_ret.
Qed.

Lemma quiet_index : Seed.quiet (Seed.createVectorSearchIndex b).
Proof.
  unfold Seed.createVectorSearchIndex.
  apply quiet_catch.
  - apply quiet_bind; [now apply quiet_call|]. intros _. now apply quiet_call.
  - intros t. apply quiet_ret.
Qed.

(** A script that ends before the first call of [fromDocuments]. *)
Lemma clears_then_stores_none {A} (c : Script Ev D A) (st : D * list Ev)
      (r : Outcome A) (d1 : D) (pre : list Ev) :
  c st = (r, (d1, snd st ++ pre)) ->
  Seed.store_calls pre = [] ->
  Forall Seed.not_close pre ->
  exists r' d0 pre0 items k j,
    c st = (r', (Seed.store_after b
                   (firstn k (map (Seed.to_document number_toString) items)) d0,
                 snd st ++ pre0
                   ++ map (@Seed.EvStore number)
                          (firstn k (map (Seed.to_document number_toString) items))))
    /\ Seed.store_calls pre0 = []
    /\ Forall Seed.not_close pre0
    /\ (k <= length items)%nat
    /\ (1 <= k ->
        exists pre' response,
          pre0 = pre' ++ [Seed.EvDeleteMany;
                          Seed.EvLlmInvoke (Seed.generation_prompt b)]
          /\ Seed.parse b response = Return items)%nat
    /\ (forall i record,
          (i < j)%nat ->
          nth_error (map (Seed.to_document number_toString) items) i = Some record ->
          fst (Seed.fromDocuments b record
                 (Seed.store_after b
                    (firstn i (map (Seed.to_document number_toString) items)) d0))
          = Return tt)
    /\ ((k = j /\ (k = 0%nat \/ k = length items))
        \/ (k = S j
            /\ exists t record,
                 r' = Throw t
                 /\ nth_error (map (Seed.to_document number_toString) items) j
                    = Some record
                 /\ fst (Seed.fromDocuments b record
                           (Seed.store_after b
                              (firstn j (map (Seed.to_document number_toString)
                                             items)) d0))
                    = Throw t)).
Proof.
  intros Hrun Hs Hn. exists r, d1, pre, [], 0%nat, 0%nat.
  cbn [firstn map Seed.store_after length]. rewrite app_nil_r.
  split; [exact Hrun|]. split; [exact Hs|]. split; [exact Hn|]. split; [lia|].
  split; [intros; lia|]. split; [intros; lia|]. left. split; [reflexivity|now left].
Qed.

(** Quiet steps in front do not change what is stored. *)
Lemma clears_then_stores_after {A B}
      (c : Script Ev D A) (k : A -> Script Ev D B) :
  Seed.quiet c ->
  (forall a, Seed.clears_then_stores number_toString b (k a)) ->
  Seed.clears_then_stores number_toString b (sbind c k).
Proof.
  intros Hc Hk st.
  destruct (Hc st) as (r & d1 & ev & Hrun & Hs & Hn).
  destruct r as [a|t].
  - unfold sbind. rewrite Hrun.
    destruct (Hk a (d1, snd st ++ ev))
      as (r2 & d0 & pre & items & n & j & -> & Hs2 & Hn2 & Hle & Hgen & Hdone & Hend).
    exists r2, d0, (ev ++ pre), items, n, j. cbn [snd].
    rewrite <- !app_assoc. split; [reflexivity|].
    split; [rewrite store_calls_app, Hs, Hs2; reflexivity|].
    split; [apply Forall_app; now split|]. split; [exact Hle|].
    split; [|split; assumption].
    intros Hn1. destruct (Hgen Hn1) as (pre' & response & -> & Hparse).
    exists (ev ++ pre'), response. now rewrite <- app_assoc.
  - apply (clears_then_stores_none (sbind c k) st (Throw t) d1 ev); try assumption.
    unfold sbind. now rewrite Hrun.
Qed.

(** Clearing, generating and storing. *)
Lemma clears_then_stores_tail :
  Seed.clears_then_stores number_toString b
    (sbind (scall Seed.EvDeleteMany (Seed.deleteMany b)) (fun _ =>
     sbind (Seed.generateData b) (fun items =>
     Seed.store_all b (map (Seed.to_document number_toString) items)))).
Proof.
  intros st.
  set (c := sbind (scall Seed.EvDeleteMany (Seed.deleteMany b)) (fun _ =>
            sbind (Seed.generateData b) (fun items =>
            Seed.store_all b (map (Seed.to_document number_toString) items)))).
  destruct (Seed.deleteMany b (fst st)) as [[[]|t] d1] eqn:Hdelete.
  2:{ apply (clears_then_stores_none c st (Throw t) d1 [Seed.EvDeleteMany]);
        [|reflexivity|repeat constructor].
      unfold c, sbind at 1, scall at 1. now rewrite Hdelete. }
  destruct (Seed.llm_invoke b (Seed.generation_prompt b) d1)
    as [[response|t] d2] eqn:Hllm.
  2:{ apply (clears_then_stores_none c st (Throw t) d2
               [Seed.EvDeleteMany; Seed.EvLlmInvoke (Seed.generation_prompt b)]);
        [|reflexivity|repeat constructor].
      unfold c, sbind at 1, scall at 1. rewrite Hdelete.
      unfold sbind at 1, Seed.generateData, sbind at 1, scall at 1. cbn [fst snd].
      rewrite Hllm. now rewrite <- app_assoc. }
  destruct (Seed.parse b response) as [items|t] eqn:Hparse.
  2:{ apply (clears_then_stores_none c st (Throw t) d2
               [Seed.EvDeleteMany; Seed.EvLlmInvoke (Seed.generation_prompt b)]);
        [|reflexivity|repeat constructor].
      unfold c, sbind at 1, scall at 1. rewrite Hdelete.
      unfold sbind at 1, Seed.generateData, sbind at 1, scall at 1. cbn [fst snd].
      rewrite Hllm. unfold slift. rewrite Hparse. now rewrite <- app_assoc. }
  destruct (store_all_shape (map (Seed.to_document number_toString) items)
              (d2, (snd st ++ [Seed.EvDeleteMany])
                     ++ [Seed.EvLlmInvoke (Seed.generation_prompt b)]))
    as (r & k & j & Hrun & Hk & Hdone & Hend).
  cbn [fst snd] in Hrun, Hdone, Hend. rewrite length_map in Hk, Hend.
  exists r, d2, [Seed.EvDeleteMany; Seed.EvLlmInvoke (Seed.generation_prompt b)],
         items, k, j.
  split.
  { unfold c, sbind at 1, scall at 1. rewrite Hdelete.
    unfold sbind at 1, Seed.generateData, sbind at 1, scall at 1. cbn [fst snd].
    rewrite Hllm. unfold slift. rewrite Hparse, Hrun. now rewrite <- !app_assoc. }
  split; [reflexivity|]. split; [repeat constructor|]. split; [exact Hk|]. split.
  { intros _. exists [], response. now split. }
  split; [exact Hdone|].
  destruct Hend as [(_ & Hkj & Hall)|Hfail]; [left; now split; [|right]|now right].
Qed.

Lemma clears_then_stores_steps :
  Seed.clears_then_stores number_toString b (Seed.seed_steps number_toString b).
Proof.
  unfold Seed.seed_steps.
  apply clears_then_stores_after; [now apply quiet_call|]. intros _.
  apply clears_then_stores_after; [now apply quiet_call|]. intros _.
  apply clears_then_stores_after; [apply quiet_setup|]. intros _.
  apply clears_then_stores_after; [apply quiet_index|]. intros _.
  apply clears_then_stores_tail.
Qed.

(** [seedDatabase] closes the client on whatever its [try] block left. *)
Lemma seedDatabase_closes (st : D * list Ev) (r : Outcome unit) (d1 : D)
      (body : list Ev) :
  Seed.seed_steps number_toString b st = (r, (d1, snd st ++ body)) ->
  Seed.seedDatabase number_toString b st
  = (fst (Seed.close b d1),
     (snd (Seed.close b d1), snd st ++ body ++ [Seed.EvClose])).
Proof.
  intros Hrun. unfold Seed.seedDatabase, sfinally, scatch. rewrite Hrun.
  assert (Hcaught : (match r with
                     | Return a => (Return a, (d1, snd st ++ body))
                     | Throw t => sret tt (d1, snd st ++ body)
                     end)
                    = (Return tt, (d1, snd st ++ body)))
    by (destruct r as [[]|t]; reflexivity).
  rewrite Hcaught. unfold scall. cbn [fst snd].
  destruct (Seed.close b d1) as [[[]|t] d2]; cbn [fst snd];
    now rewrite <- !app_assoc.
Qed.

End SeedFacts.

Section SeedRuns.

Context {number D : Type}.
Variable number_toString : number -> string.
Variable b : @Seed.Backend number D.

Lemma index_returns (st : D * list (@Seed.SeedEvent number)) :
  exists d1 ev,
    Seed.createVectorSearchIndex b st = (Return tt, (d1, snd st ++ ev))
    /\ Seed.store_calls ev = [].
Proof.
  unfold Seed.createVectorSearchIndex, scatch, sbind, scall, sret.
  destruct (Seed.dropIndexes b (fst st)) as [[[]|t] d1]; cbn [fst snd].
  - destruct (Seed.createSearchIndex b d1) as [[[]|t] d2];
      exists d2, [Seed.EvDropIndexes; Seed.EvCreateSearchIndex];
      rewrite <- app_assoc; now split.
  - exists d1, [Seed.EvDropIndexes]. now split.
Qed.

Lemma setup_returns (st : D * list (@Seed.SeedEvent number)) :
  (forall d, exists names d', Seed.listCollections b d = (Return names, d')) ->
  (forall d, exists d', Seed.createCollection b d = (Return tt, d')) ->
  exists d1 ev,
    Seed.setupDatabaseAndCollection b st = (Return tt, (d1, snd st ++ ev))
    /\ Seed.store_calls ev = [].
Proof.
  intros Hlist Hcreate.
  unfold Seed.setupDatabaseAndCollection, sbind, scall, sret.
  destruct (Hlist (fst st)) as (names & d1 & ->). cbn [fst snd].
  destruct (Z.of_nat (length names) =? 0); cbn [fst snd].
  - destruct (Hcreate d1) as (d2 & ->).
    exists d2, [Seed.EvListCollections; Seed.EvCreateCollection].
    rewrite <- app_assoc. now split.
  - exists d1, [Seed.EvListCollections]. now split.
Qed.

End SeedRuns.

(** X13.  [createVectorSearchIndex] never fails.  When dropping the
    indexes fails, the search index is not created at all; when it
    succeeds, the index is requested once, and a failure of that
    request is swallowed too. *)
Theorem createVectorSearchIndex_never_fails
  {number D : Type} (b : @Seed.Backend number D)
  (st : D * list (@Seed.SeedEvent number)) :
  exists d1 ev,
    Seed.createVectorSearchIndex b st = (Return tt, (d1, snd st ++ ev))
    /\ ((exists t, Seed.dropIndexes b (fst st) = (Throw t, d1)
                   /\ ev = [Seed.EvDropIndexes])
        \/ (exists d0,
              Seed.dropIndexes b (fst st) = (Return tt, d0)
              /\ d1 = snd (Seed.createSearchIndex b d0)
              /\ ev = [Seed.EvDropIndexes; Seed.EvCreateSearchIndex])).
Proof.
  unfold Seed.createVectorSearchIndex, scatch, sbind, scall, sret.
  destruct (Seed.dropIndexes b (fst st)) as [[[]|t] d1]; cbn [fst snd].
  - destruct (Seed.createSearchIndex b d1) as [[[]|t] d2] eqn:Hcreate;
      exists d2, [Seed.EvDropIndexes; Seed.EvCreateSearchIndex];
      rewrite <- app_assoc; (split; [reflexivity|]); right; exists d1;
      rewrite Hcreate; now repeat split.
  - exists d1, [Seed.EvDropIndexes]. split; [reflexivity|]. left. now exists t.
Qed.

(** X14.  [seedDatabase] closes the client exactly once, as the last
    thing it does, whatever happened before; and it fails only when
    closing fails, with the error of the close. *)
Theorem seedDatabase_always_closes
  {number D : Type} (number_toString : number -> string)
  (b : @Seed.Backend number D) (st : D * list (@Seed.SeedEvent number)) :
  exists d1 body,
    Seed.seedDatabase number_toString b st
    = (fst (Seed.close b d1),
       (snd (Seed.close b d1), snd st ++ body ++ [Seed.EvClose]))
    /\ Forall (fun e => Seed.is_close e = false) body.
Proof.
  destruct (clears_then_stores_steps number_toString b st)
    as (r & d0 & pre & items & k & j & Hrun & _ & Hpre & _).
  eexists _, (pre ++ map Seed.EvStore
                        (firstn k (map (Seed.to_document number_toString) items))).
  split.
  - apply (seedDatabase_closes number_toString b st r). exact Hrun.
  - apply Forall_app. split; [exact Hpre|apply stores_not_close].
Qed.


(** X16.  When the answer of the model cannot be parsed and everything
    else works, [seedDatabase] ends normally with the collection
    cleared and nothing stored: clearing comes before generating, and
    the failure is only logged. *)
Theorem seedDatabase_generation_failure_leaves_it_cleared
  {number D : Type} (number_toString : number -> string)
  (b : @Seed.Backend number D) (st : D * list (@Seed.SeedEvent number)) :
  (forall d, exists d', Seed.connect b d = (Return tt, d')) ->
  (forall d, exists d', Seed.ping b d = (Return tt, d')) ->
  (forall d, exists names d', Seed.listCollections b d = (Return names, d')) ->
  (forall d, exists d', Seed.createCollection b d = (Return tt, d')) ->
  (forall d, exists d', Seed.deleteMany b d = (Return tt, d')) ->
  (forall prompt d, exists text d', Seed.llm_invoke b prompt d = (Return text, d')) ->
  (forall text, exists t, Seed.parse b text = Throw t) ->
  (forall d, exists d', Seed.close b d = (Return tt, d')) ->
  exists d1 pre,
    Seed.seedDatabase number_toString b st
    = (Return tt,
       (d1, snd st ++ pre ++ [Seed.EvDeleteMany;
                              Seed.EvLlmInvoke (Seed.generation_prompt b);
                              Seed.EvClose]))
    /\ Seed.store_calls (pre ++ [Seed.EvDeleteMany;
                            Seed.EvLlmInvoke (Seed.generation_prompt b);
                            Seed.EvClose]) = [].
Proof.
  intros Hconnect Hping Hlist Hcreate Hdelete Hllm Hparse Hclose.
  unfold Seed.seedDatabase, sfinally, scatch, Seed.seed_steps.
  unfold sbind at 1, scall at 1.
  destruct (Hconnect (fst st)) as (d1 & ->). cbn [fst snd].
  unfold sbind at 1, scall at 1. cbn [fst snd].
  destruct (Hping d1) as (d2 & ->). cbn [fst snd].
  unfold sbind at 1.
  destruct (setup_returns b (d2, (snd st ++ [Seed.EvConnect]) ++ [Seed.EvPing])
              Hlist Hcreate) as (d3 & ev3 & -> & Hs3).
  unfold sbind at 1. cbn [snd].
  destruct (index_returns b (d3, ((snd st ++ [Seed.EvConnect]) ++ [Seed.EvPing]) ++ ev3))
    as (d4 & ev4 & -> & Hs4).
  unfold sbind at 1, scall at 1. cbn [fst snd].
  destruct (Hdelete d4) as (d5 & ->). cbn [fst snd].
  unfold sbind at 1, Seed.generateData, sbind at 1, scall at 1. cbn [fst snd].
  destruct (Hllm (Seed.generation_prompt b) d5) as (text & d6 & ->). cbn [fst snd].
  unfold slift. destruct (Hparse text) as (t & ->).
  unfold sret, scall. cbn [fst snd].
  destruct (Hclose d6) as (d7 & ->).
  exists d7, ([Seed.EvConnect; Seed.EvPing] ++ ev3 ++ ev4).
  split; [now rewrite <- !app_assoc|].
  rewrite !store_calls_app, Hs3, Hs4. reflexivity.
Qed.

Lemma seedDatabase_generation_failure_leaves_it_cleared_witness :
  exists d1 pre,
    Seed.seedDatabase Number_toString
      (Doubles.seed_backend (Throw (ThrownError (new_Error "Failed to parse"))) "")
      ([Seed.to_document Number_toString Doubles.stool], [])
    = (Return tt,
       (d1, [] ++ pre
              ++ [Seed.EvDeleteMany;
                  Seed.EvLlmInvoke
                    (Seed.generation_prompt
                       (Doubles.seed_backend
                          (Throw (ThrownError (new_Error "Failed to parse"))) ""));
                  Seed.EvClose]))
    /\ Seed.store_calls
         (pre ++ [Seed.EvDeleteMany;
                  Seed.EvLlmInvoke
                    (Seed.generation_prompt
                       (Doubles.seed_backend
                          (Throw (ThrownError (new_Error "Failed to parse"))) ""));
                  Seed.EvClose]) = [].
Proof.
  apply (seedDatabase_generation_failure_leaves_it_cleared Number_toString
           (Doubles.seed_backend (Throw (ThrownError (new_Error "Failed to parse"))) "")
           ([Seed.to_document Number_toString Doubles.stool], [])).
  - intros d. eexists. reflexivity.
  - intros d. eexists. reflexivity.
  - intros d. eexists _, _. reflexivity.
  - intros d. eexists. reflexivity.
  - intros d. eexists. reflexivity.
  - intros prompt d. eexists _, _. reflexivity.
  - intros text. eexists. reflexivity.
  - intros d. eexists. reflexivity.
Defined.


(** ** The HTTP endpoints *)

Lemma callAgent_total
  {W Hit Doc : Type}
  (model_invoke : list (BaseMessage Hit Doc) -> Op W (BaseMessage Hit Doc))
  (now : W -> string) (c : Collection W Doc) (v : VectorStore W Hit)
  (saved : list (BaseMessage Hit Doc)) (query : string) (s : St W) :
  exists r s', callAgent model_invoke now c v saved query s = Some (r, s').
Proof.
  destruct (invoke_total model_invoke now c v configured_recursionLimit
              saved [HumanMessage query] s) as (r0 & s0 & Hrun).
  unfold callAgent, try_catch, bind. rewrite Hrun.
  destruct r0 as [final|t0].
  - destruct (lastMessage final); eexists _, _; reflexivity.
  - destruct t0 as [e|rendering|nullish];
      [|eexists _, _; reflexivity|eexists _, _; reflexivity].
    destruct (status_is (ThrownError e) 429);
      [|destruct (status_is (ThrownError e) 401)]; eexists _, _; reflexivity.
Qed.


(** ** The launcher *)

Section LauncherFacts.

Context {P : Type}.
Variable spawnSync : StartAll.Command -> Op P StartAll.SpawnSyncResult.
Variable spawn : StartAll.Command -> Op P unit.

Local Abbreviation initial_part := (StartAll.runs_initial_part (P := P)).

Lemma status_or_1_nonzero (res : StartAll.SpawnSyncResult) :
  StartAll.status_or_1 res <> 0.
Proof.
  unfold StartAll.status_or_1. destruct (StartAll.status res) as [code|]; [|lia].
  destruct (Z.eqb_spec code 0); lia.
Qed.

(** A guarded synchronous command: when [spawnSync] throws, the handler
    decides; here it goes on, or leaves with code 1. *)
Lemma runSync_guarded (c : StartAll.Command) (handler : StartAll.Proc unit) :
  (handler = StartAll.pcontinue \/ handler = StartAll.pexit 1) ->
  initial_part (StartAll.ptry (StartAll.runSync spawnSync c) handler)
               [StartAll.EvRunSync c].
Proof.
  intros Hh st. unfold StartAll.ptry, StartAll.runSync.
  destruct (spawnSync c (fst st)) as [[res|t] p1].
  - destruct (StartAll.error res).
    + exists (StartAll.Exit (StartAll.status_or_1 res)), p1, 1%nat.
      repeat split; try reflexivity; try discriminate; simpl; try lia.
      intros code Hc. injection Hc as <-. apply status_or_1_nonzero.
    + destruct (StartAll.status_not_0 res).
      * exists (StartAll.Exit (StartAll.status_or_1 res)), p1, 1%nat.
        repeat split; try reflexivity; try discriminate; simpl; try lia.
        intros code Hc. injection Hc as <-. apply status_or_1_nonzero.
      * exists (StartAll.Continue tt), p1, 1%nat.
        repeat split; try reflexivity; try discriminate; simpl; lia.
  - destruct Hh as [->| ->].
    + exists (StartAll.Continue tt), p1, 1%nat.
      repeat split; try reflexivity; try discriminate; simpl; lia.
    + exists (StartAll.Exit 1), p1, 1%nat.
      repeat split; try reflexivity; try discriminate; simpl; try lia.
      intros code Hc. injection Hc as <-. lia.
Qed.

Lemma runSync_initial (c : StartAll.Command) :
  initial_part (StartAll.runSync spawnSync c) [StartAll.EvRunSync c].
Proof.
  intros st. unfold StartAll.runSync.
  destruct (spawnSync c (fst st)) as [[res|t] p1].
  - destruct (StartAll.error res).
    + exists (StartAll.Exit (StartAll.status_or_1 res)), p1, 1%nat.
      repeat split; try reflexivity; try discriminate; simpl; try lia.
      intros code Hc. injection Hc as <-. apply status_or_1_nonzero.
    + destruct (StartAll.status_not_0 res).
      * exists (StartAll.Exit (StartAll.status_or_1 res)), p1, 1%nat.
        repeat split; try reflexivity; try discriminate; simpl; try lia.
        intros code Hc. injection Hc as <-. apply status_or_1_nonzero.
      * exists (StartAll.Continue tt), p1, 1%nat.
        repeat split; try reflexivity; try discriminate; simpl; lia.
  - exists (StartAll.Raise t), p1, 1%nat.
    repeat split; try reflexivity; try discriminate; simpl; lia.
Qed.

Lemma startProcess_initial (prefix : string) (c : StartAll.Command) :
  initial_part (StartAll.startProcess spawn prefix c) [StartAll.EvSpawn prefix c].
Proof.
  intros st. unfold StartAll.startProcess.
  destruct (spawn c (fst st)) as [[[]|t] p1].
  - exists (StartAll.Continue tt), p1, 1%nat.
    repeat split; try reflexivity; try discriminate; simpl; lia.
  - exists (StartAll.Raise t), p1, 1%nat.
    repeat split; try reflexivity; try discriminate; simpl; lia.
Qed.

(** One piece after another. *)
Lemma initial_part_bind (c k : StartAll.Proc unit) (l1 l2 : list StartAll.ProcEvent) :
  l1 <> [] ->
  initial_part c l1 -> initial_part k l2 ->
  initial_part (StartAll.pbind c (fun _ => k)) (l1 ++ l2).
Proof.
  intros Hne Hc Hk st. unfold StartAll.pbind.
  destruct (Hc st) as (r & p1 & n & -> & Hn & Hpos & Hall & Hcode).
  assert (Hstop : firstn n (l1 ++ l2) = firstn n l1)
    by (rewrite firstn_app; replace (n - length l1)%nat with 0%nat by lia;
        simpl; apply app_nil_r).
  destruct r as [[]|t|code].
  - specialize (Hall eq_refl). subst n.
    destruct (Hk (p1, snd st ++ firstn (length l1) l1))
      as (r2 & p2 & m & -> & Hm & Hpos2 & Hall2 & Hcode2).
    exists r2, p2, (length l1 + m)%nat. cbn [snd].
    rewrite firstn_all, <- app_assoc, firstn_app_2, length_app.
    split; [reflexivity|]. split; [lia|]. split; [specialize (Hpos Hne); lia|].
    split; [|exact Hcode2]. intros Hr. rewrite (Hall2 Hr). reflexivity.
  - exists (StartAll.Raise t), p1, n. rewrite Hstop, length_app.
    split; [reflexivity|]. split; [lia|]. split; [intros _; now apply Hpos|].
    split; discriminate.
  - exists (StartAll.Exit code), p1, n. rewrite Hstop, length_app.
    split; [reflexivity|]. split; [lia|]. split; [intros _; now apply Hpos|].
    split; [discriminate|exact Hcode].
Qed.

(** The outer [try]: what throws inside leaves with code 1. *)
Lemma initial_part_guard (c : StartAll.Proc unit) (l : list StartAll.ProcEvent) :
  initial_part c l ->
  forall st,
    exists r p1 k,
      StartAll.ptry c (StartAll.pexit 1) st = (r, (p1, snd st ++ firstn k l))
      /\ (k <= length l)%nat
      /\ (l <> [] -> 1 <= k)%nat
      /\ (r = StartAll.Continue tt -> k = length l)
      /\ (forall code, r = StartAll.Exit code -> code <> 0)
      /\ (forall t, r <> StartAll.Raise t).
Proof.
  intros Hc st. unfold StartAll.ptry, StartAll.pexit.
  destruct (Hc st) as (r & p1 & n & -> & Hn & Hpos & Hall & Hcode).
  destruct r as [[]|t|code].
  - exists (StartAll.Continue tt), p1, n. repeat split; auto; discriminate.
  - exists (StartAll.Exit 1), p1, n. repeat split; auto; try discriminate.
    intros code Hc1. injection Hc1 as <-. lia.
  - exists (StartAll.Exit code), p1, n. repeat split; auto; discriminate.
Qed.

End LauncherFacts.

(** X18.  The launcher does an initial part of one fixed sequence: the
    five synchronous commands (node and npm versions, the two installs,
    the seed), then the backend and the frontend dev servers.  It goes
    on to the end only when nothing made it leave; a command that ends
    with an error or a status other than 0 makes it leave at once, with
    a code that is never 0, so that no later command runs and no server
    is started after a failed install or seed; and no exception escapes
    [main]. *)
Theorem launcher_stops_at_the_first_failure
  {P : Type}
  (spawnSync : StartAll.Command -> Op P StartAll.SpawnSyncResult)
  (spawn : StartAll.Command -> Op P unit)
  (execPath ROOT BACKEND : string) (st : P * list StartAll.ProcEvent) :
  exists r p1 k,
    StartAll.main spawnSync spawn execPath ROOT BACKEND st
    = (r, (p1, snd st ++ firstn k (StartAll.full_run execPath ROOT BACKEND)))
    /\ (1 <= k <= 7)%nat
    /\ (r = StartAll.Continue tt -> k = 7%nat)
    /\ (forall code, r = StartAll.Exit code -> code <> 0)
    /\ (forall t, r <> StartAll.Raise t)
    /\ length (filter StartAll.is_spawn
                      (firstn k (StartAll.full_run execPath ROOT BACKEND)))
       = (k - 5)%nat.
Proof.
  assert (Hbody : StartAll.runs_initial_part
            (StartAll.pbind
               (StartAll.ptry
                  (StartAll.runSync spawnSync (StartAll.node_version execPath ROOT))
                  StartAll.pcontinue) (fun _ =>
             StartAll.pbind
               (StartAll.ptry
                  (StartAll.runSync spawnSync (StartAll.npm_version ROOT))
                  (StartAll.pexit 1)) (fun _ =>
             StartAll.pbind
               (StartAll.runSync spawnSync (StartAll.install_frontend ROOT)) (fun _ =>
             StartAll.pbind
               (StartAll.runSync spawnSync (StartAll.install_backend BACKEND)) (fun _ =>
             StartAll.pbind
               (StartAll.runSync spawnSync (StartAll.run_seed BACKEND)) (fun _ =>
             StartAll.pbind
               (StartAll.startProcess spawn "backend" (StartAll.dev_backend BACKEND))
               (fun _ =>
             StartAll.startProcess spawn "frontend" (StartAll.dev_frontend ROOT))))))))
            (StartAll.full_run execPath ROOT BACKEND)).
  { unfold StartAll.full_run.
    apply (initial_part_bind _ _ [_] (_ :: _)); [discriminate| |].
    { apply runSync_guarded. now left. }
    apply (initial_part_bind _ _ [_] (_ :: _)); [discriminate| |].
    { apply runSync_guarded. now right. }
    apply (initial_part_bind _ _ [_] (_ :: _)); [discriminate|apply runSync_initial|].
    apply (initial_part_bind _ _ [_] (_ :: _)); [discriminate|apply runSync_initial|].
    apply (initial_part_bind _ _ [_] (_ :: _)); [discriminate|apply runSync_initial|].
    apply (initial_part_bind _ _ [_] [_]); [discriminate|apply startProcess_initial|].
    apply startProcess_initial. }
  destruct (initial_part_guard _ _ Hbody st)
    as (r & p1 & k & Hrun & Hk & Hpos & Hall & Hcode & Hraise).
  exists r, p1, k. split; [exact Hrun|].
  assert (Hne : StartAll.full_run execPath ROOT BACKEND <> []) by discriminate.
  specialize (Hpos Hne). cbn [StartAll.full_run length] in Hk, Hall.
  split; [lia|]. split; [exact Hall|]. split; [exact Hcode|]. split; [exact Hraise|].
  do 8 (destruct k as [|k]; [reflexivity|]). simpl in Hk. lia.
Qed.

Lemma launcher_stops_at_the_first_failure_witness :
  StartAll.main (Doubles.fails_at 4 2) Doubles.spawns "node" "/app" "/app/infra"
                (0%nat, [])
  = (StartAll.Exit 2,
     (5%nat, firstn 5 (StartAll.full_run "node" "/app" "/app/infra")))
  /\ exists r p1 k,
       StartAll.main (Doubles.fails_at 4 2) Doubles.spawns "node" "/app" "/app/infra"
                     (0%nat, [])
       = (r, (p1, [] ++ firstn k (StartAll.full_run "node" "/app" "/app/infra")))
       /\ (1 <= k <= 7)%nat.
Proof.
  split; [reflexivity|].
  destruct (launcher_stops_at_the_first_failure
              (Doubles.fails_at 4 2) Doubles.spawns "node" "/app" "/app/infra"
              (0%nat, []))
    as (r & p1 & k & Hrun & Hk & _).
  now exists r, p1, k.
Defined.

(** X19.  When the five synchronous commands all end with status 0 and
    without an error, and both dev servers can be spawned, the launcher
    runs the whole sequence and goes on without leaving: the backend
    server is started before the frontend one, after the seed. *)
Theorem launcher_starts_the_servers
  {P : Type}
  (spawnSync : StartAll.Command -> Op P StartAll.SpawnSyncResult)
  (spawn : StartAll.Command -> Op P unit)
  (execPath ROOT BACKEND : string) (st : P * list StartAll.ProcEvent) :
  (forall c p, exists p',
      spawnSync c p = (Return (StartAll.mkResult None (Some 0)), p')) ->
  (forall c p, exists p', spawn c p = (Return tt, p')) ->
  exists p1,
    StartAll.main spawnSync spawn execPath ROOT BACKEND st
    = (StartAll.Continue tt,
       (p1, snd st ++ StartAll.full_run execPath ROOT BACKEND)).
Proof.
  intros Hsync Hspawn.
  assert (Hrun : forall c (q : P * list StartAll.ProcEvent), exists p',
             StartAll.runSync spawnSync c q
             = (StartAll.Continue tt, (p', snd q ++ [StartAll.EvRunSync c]))).
  { intros c q. unfold StartAll.runSync.
    destruct (Hsync c (fst q)) as (p' & ->). now exists p'. }
  assert (Hstart : forall prefix c (q : P * list StartAll.ProcEvent), exists p',
             StartAll.startProcess spawn prefix c q
             = (StartAll.Continue tt, (p', snd q ++ [StartAll.EvSpawn prefix c]))).
  { intros prefix c q. unfold StartAll.startProcess.
    destruct (Hspawn c (fst q)) as (p' & ->). now exists p'. }
  unfold StartAll.main, StartAll.ptry at 1.
  unfold StartAll.pbind at 1, StartAll.ptry at 1.
  destruct (Hrun (StartAll.node_version execPath ROOT) st) as (p1 & ->).
  unfold StartAll.pbind at 1, StartAll.ptry at 1.
  destruct (Hrun (StartAll.npm_version ROOT)
                 (p1, snd st ++ [StartAll.EvRunSync (StartAll.node_version execPath ROOT)]))
    as (p2 & ->).
  unfold StartAll.pbind at 1.
  match goal with |- context [StartAll.runSync spawnSync ?c ?q] =>
    destruct (Hrun c q) as (p3 & ->) end.
  unfold StartAll.pbind at 1.
  match goal with |- context [StartAll.runSync spawnSync ?c ?q] =>
    destruct (Hrun c q) as (p4 & ->) end.
  unfold StartAll.pbind at 1.
  match goal with |- context [StartAll.runSync spawnSync ?c ?q] =>
    destruct (Hrun c q) as (p5 & ->) end.
  unfold StartAll.pbind at 1.
  match goal with |- context [StartAll.startProcess spawn ?x ?c ?q] =>
    destruct (Hstart x c q) as (p6 & ->) end.
  match goal with |- context [StartAll.startProcess spawn ?x ?c ?q] =>
    destruct (Hstart x c q) as (p7 & ->) end.
  exists p7. cbn [snd]. unfold StartAll.full_run. now rewrite <- !app_assoc.
Qed.

Lemma launcher_starts_the_servers_witness :
  exists p1,
    StartAll.main (fun _ (k : nat) => (Return (StartAll.mkResult None (Some 0)), S k))
                  Doubles.spawns "node" "/app" "/app/infra" (0%nat, [])
    = (StartAll.Continue tt,
       (p1, [] ++ StartAll.full_run "node" "/app" "/app/infra")).
Proof.
  apply (launcher_starts_the_servers
           (fun _ (k : nat) => (Return (StartAll.mkResult None (Some 0)), S k))
           Doubles.spawns "node" "/app" "/app/infra" (0%nat, [])).
  - intros c p. eexists. reflexivity.
  - intros c p. eexists. reflexivity.
Defined.

(** X20.  [runSync] goes on exactly when the command ended without an
    error and with status 0.  Otherwise it leaves the process with the
    status of the command, or with 1 when that status is missing (a
    child ended by a signal, or never started) or is 0 although an
    error was reported: it never leaves with code 0. *)
Theorem runSync_leaves_with_the_status_or_1
  {P : Type}
  (spawnSync : StartAll.Command -> Op P StartAll.SpawnSyncResult)
  (c : StartAll.Command) (st : P * list StartAll.ProcEvent)
  (res : StartAll.SpawnSyncResult) (p1 : P) :
  spawnSync c (fst st) = (Return res, p1) ->
  exists r,
    StartAll.runSync spawnSync c st = (r, (p1, snd st ++ [StartAll.EvRunSync c]))
    /\ (r = StartAll.Continue tt
        <-> StartAll.error res = None /\ StartAll.status res = Some 0)
    /\ (forall code, r = StartAll.Exit code ->
          code <> 0
          /\ (forall n, StartAll.status res = Some n -> n <> 0 -> code = n)
          /\ (StartAll.status res = None \/ StartAll.status res = Some 0 -> code = 1))
    /\ (forall t, r <> StartAll.Raise t).
Proof.
  intros Hres. unfold StartAll.runSync. rewrite Hres.
  assert (Hcode : forall code, StartAll.Exit (A := unit) (StartAll.status_or_1 res)
                               = StartAll.Exit code ->
            code <> 0
            /\ (forall n, StartAll.status res = Some n -> n <> 0 -> code = n)
            /\ (StartAll.status res = None \/ StartAll.status res = Some 0 -> code = 1)).
  { intros code Hc. injection Hc as <-. split; [apply status_or_1_nonzero|].
    unfold StartAll.status_or_1. split.
    - intros n -> Hn. destruct (Z.eqb_spec n 0); [contradiction|reflexivity].
    - intros [->| ->]; reflexivity. }
  destruct (StartAll.error res) as [e|] eqn:Herr.
  - eexists. split; [reflexivity|]. split; [|split; [exact Hcode|discriminate]].
    split; [discriminate|]. intros [H _]. discriminate.
  - unfold StartAll.status_not_0.
    destruct (StartAll.status res) as [n|] eqn:Hst.
    + destruct (Z.eqb_spec n 0) as [->|Hn]; cbn [negb].
      * eexists. split; [reflexivity|]. split; [now split|].
        split; [discriminate|discriminate].
      * eexists. split; [reflexivity|].
        split; [|split; [rewrite <- Hst in *; exact Hcode|discriminate]].
        split; [discriminate|]. intros [_ H]. congruence.
    + eexists. split; [reflexivity|].
      split; [|split; [rewrite <- Hst in *; exact Hcode|discriminate]].
      split; [discriminate|]. intros [_ H]. discriminate.
Qed.

Lemma runSync_leaves_with_the_status_or_1_witness :
  exists r,
    StartAll.runSync (fun _ (k : nat) => (Return (StartAll.mkResult None None), S k))
                     (StartAll.mkCommand "npm" ["install"] "/app") (0%nat, [])
    = (r, (1%nat, [] ++ [StartAll.EvRunSync (StartAll.mkCommand "npm" ["install"] "/app")]))
    /\ (r = StartAll.Continue tt
        <-> StartAll.error (StartAll.mkResult None None) = None
            /\ StartAll.status (StartAll.mkResult None None) = Some 0)
    /\ (forall code, r = StartAll.Exit code ->
          code <> 0
          /\ (forall n, StartAll.status (StartAll.mkResult None None) = Some n ->
                n <> 0 -> code = n)
          /\ (StartAll.status (StartAll.mkResult None None) = None
              \/ StartAll.status (StartAll.mkResult None None) = Some 0 -> code = 1))
    /\ (forall t, r <> StartAll.Raise t).
Proof.
  apply (runSync_leaves_with_the_status_or_1
           (fun _ (k : nat) => (Return (StartAll.mkResult None None), S k))
           (StartAll.mkCommand "npm" ["install"] "/app") (0%nat, [])
           (StartAll.mkResult None None) 1%nat).
  reflexivity.
Defined.
